(** * Loan lifecycle and wallet ledger of the p2p lending platform

    A shallow embedding of the service layer of the platform
    ([apps/wallets], [apps/loans]) together with the properties of its
    natural-language specification.

    Conventions of the embedding:
    - the database is an explicit value [Db] threaded through every call;
      a table with a primary key is a finite map from the key to the row,
      the wallet table is keyed by the user of its one-to-one field, and the
      transaction log is the list of its rows in insertion order;
    - a model instance held by Python code is a copy of its row (paired
      with its key for a keyed table): saving it writes the copy back,
      whatever the row holds by then;
    - money stored in a [DecimalField(max_digits=12, decimal_places=2)] is an
      integer number of cents, an interest rate stored in a
      [DecimalField(max_digits=5, decimal_places=2)] is an integer number of
      hundredths of a percent; the widths [max_digits] of the stored columns
      are not modelled, those of the amount fields of the wallet serializers
      are;
    - [Decimal] arithmetic is modelled digit for digit in module [Dec];
    - the clock ([timezone.now()], [date.today()]) and
      [settings.PLATFORM_FUNDING_FEE] are arguments of the functions that
      read them;
    - a raised exception is the [Raised] outcome, and [atomic] restores the
      database when its body raises;
    - logging and cache invalidation have no effect on the database and are
      left out. *)

From Stdlib Require Import ZArith QArith Qround Qabs Lia.
From stdpp Require Import gmap strings list fin_maps pretty sorting.

Local Open Scope Z_scope.

(** ** Users *)

Inductive Role := BORROWER | LENDER.

Global Instance Role_eq_dec : EqDecision Role.
Proof. solve_decision. Defined.

(** [apps/users/models.py]: a user row; Django compares model instances by
    primary key. *)
Record User := mkUser {
  user_pk : nat;
  username : string;
  role : Role
}.

Definition user_eqb (u v : User) : bool := bool_decide (user_pk u = user_pk v).

(** ** Wallets and the transaction log ([apps/wallets/models.py]) *)

Inductive TransactionType :=
  DEPOSIT | WITHDRAWAL | LOAN_FUNDING | LOAN_PAYMENT | PLATFORM_FEE.

Global Instance TransactionType_eq_dec : EqDecision TransactionType.
Proof. solve_decision. Defined.

(** A [Wallet] instance in memory: the user of the row and the balance read
    from it, in cents. *)
Record Wallet := mkWallet {
  wallet_user : nat;
  balance : Z
}.

Record Transaction := mkTransaction {
  tx_wallet : nat;
  transaction_type : TransactionType;
  tx_amount : Z;
  description : string;
  reference_id : option string
}.

(** ** Loans, offers and payments ([apps/loans/models.py]) *)

Inductive LoanStatus :=
  REQUESTED | PENDING_FUNDING | FUNDED | COMPLETED | CANCELLED.

Global Instance LoanStatus_eq_dec : EqDecision LoanStatus.
Proof. solve_decision. Defined.

Inductive PaymentStatus := PENDING | PAID | OVERDUE.

Global Instance PaymentStatus_eq_dec : EqDecision PaymentStatus.
Proof. solve_decision. Defined.

Record date := mkDate { year : Z; month : Z; day : Z }.

Record datetime := mkDatetime { dt_date : date; dt_seconds : Z }.

Record Loan := mkLoan {
  borrower : User;
  lender : option User;
  amount : Z;
  term_months : Z;
  annual_interest_rate : Z;
  status : LoanStatus;
  funded_at : option datetime
}.

Record Offer := mkOffer {
  offer_loan : nat;
  offer_lender : User;
  offer_rate : Z;
  accepted : bool
}.

Record Payment := mkPayment {
  payment_loan : nat;
  payment_number : Z;
  due_date : date;
  payment_amount : Z;
  payment_status : PaymentStatus;
  paid_at : option datetime
}.

(** ** The database *)

Record Db := mkDb {
  wallets : gmap nat Z;
  transactions : list Transaction;
  loans : gmap nat Loan;
  offers : gmap nat Offer;
  payments : gmap nat Payment
}.

Definition set_wallets (f : gmap nat Z -> gmap nat Z) (db : Db) : Db :=
  mkDb (f (wallets db)) (transactions db) (loans db) (offers db) (payments db).

Definition set_transactions (f : list Transaction -> list Transaction) (db : Db) : Db :=
  mkDb (wallets db) (f (transactions db)) (loans db) (offers db) (payments db).

Definition set_loans (f : gmap nat Loan -> gmap nat Loan) (db : Db) : Db :=
  mkDb (wallets db) (transactions db) (f (loans db)) (offers db) (payments db).

Definition set_offers (f : gmap nat Offer -> gmap nat Offer) (db : Db) : Db :=
  mkDb (wallets db) (transactions db) (loans db) (f (offers db)) (payments db).

Definition set_payments (f : gmap nat Payment -> gmap nat Payment) (db : Db) : Db :=
  mkDb (wallets db) (transactions db) (loans db) (offers db) (f (payments db)).

(** The key an auto-increment column gives the next row: above every key
    of the table. *)
Definition next_pk {A} (m : gmap nat A) : nat :=
  S (map_fold (fun k _ acc => Nat.max k acc) 0%nat m).

(** ** Results and exceptions *)

(** The dictionaries [{'success': True, ...}] and
    [{'success': False, 'error': msg}] the services return. *)
Inductive result (A : Type) :=
  | Success (a : A)
  | Failure (error : string).
Arguments Success {A} a.
Arguments Failure {A} error.

(** [apps/common/exceptions.py], and the two library exceptions the modelled
    code can meet. *)
Inductive exn :=
  | LoanNotFoundError
  | UnauthorizedLoanAccessError
  | InvalidLoanStateError
  | InsufficientFundsError
  | DecimalException
  | IntegrityError.

Inductive outcome (A : Type) :=
  | Returned (a : A)
  | Raised (e : exn).
Arguments Returned {A} a.
Arguments Raised {A} e.


(** ** The monad of service code: database state and exceptions *)

Definition M (A : Type) : Type := Db -> Db * outcome A.

Definition ret {A} (a : A) : M A := fun db => (db, Returned a).

Definition raise {A} (e : exn) : M A := fun db => (db, Raised e).

Definition bind {A B} (m : M A) (k : A -> M B) : M B :=
  fun db =>
    match m db with
    | (db', Returned a) => k a db'
    | (db', Raised e) => (db', Raised e)
    end.

Notation "x <- m ;; k" := (bind m (fun x => k))
  (at level 100, m at next level, right associativity).
Notation "m ;;; k" := (bind m (fun _ => k))
  (at level 100, right associativity).

Definition query {A} (f : Db -> A) : M A := fun db => (db, Returned (f db)).

Definition update (f : Db -> Db) : M unit := fun db => (f db, Returned tt).

(** [with transaction.atomic():] commits when the body leaves the block
    normally, a [return] included, and rolls back when it raises. *)
Definition atomic {A} (body : M A) : M A :=
  fun db =>
    match body db with
    | (db', Returned a) => (db', Returned a)
    | (_, Raised e) => (db, Raised e)
    end.

(** ** Formatting of money in messages *)

(** [str] of a two-place [Decimal] given in cents. *)
Definition two_digits (n : Z) : string :=
  (if n <? 10 then "0" else "") +:+ pretty n.

Definition format_money (cents : Z) : string :=
  (if cents <? 0 then "-" else "") +:+
  pretty (Z.abs cents / 100) +:+ "." +:+ two_digits (Z.abs cents mod 100).

(** [description or fallback]: a missing or empty description gives the
    fallback. *)
Definition description_or (description : option string) (fallback : string)
  : string :=
  match description with
  | Some d => if decide (d = "") then fallback else d
  | None => fallback
  end.

(** ** [apps/wallets/repositories.py] *)

Module WalletRepository.

Definition get_or_create_wallet (user : User) : M Wallet :=
  fun db =>
    match wallets db !! user_pk user with
    | Some b => (db, Returned (mkWallet (user_pk user) b))
    | None =>
        (set_wallets (fun w => <[user_pk user := 0]> w) db,
         Returned (mkWallet (user_pk user) 0))
    end.

Definition get_wallet_by_user (user : User) : M (option Wallet) :=
  query (fun db => mkWallet (user_pk user) <$> wallets db !! user_pk user).

(** [wallet.save()] writes the instance's balance to its row. *)
Definition save (wallet : Wallet) : M unit :=
  update (set_wallets (fun w => <[wallet_user wallet := balance wallet]> w)).

Definition update_balance (wallet : Wallet) (amount : Z) (operation : string)
  : M Wallet :=
  let wallet' :=
    if decide (operation = "add") then
      mkWallet (wallet_user wallet) (balance wallet + amount)
    else if decide (operation = "subtract") then
      mkWallet (wallet_user wallet) (balance wallet - amount)
    else wallet in
  save wallet' ;;; ret wallet'.

Definition has_sufficient_balance (wallet : Wallet) (amount : Z) : bool :=
  bool_decide (balance wallet >= amount).

End WalletRepository.

Module TransactionRepository.

Definition create_transaction (wallet : Wallet) (transaction_type : TransactionType)
    (amount : Z) (description : string) (reference_id : option string)
  : M Transaction :=
  let transaction :=
    mkTransaction (wallet_user wallet) transaction_type amount description
      reference_id in
  update (set_transactions (fun l => l ++ [transaction])) ;;; ret transaction.

(** [Transaction.objects.filter(wallet=wallet).order_by('-created_at')],
    cut to [queryset[:limit]] when [limit] is neither [None] nor 0. The log
    holds the rows in the order of their creation: the newest row is the
    last of the log and the first of the answer. The view hands over a
    number read from digits, or [None]. *)
Definition get_transactions_by_wallet (wallet : Wallet) (limit : option nat)
  : M (list Transaction) :=
  query (fun db =>
    let queryset :=
      reverse (filter (fun t => tx_wallet t = wallet_user wallet)
                 (transactions db)) in
    match limit with
    | Some n => if bool_decide (n <> 0%nat) then take n queryset else queryset
    | None => queryset
    end).

End TransactionRepository.

(** ** [apps/wallets/services.py] *)

Record BalanceReceipt := mkBalanceReceipt {
  new_balance : Z;
  transaction : Transaction
}.

Record TransferReceipt := mkTransferReceipt {
  from_balance : Z;
  to_balance : Z;
  from_transaction : Transaction;
  to_transaction : Transaction
}.

Module WalletService.

Definition get_or_create_wallet (user : User) : M Wallet :=
  WalletRepository.get_or_create_wallet user.

Definition get_wallet_balance (user : User) : M Z :=
  wallet <- WalletRepository.get_wallet_by_user user ;;
  ret (match wallet with Some w => balance w | None => 0 end).

Definition deposit_funds (user : User) (amount : Z) (description : option string)
  : M (result BalanceReceipt) :=
  atomic (
    wallet <- WalletRepository.get_or_create_wallet user ;;
    wallet <- WalletRepository.update_balance wallet amount "add" ;;
    transaction_record <-
      TransactionRepository.create_transaction wallet DEPOSIT amount
        (description_or description ("Deposit of $" +:+ format_money amount))
        None ;;
    ret (Success (mkBalanceReceipt (balance wallet) transaction_record))).

Definition withdraw_funds (user : User) (amount : Z) (description : option string)
  : M (result BalanceReceipt) :=
  atomic (
    wallet <- WalletRepository.get_wallet_by_user user ;;
    match wallet with
    | None => ret (Failure "Wallet not found")
    | Some wallet =>
        if negb (WalletRepository.has_sufficient_balance wallet amount)
        then ret (Failure "Insufficient funds")
        else
          wallet <- WalletRepository.update_balance wallet amount "subtract" ;;
          transaction_record <-
            TransactionRepository.create_transaction wallet WITHDRAWAL amount
              (description_or description
                 ("Withdrawal of $" +:+ format_money amount))
              None ;;
          ret (Success (mkBalanceReceipt (balance wallet) transaction_record))
    end).

Definition transfer_funds (from_user to_user : User) (amount : Z)
    (transaction_type : TransactionType) (reference_id : option string)
  : M (result TransferReceipt) :=
  atomic (
    from_wallet <- WalletRepository.get_wallet_by_user from_user ;;
    to_wallet <- WalletRepository.get_or_create_wallet to_user ;;
    match from_wallet with
    | None => ret (Failure "Sender wallet not found")
    | Some from_wallet =>
        if negb (WalletRepository.has_sufficient_balance from_wallet amount)
        then ret (Failure "Insufficient funds")
        else
          from_wallet <-
            WalletRepository.update_balance from_wallet amount "subtract" ;;
          to_wallet <- WalletRepository.update_balance to_wallet amount "add" ;;
          from_transaction <-
            TransactionRepository.create_transaction from_wallet
              transaction_type (- amount)
              ("Transfer to " +:+ username to_user) reference_id ;;
          to_transaction <-
            TransactionRepository.create_transaction to_wallet
              transaction_type amount
              ("Transfer from " +:+ username from_user) reference_id ;;
          ret (Success (mkTransferReceipt (balance from_wallet)
                          (balance to_wallet) from_transaction to_transaction))
    end).

Definition deduct_platform_fee (user : User) (amount : Z)
    (reference_id : option string) : M (result BalanceReceipt) :=
  atomic (
    wallet <- WalletRepository.get_wallet_by_user user ;;
    match wallet with
    | None => ret (Failure "Wallet not found")
    | Some wallet =>
        if negb (WalletRepository.has_sufficient_balance wallet amount)
        then ret (Failure "Insufficient funds for platform fee")
        else
          wallet <- WalletRepository.update_balance wallet amount "subtract" ;;
          transaction_record <-
            TransactionRepository.create_transaction wallet PLATFORM_FEE
              (- amount) ("Platform fee of $" +:+ format_money amount)
              reference_id ;;
          ret (Success (mkBalanceReceipt (balance wallet) transaction_record))
    end).

Definition get_transaction_history (user : User) (limit : option nat)
  : M (list Transaction) :=
  wallet <- WalletRepository.get_wallet_by_user user ;;
  match wallet with
  | None => ret []
  | Some wallet => TransactionRepository.get_transactions_by_wallet wallet limit
  end.

Definition check_balance (user : User) (required_amount : Z) : M bool :=
  wallet <- WalletRepository.get_wallet_by_user user ;;
  ret (match wallet with
       | Some w => WalletRepository.has_sufficient_balance w required_amount
       | None => false
       end).

End WalletService.

(** ** Python's [decimal.Decimal] in the default context

    A finite decimal is a signed coefficient and an exponent; its value is
    [coeff * 10 ^ expo]. The default context keeps 28 significant digits and
    rounds half to even. Division by zero and a result with too many digits
    raise, which is the result [None]. Exponent limits, negative zero and
    the special values are not modelled. *)

Module Dec.

Record t := mk { coeff : Z; expo : Z }.

Definition prec : Z := 28.

Definition of_Z (n : Z) : t := mk n 0.

(** A stored money amount or rate: two decimal places. *)
Definition of_cents (c : Z) : t := mk c (-2).

Fixpoint digits_go (fuel : nat) (n : Z) : Z :=
  match fuel with
  | O => 1
  | S fuel' => if n <? 10 then 1 else 1 + digits_go fuel' (n / 10)
  end.

(** Number of decimal digits of the coefficient, 1 for zero. *)
Definition digits (c : Z) : Z :=
  digits_go (Z.to_nat (Z.log2 (Z.abs c))) (Z.abs c).

(** Drop the [k] low digits of [c], rounding half to even on the
    magnitude. *)
Definition round_half_even (c k : Z) : Z :=
  let m := Z.abs c in
  let p := 10 ^ k in
  let q := m / p in
  let r := m mod p in
  Z.sgn c *
  (if 2 * r <? p then q
   else if p <? 2 * r then q + 1
   else if Z.even q then q else q + 1).

(** Round a result to the precision of the context. *)
Definition fix_ (d : t) : t :=
  let n := digits (coeff d) in
  if n <=? prec then d
  else
    let k := n - prec in
    let c := round_half_even (coeff d) k in
    if prec <? digits c then mk (c / 10) (expo d + k + 1)
    else mk c (expo d + k).

Definition add (x y : t) : t :=
  let e := Z.min (expo x) (expo y) in
  fix_ (mk (coeff x * 10 ^ (expo x - e) + coeff y * 10 ^ (expo y - e)) e).

Definition opp (x : t) : t := mk (- coeff x) (expo x).

Definition sub (x y : t) : t := add x (opp y).

Definition mul (x y : t) : t :=
  fix_ (mk (coeff x * coeff y) (expo x + expo y)).

(** An exact quotient is brought as close to the ideal exponent as its
    trailing zeros allow. *)
Fixpoint strip_zeros (fuel : nat) (c e : Z) : Z * Z :=
  match fuel with
  | O => (c, e)
  | S fuel' =>
      if c mod 10 =? 0 then strip_zeros fuel' (c / 10) (e + 1) else (c, e)
  end.

Definition div (x y : t) : option t :=
  if coeff y =? 0 then None
  else if coeff x =? 0 then Some (fix_ (mk 0 (expo x - expo y)))
  else
    let sign := Z.sgn (coeff x) * Z.sgn (coeff y) in
    let a := Z.abs (coeff x) in
    let b := Z.abs (coeff y) in
    let shift := digits b - digits a + prec + 1 in
    let e := expo x - expo y - shift in
    let (q, r) :=
      if 0 <=? shift then Z.div_eucl (a * 10 ^ shift) b
      else Z.div_eucl a (b * 10 ^ (- shift)) in
    let (c, e') :=
      if r =? 0 then strip_zeros (Z.to_nat (expo x - expo y - e)) q e
      else (if q mod 5 =? 0 then q + 1 else q, e) in
    Some (fix_ (mk (sign * c) e')).

(** Integer power: the exact power, correctly rounded; for a negative
    exponent the correctly rounded inverse of the exact power. *)
Definition pow (x : t) (n : Z) : option t :=
  if 0 <=? n then Some (fix_ (mk (coeff x ^ n) (expo x * n)))
  else div (of_Z 1) (mk (coeff x ^ (- n)) (expo x * (- n))).

(** [x.quantize(Decimal(10) ** e)] with the rounding of the context. *)
Definition rescale (x : t) (e : Z) : Z :=
  if e <=? expo x then coeff x * 10 ^ (expo x - e)
  else round_half_even (coeff x) (e - expo x).

Definition quantize (x : t) (e : Z) : option t :=
  if coeff x =? 0 then Some (mk 0 e)
  else if prec <? digits (coeff x) + expo x - e then None
  else
    let c := rescale x e in
    if prec <? digits c then None else Some (mk c e).

Definition is_zero (x : t) : bool := coeff x =? 0.

(** Comparison of values. *)
Definition compare (x y : t) : comparison :=
  let e := Z.min (expo x) (expo y) in
  Z.compare (coeff x * 10 ^ (expo x - e)) (coeff y * 10 ^ (expo y - e)).

Definition eqb (x y : t) : bool :=
  match compare x y with Eq => true | _ => false end.

(** The value as a rational number. *)
Definition to_Q (x : t) : Q :=
  if 0 <=? expo x then inject_Z (coeff x * 10 ^ expo x)
  else Qmake (coeff x) (Z.to_pos (10 ^ (- expo x))).

End Dec.

(** ** Calendar dates *)

Definition is_leap (y : Z) : bool :=
  ((y mod 4 =? 0) && negb (y mod 100 =? 0)) || (y mod 400 =? 0).

Definition days_in_month (y m : Z) : Z :=
  if m =? 2 then (if is_leap y then 29 else 28)
  else if (m =? 4) || (m =? 6) || (m =? 9) || (m =? 11) then 30
  else 31.

(** [d + relativedelta(months=k)]: the month moves, the day is kept and
    clipped to the length of the new month. *)
Definition add_months (d : date) (k : Z) : date :=
  let m0 := month d - 1 + k in
  let y := year d + m0 / 12 in
  let m := m0 mod 12 + 1 in
  mkDate y m (Z.min (day d) (days_in_month y m)).

Definition date_ltb (a b : date) : bool :=
  (year a <? year b)
  || ((year a =? year b)
      && ((month a <? month b)
          || ((month a =? month b) && (day a <? day b)))).

(** ** Model properties and class methods of [apps/loans/models.py] *)

(** Rows of a table that satisfy a filter, with their keys:
    [Model.objects.filter(...)]. *)
Definition rows_where {A} (f : A -> bool) (m : gmap nat A) : list (nat * A) :=
  filter (fun r => f r.2 = true) (map_to_list m).

(** The local variable [monthly_rate] of [Loan.monthly_payment]. *)
Definition monthly_rate (loan : Loan) : option Dec.t :=
  match Dec.div (Dec.of_cents (annual_interest_rate loan)) (Dec.of_Z 100) with
  | None => None
  | Some r100 => Dec.div r100 (Dec.of_Z 12)
  end.

(** The local variable [payment] of [Loan.monthly_payment], before it is
    quantized. *)
Definition unrounded_payment (loan : Loan) (rate : Dec.t) : option Dec.t :=
  match Dec.pow (Dec.add (Dec.of_Z 1) rate) (term_months loan) with
  | None => None
  | Some growth =>
      Dec.div (Dec.mul (Dec.mul (Dec.of_cents (amount loan)) rate) growth)
        (Dec.sub growth (Dec.of_Z 1))
  end.

(** [Loan.monthly_payment]. *)
Definition monthly_payment (loan : Loan) : option Dec.t :=
  if term_months loan =? 0 then Some (Dec.of_cents 0)
  else
    match monthly_rate loan with
    | None => None
    | Some rate =>
        if Dec.eqb rate (Dec.of_Z 0)
        then Dec.div (Dec.of_cents (amount loan)) (Dec.of_Z (term_months loan))
        else
          match unrounded_payment loan rate with
          | None => None
          | Some payment => Dec.quantize payment (-2)
          end
    end.

(** [Loan.total_amount]. *)
Definition total_amount (loan : Loan) : option Dec.t :=
  match monthly_payment loan with
  | None => None
  | Some payment => Some (Dec.mul payment (Dec.of_Z (term_months loan)))
  end.

(** [Payment.is_overdue]. *)
Definition is_overdue (today : date) (p : Payment) : bool :=
  bool_decide (payment_status p = PENDING) && date_ltb (due_date p) today.

(** [Payment.mark_as_paid]: the fields set on the instance before it is
    saved. *)
Definition mark_as_paid (now : datetime) (p : Payment) : Payment :=
  mkPayment (payment_loan p) (payment_number p) (due_date p) (payment_amount p)
    PAID (Some now).

(** The rows [Payment.generate_payment_schedule] builds for a loan, the
    amount as the two-place column stores it. *)
Definition schedule_rows (today : date) (loan_id : nat) (loan : Loan)
    (monthly : Dec.t) : list Payment :=
  let funding_date :=
    match funded_at loan with Some t => dt_date t | None => today end in
  (fun month =>
     mkPayment loan_id month (add_months funding_date month)
       (Dec.rescale monthly (-2)) PENDING None)
  <$> seqZ 1 (term_months loan).

Definition insert_rows {A} (rows : list A) (m : gmap nat A) : gmap nat A :=
  foldl (fun m row => <[next_pk m := row]> m) m rows.

(** [unique_together = ['loan', 'payment_number']]. *)
Definition payment_conflict (m : gmap nat Payment) (p : Payment) : bool :=
  bool_decide (rows_where (fun q =>
      bool_decide (payment_loan q = payment_loan p
                   /\ payment_number q = payment_number p)) m <> []).

(** [Payment.objects.bulk_create(payments)]. *)
Definition bulk_create (rows : list Payment) : M (list Payment) :=
  fun db =>
    if existsb (payment_conflict (payments db)) rows
    then (db, Raised IntegrityError)
    else (set_payments (insert_rows rows) db, Returned rows).

Definition generate_payment_schedule (today : date) (loan_id : nat) (loan : Loan)
  : M (list Payment) :=
  match monthly_payment loan with
  | None => raise DecimalException
  | Some monthly => bulk_create (schedule_rows today loan_id loan monthly)
  end.

(** ** [apps/loans/repositories.py] *)

Module LoanRepository.

(** [Loan.objects.create(borrower=borrower, **kwargs)] with the fields of
    a validated request; the other columns take their defaults. The text
    column [purpose] is read by no code and is not part of the rows. *)
Definition create_loan (borrower : User)
    (amount term_months annual_interest_rate : Z) : M (nat * Loan) :=
  fun db =>
    let loan :=
      (next_pk (loans db),
       mkLoan borrower None amount term_months annual_interest_rate REQUESTED
         None) in
    (set_loans (fun m => <[loan.1 := loan.2]> m) db, Returned loan).

Definition get_loan_by_id (loan_id : nat) : M (option (nat * Loan)) :=
  query (fun db => pair loan_id <$> loans db !! loan_id).

(** [update_loan(loan, **kwargs)]: the keyword arguments are the function
    [set] on the instance; the instance is then saved. *)
Definition update_loan (loan : nat * Loan) (set : Loan -> Loan)
  : M (nat * Loan) :=
  let loan' := (loan.1, set loan.2) in
  update (set_loans (fun m => <[loan'.1 := loan'.2]> m)) ;;; ret loan'.

End LoanRepository.

Module OfferRepository.

Definition create_offer (loan : nat * Loan) (lender : User)
    (annual_interest_rate : Z) : M (nat * Offer) :=
  fun db =>
    let offer :=
      (next_pk (offers db), mkOffer loan.1 lender annual_interest_rate false) in
    (set_offers (fun m => <[offer.1 := offer.2]> m) db, Returned offer).

Definition get_offer_by_id (offer_id : nat) : M (option (nat * Offer)) :=
  query (fun db => pair offer_id <$> offers db !! offer_id).

(** The order of [order_by('annual_interest_rate')]. *)
Definition by_rate (a b : nat * Offer) : Prop :=
  offer_rate a.2 <= offer_rate b.2.

Global Instance by_rate_dec a b : Decision (by_rate a b).
Proof. unfold by_rate. apply _. Defined.

(** [Offer.objects.filter(loan=loan).order_by('annual_interest_rate')];
    among offers of one rate the database is free in the order, here it is
    the one the merge leaves. *)
Definition get_offers_for_loan (loan : nat * Loan) : M (list (nat * Offer)) :=
  query (fun db =>
    merge_sort by_rate
      (rows_where (fun o => bool_decide (offer_loan o = loan.1)) (offers db))).

Definition accept_offer (offer : nat * Offer) : M (nat * Offer) :=
  let offer' :=
    (offer.1,
     mkOffer (offer_loan offer.2) (offer_lender offer.2) (offer_rate offer.2)
       true) in
  update (set_offers (fun m => <[offer'.1 := offer'.2]> m)) ;;; ret offer'.

Definition check_existing_offer (loan : nat * Loan) (lender : User) : M bool :=
  query (fun db =>
    bool_decide (rows_where (fun o =>
        bool_decide (offer_loan o = loan.1) && user_eqb (offer_lender o) lender)
      (offers db) <> [])).

End OfferRepository.

Record PaymentCounts := mkPaymentCounts {
  total : nat;
  paid : nat;
  remaining : Z;
  all_paid : bool
}.

Module PaymentRepository.

Definition min_payment (a b : nat * Payment) : nat * Payment :=
  if payment_number a.2 <=? payment_number b.2 then a else b.

(** [.order_by('payment_number').first()]. *)
Fixpoint first_by_payment_number (l : list (nat * Payment))
  : option (nat * Payment) :=
  match l with
  | [] => None
  | x :: l' =>
      match first_by_payment_number l' with
      | None => Some x
      | Some y => Some (min_payment x y)
      end
  end.

Definition get_next_pending_payment (loan : nat * Loan)
  : M (option (nat * Payment)) :=
  query (fun db =>
    first_by_payment_number
      (rows_where (fun p =>
          bool_decide (payment_loan p = loan.1)
          && bool_decide (payment_status p = PENDING)) (payments db))).

(** The orders of [order_by('payment_number')] and [order_by('due_date')]. *)
Definition by_payment_number (a b : nat * Payment) : Prop :=
  payment_number a.2 <= payment_number b.2.

Global Instance by_payment_number_dec a b : Decision (by_payment_number a b).
Proof. unfold by_payment_number. apply _. Defined.

Definition by_due_date (a b : nat * Payment) : Prop :=
  date_ltb (due_date b.2) (due_date a.2) = false.

Global Instance by_due_date_dec a b : Decision (by_due_date a b).
Proof. unfold by_due_date. apply _. Defined.

(** [Payment.objects.filter(loan=loan).order_by('payment_number')]. *)
Definition get_payments_for_loan (loan : nat * Loan)
  : M (list (nat * Payment)) :=
  query (fun db =>
    merge_sort by_payment_number
      (rows_where (fun p => bool_decide (payment_loan p = loan.1))
         (payments db))).

(** [filter(loan__borrower=borrower, status='PENDING').order_by('due_date')]. *)
Definition get_pending_payments_by_borrower (borrower_ : User)
  : M (list (nat * Payment)) :=
  query (fun db =>
    merge_sort by_due_date
      (rows_where
         (fun p =>
            match loans db !! payment_loan p with
            | Some loan => user_eqb (borrower loan) borrower_
            | None => false
            end
            && bool_decide (payment_status p = PENDING))
         (payments db))).

(** [get_overdue_payments], with [date.today()] as an argument. *)
Definition get_overdue_payments (today : date) : M (list (nat * Payment)) :=
  query (fun db =>
    rows_where
      (fun p =>
         bool_decide (payment_status p = PENDING) && date_ltb (due_date p) today)
      (payments db)).

Definition mark_payment_as_paid (now : datetime) (payment : nat * Payment)
  : M (nat * Payment) :=
  let payment' := (payment.1, mark_as_paid now payment.2) in
  update (set_payments (fun m => <[payment'.1 := payment'.2]> m)) ;;;
  ret payment'.

Definition get_all_payments_for_loan_status (loan : nat * Loan)
  : M PaymentCounts :=
  query (fun db =>
    let total_payments :=
      length (rows_where (fun p => bool_decide (payment_loan p = loan.1))
                (payments db)) in
    let paid_payments :=
      length (rows_where (fun p =>
                  bool_decide (payment_loan p = loan.1)
                  && bool_decide (payment_status p = PAID)) (payments db)) in
    mkPaymentCounts total_payments paid_payments
      (Z.of_nat total_payments - Z.of_nat paid_payments)
      (bool_decide (paid_payments = total_payments)
       && bool_decide (0 < total_payments)%nat)).

End PaymentRepository.

(** ** [apps/loans/services.py] *)

Definition set_accepted_terms (offer : Offer) (l : Loan) : Loan :=
  mkLoan (borrower l) (Some (offer_lender offer)) (amount l) (term_months l)
    (offer_rate offer) PENDING_FUNDING (funded_at l).

Definition set_funded (now : datetime) (l : Loan) : Loan :=
  mkLoan (borrower l) (lender l) (amount l) (term_months l)
    (annual_interest_rate l) FUNDED (Some now).

Definition set_status (s : LoanStatus) (l : Loan) : Loan :=
  mkLoan (borrower l) (lender l) (amount l) (term_months l)
    (annual_interest_rate l) s (funded_at l).

(** [loan.lender != lender], the lender of the loan possibly [None]. *)
Definition is_lender (l : Loan) (u : User) : bool :=
  match lender l with Some v => user_eqb v u | None => false end.

(** The outcome of a call that raises [RolePermissionError] for a user
    of the wrong role before it reads or writes anything. *)
Inductive role_checked (A : Type) :=
  | RolePermitted (a : A)
  | RolePermissionError.
Arguments RolePermitted {A} a.
Arguments RolePermissionError {A}.

Module LoanService.

Definition create_loan (borrower_ : User)
    (amount term_months annual_interest_rate : Z)
  : M (role_checked (nat * Loan)) :=
  if negb (bool_decide (role borrower_ = BORROWER))
  then ret RolePermissionError
  else
    loan <-
      LoanRepository.create_loan borrower_ amount term_months
        annual_interest_rate ;;
    ret (RolePermitted loan).

End LoanService.

Module OfferService.

Definition create_offer (loan_id : nat) (lender : User)
    (annual_interest_rate : Z) : M (result (nat * Offer)) :=
  if negb (bool_decide (role lender = LENDER))
  then ret (Failure "Only lenders can make offers")
  else
    loan <- LoanRepository.get_loan_by_id loan_id ;;
    match loan with
    | None => ret (Failure "Loan not found")
    | Some loan =>
        if negb (bool_decide (status loan.2 = REQUESTED))
        then ret (Failure "Loan is not available for offers")
        else if user_eqb (borrower loan.2) lender
        then ret (Failure "Cannot make offer on your own loan")
        else
          existing <- OfferRepository.check_existing_offer loan lender ;;
          if (existing : bool)
          then ret (Failure "You have already made an offer on this loan")
          else
            offer <-
              OfferRepository.create_offer loan lender annual_interest_rate ;;
            ret (Success offer)
    end.

Definition get_offers_for_loan (loan_id : nat) : M (list (nat * Offer)) :=
  loan <- LoanRepository.get_loan_by_id loan_id ;;
  match loan with
  | None => ret []
  | Some loan => OfferRepository.get_offers_for_loan loan
  end.

(** The reads and checks of [accept_offer], all made before its atomic
    block opens. *)
Definition accept_offer_checks (loan_id offer_id : nat) (borrower_ : User)
  : M (result ((nat * Loan) * (nat * Offer))) :=
  loan <- LoanRepository.get_loan_by_id loan_id ;;
  match loan with
  | None => ret (Failure "Loan not found")
  | Some loan =>
      if negb (user_eqb (borrower loan.2) borrower_)
      then ret (Failure "You can only accept offers on your own loans")
      else if negb (bool_decide (status loan.2 = REQUESTED))
      then ret (Failure "Loan is not available for offer acceptance")
      else
        offer <- OfferRepository.get_offer_by_id offer_id ;;
        match offer with
        | None => ret (Failure "Offer not found")
        | Some offer =>
            if negb (bool_decide (offer_loan offer.2 = loan.1))
            then ret (Failure "Offer not found")
            else if accepted offer.2
            then ret (Failure "Offer has already been accepted")
            else ret (Success (loan, offer))
        end
  end.

(** The atomic block of [accept_offer], on the instances read before. *)
Definition accept_offer_writes (loan : nat * Loan) (offer : nat * Offer)
  : M (result (nat * Loan)) :=
  loan <- atomic (
    offer <- OfferRepository.accept_offer offer ;;
    LoanRepository.update_loan loan (set_accepted_terms offer.2)) ;;
  ret (Success loan).

Definition accept_offer (loan_id offer_id : nat) (borrower_ : User)
  : M (result (nat * Loan)) :=
  checked <- accept_offer_checks loan_id offer_id borrower_ ;;
  match checked with
  | Failure e => ret (Failure e)
  | Success (loan, offer) => accept_offer_writes loan offer
  end.

End OfferService.

Module LoanFundingService.

Definition fund_loan (now : datetime) (platform_fee : Z) (loan_id : nat)
    (lender_ : User) : M (result (nat * Loan)) :=
  loan <- LoanRepository.get_loan_by_id loan_id ;;
  match loan with
  | None => raise LoanNotFoundError
  | Some loan =>
      if negb (is_lender loan.2 lender_) then raise UnauthorizedLoanAccessError
      else if negb (bool_decide (status loan.2 = PENDING_FUNDING))
      then raise InvalidLoanStateError
      else
        let total_needed := amount loan.2 + platform_fee in
        enough <- WalletService.check_balance lender_ total_needed ;;
        if negb enough then raise InsufficientFundsError
        else
          atomic (
            transfer_result <-
              WalletService.transfer_funds lender_ (borrower loan.2)
                (amount loan.2) LOAN_FUNDING
                (Some ("loan_" +:+ pretty loan.1)) ;;
            match transfer_result with
            | Failure e => ret (Failure e)
            | Success _ =>
                fee_result <-
                  WalletService.deduct_platform_fee lender_ platform_fee
                    (Some ("loan_" +:+ pretty loan.1 +:+ "_fee")) ;;
                match fee_result with
                | Failure e => ret (Failure e)
                | Success _ =>
                    loan <- LoanRepository.update_loan loan (set_funded now) ;;
                    generate_payment_schedule (dt_date now) loan.1 loan.2 ;;;
                    ret (Success loan)
                end
            end)
  end.

End LoanFundingService.

Module PaymentService.

Definition make_payment (now : datetime) (loan_id : nat) (borrower_ : User)
  : M (result ((nat * Payment) * bool)) :=
  loan <- LoanRepository.get_loan_by_id loan_id ;;
  match loan with
  | None => ret (Failure "Loan not found")
  | Some loan =>
      if negb (user_eqb (borrower loan.2) borrower_)
      then ret (Failure "You can only make payments on your own loans")
      else if negb (bool_decide (status loan.2 = FUNDED))
      then ret (Failure "Loan is not in a state where payments can be made")
      else
        next_payment <- PaymentRepository.get_next_pending_payment loan ;;
        match next_payment with
        | None => ret (Failure "No pending payments found")
        | Some next_payment =>
            enough <-
              WalletService.check_balance borrower_
                (payment_amount next_payment.2) ;;
            if negb enough
            then ret (Failure ("Insufficient funds. Need $"
                               +:+ format_money (payment_amount next_payment.2)
                               +:+ " for payment"))
            else
              atomic (
                match lender loan.2 with
                | None => raise IntegrityError
                | Some lender_ =>
                    transfer_result <-
                      WalletService.transfer_funds borrower_ lender_
                        (payment_amount next_payment.2) LOAN_PAYMENT
                        (Some ("payment_" +:+ pretty next_payment.1)) ;;
                    match transfer_result with
                    | Failure e => ret (Failure e)
                    | Success _ =>
                        next_payment <-
                          PaymentRepository.mark_payment_as_paid now
                            next_payment ;;
                        payment_status_ <-
                          PaymentRepository.get_all_payments_for_loan_status
                            loan ;;
                        (if all_paid payment_status_
                         then LoanRepository.update_loan loan
                                (set_status COMPLETED) ;;; ret tt
                         else ret tt) ;;;
                        ret (Success (next_payment, all_paid payment_status_))
                    end
                end)
        end
  end.

(** [user not in [loan.borrower, loan.lender]] compares with [==], which
    no user satisfies against the lender [None]. *)
Definition get_payment_schedule (loan_id : nat) (user : User)
  : M (list (nat * Payment)) :=
  loan <- LoanRepository.get_loan_by_id loan_id ;;
  match loan with
  | None => ret []
  | Some loan =>
      if negb (user_eqb user (borrower loan.2) || is_lender loan.2 user)
      then ret []
      else PaymentRepository.get_payments_for_loan loan
  end.

Definition get_pending_payments (borrower_ : User)
  : M (list (nat * Payment)) :=
  PaymentRepository.get_pending_payments_by_borrower borrower_.

End PaymentService.

(** ** [apps/loans/serializers.py] and [apps/loans/views.py]: offers *)

(** [CreateOfferSerializer.validate_annual_interest_rate]; the rate in
    hundredths of a percent. *)
Definition validate_annual_interest_rate (value : Z) : result Z :=
  if value <? 0 then Failure "Interest rate cannot be negative"
  else if 5000 <? value then Failure "Interest rate cannot exceed 50%"
  else Success value.

(** An HTTP response: status code and body. *)
Record Response (A : Type) := mkResponse {
  status_code : nat;
  body : result A
}.
Arguments mkResponse {A} status_code body.
Arguments status_code {A} r.
Arguments body {A} r.

Module Views.

(** The view [create_offer], for the authenticated user of the request
    and the rate of its payload. *)
Definition create_offer (user : User) (loan_id : nat) (rate : Z)
  : M (Response (nat * Offer)) :=
  if negb (bool_decide (role user = LENDER))
  then ret (mkResponse 403 (Failure "Only lenders can make offers"))
  else
    match validate_annual_interest_rate rate with
    | Failure e => ret (mkResponse 400 (Failure e))
    | Success rate =>
        result_ <- OfferService.create_offer loan_id user rate ;;
        match result_ with
        | Success offer => ret (mkResponse 201 (Success offer))
        | Failure e => ret (mkResponse 400 (Failure e))
        end
    end.

End Views.

(** ** [apps/loans/serializers.py] and [apps/loans/views.py]: loan requests *)

Module CreateLoanSerializer.

(** The amount in cents. *)
Definition validate_amount (value : Z) : result Z :=
  if value <=? 0 then Failure "Loan amount must be greater than 0"
  else if 100000000 <? value then Failure "Loan amount cannot exceed $1,000,000"
  else Success value.

Definition validate_term_months (value : Z) : result Z :=
  if value <? 1 then Failure "Term must be at least 1 month"
  else if 360 <? value then Failure "Term cannot exceed 360 months"
  else Success value.

(** The rate in hundredths of a percent. *)
Definition validate_annual_interest_rate (value : Z) : result Z :=
  if value <? 0 then Failure "Interest rate cannot be negative"
  else if 5000 <? value then Failure "Interest rate cannot exceed 50%"
  else Success value.

Definition field_errors (field : string) (r : result Z)
  : list (string * string) :=
  match r with
  | Failure e => [(field, e)]
  | Success _ => []
  end.

(** [serializer.errors]: the message of every field that fails, in the
    order of the fields. *)
Definition errors (amount term_months annual_interest_rate : Z)
  : list (string * string) :=
  field_errors "amount" (validate_amount amount)
  ++ field_errors "term_months" (validate_term_months term_months)
  ++ field_errors "annual_interest_rate"
       (validate_annual_interest_rate annual_interest_rate).

End CreateLoanSerializer.

(** The responses of the view [create_loan]: 201 with the loan, or 400
    with the errors of the serializer. *)
Inductive CreateLoanResponse :=
  | Created (loan : nat * Loan)
  | BadRequest (errors : list (string * string)).

Module LoanViews.

(** The view [create_loan], for the authenticated user of the request and
    the three numbers of its payload. *)
Definition create_loan (user : User)
    (amount term_months annual_interest_rate : Z)
  : M (role_checked CreateLoanResponse) :=
  if negb (bool_decide (role user = BORROWER))
  then ret RolePermissionError
  else
    match CreateLoanSerializer.errors amount term_months
            annual_interest_rate with
    | [] =>
        created <-
          LoanService.create_loan user amount term_months
            annual_interest_rate ;;
        match created with
        | RolePermitted loan => ret (RolePermitted (Created loan))
        | RolePermissionError => ret RolePermissionError
        end
    | errors => ret (RolePermitted (BadRequest errors))
    end.

End LoanViews.

(** ** [apps/wallets/serializers.py] and [apps/wallets/views.py] *)

(** The amount fields are [serializers.DecimalField] of Django REST
    framework. The field parses the value of the payload into a [Decimal]
    and hands it to [validate_precision] and [quantize]; the value is given
    here as that [Decimal], with the digits and the exponent it was written
    with. *)
Module DecimalField.

(** [validate_precision]: the digits in total, before and after the decimal
    point, read off the digit tuple and the exponent of the value. *)
Definition validate_precision (max_digits decimal_places : Z) (value : Dec.t)
  : result Dec.t :=
  let digittuple := Dec.digits (Dec.coeff value) in
  let exponent := Dec.expo value in
  let '(total_digits, whole_digits, places) :=
    if 0 <=? exponent
    then (digittuple + exponent, digittuple + exponent, 0)
    else if Z.abs exponent <? digittuple
    then (digittuple, digittuple - Z.abs exponent, Z.abs exponent)
    else (Z.abs exponent, 0, Z.abs exponent) in
  if max_digits <? total_digits
  then Failure ("Ensure that there are no more than " +:+ pretty max_digits
                +:+ " digits in total.")
  else if decimal_places <? places
  then Failure ("Ensure that there are no more than "
                +:+ pretty decimal_places +:+ " decimal places.")
  else if max_digits - decimal_places <? whole_digits
  then Failure ("Ensure that there are no more than "
                +:+ pretty (max_digits - decimal_places)
                +:+ " digits before the decimal point.")
  else Success value.

(** [quantize]: the value brought to [decimal_places] places in a context
    of [max_digits] digits; [None] stands for [InvalidOperation]. *)
Definition quantize (max_digits decimal_places : Z) (value : Dec.t)
  : option Dec.t :=
  let e := - decimal_places in
  if Dec.coeff value =? 0 then Some (Dec.mk 0 e)
  else if max_digits <? Dec.digits (Dec.coeff value) + Dec.expo value - e
  then None
  else
    let c := Dec.rescale value e in
    if max_digits <? Dec.digits c then None else Some (Dec.mk c e).

(** [to_internal_value], from the parsed value on. *)
Definition to_internal_value (max_digits decimal_places : Z) (value : Dec.t)
  : outcome (result Dec.t) :=
  match validate_precision max_digits decimal_places value with
  | Failure e => Returned (Failure e)
  | Success value =>
      match quantize max_digits decimal_places value with
      | Some value => Returned (Success value)
      | None => Raised DecimalException
      end
  end.

End DecimalField.

(** [DepositSerializer]; [WithdrawalSerializer] has the same field and the
    same method. *)
Module DepositSerializer.

(** The amount in cents. *)
Definition validate_amount (value : Z) : result Z :=
  if value <=? 0 then Failure "Amount must be greater than 0"
  else Success value.

(** The field [amount]:
    [DecimalField(max_digits=12, decimal_places=2, min_value=Decimal('0.01'))]
    and then [validate_amount]; a valid amount is given in cents. *)
Definition amount (data : Dec.t) : outcome (result Z) :=
  match DecimalField.to_internal_value 12 2 data with
  | Raised e => Raised e
  | Returned (Failure e) => Returned (Failure e)
  | Returned (Success value) =>
      match Dec.compare value (Dec.of_cents 1) with
      | Lt =>
          Returned
            (Failure "Ensure this value is greater than or equal to 0.01.")
      | _ => Returned (validate_amount (Dec.coeff value))
      end
  end.

End DepositSerializer.

Module WalletViews.

Definition get_wallet (user : User) : M (Response Wallet) :=
  wallet <- WalletService.get_or_create_wallet user ;;
  ret (mkResponse 200 (Success wallet)).

(** The views [deposit] and [withdraw], for the authenticated user of the
    request and a payload that carries the amount and no description. *)
Definition deposit (user : User) (amount : Dec.t) : M (Response Wallet) :=
  match DepositSerializer.amount amount with
  | Raised e => raise e
  | Returned (Failure e) => ret (mkResponse 400 (Failure e))
  | Returned (Success amount) =>
      result_ <- WalletService.deposit_funds user amount None ;;
      match result_ with
      | Success _ =>
          wallet <- WalletService.get_or_create_wallet user ;;
          ret (mkResponse 200 (Success wallet))
      | Failure e => ret (mkResponse 400 (Failure e))
      end
  end.

Definition withdraw (user : User) (amount : Dec.t) : M (Response Wallet) :=
  match DepositSerializer.amount amount with
  | Raised e => raise e
  | Returned (Failure e) => ret (mkResponse 400 (Failure e))
  | Returned (Success amount) =>
      result_ <- WalletService.withdraw_funds user amount None ;;
      match result_ with
      | Success _ =>
          wallet <- WalletService.get_or_create_wallet user ;;
          ret (mkResponse 200 (Success wallet))
      | Failure e => ret (mkResponse 400 (Failure e))
      end
  end.

Definition balance (user : User) : M (Response Z) :=
  balance_ <- WalletService.get_wallet_balance user ;;
  ret (mkResponse 200 (Success balance_)).

End WalletViews.

(** ** [apps/loans/tasks.py]: the overdue sweep *)

Record OverdueSummary := mkOverdueSummary {
  overdue_payments_found : nat;
  payments_marked_overdue : nat;
  affected_loans : option nat;
  affected_borrowers : option nat
}.

Definition set_payment_status (s : PaymentStatus) (p : Payment) : Payment :=
  mkPayment (payment_loan p) (payment_number p) (due_date p) (payment_amount p)
    s (paid_at p).

(** [status='PENDING', due_date__lt=today]. *)
Definition is_past_due (today : date) (p : Payment) : bool :=
  bool_decide (payment_status p = PENDING) && date_ltb (due_date p) today.

Module Tasks.

(** [payment.save(update_fields=['status'])]: only the status column of
    the row is written. *)
Definition save_status (pk : nat) (s : PaymentStatus) : M unit :=
  update (set_payments (fun m => alter (set_payment_status s) pk m)).

(** The loop over the selected payments; the accumulator holds the two
    sets and the counter of the task. *)
Fixpoint mark_overdue (rows : list (nat * Payment))
    (acc : gset nat * gset nat * nat) : M (gset nat * gset nat * nat) :=
  match rows with
  | [] => ret acc
  | payment :: rest =>
      save_status payment.1 OVERDUE ;;;
      borrower_ <-
        query (fun db => borrower <$> loans db !! payment_loan payment.2) ;;
      let '(affected_loans_, affected_borrowers_, payments_updated) := acc in
      mark_overdue rest
        ({[payment_loan payment.2]} ∪ affected_loans_,
         match borrower_ with
         | Some b => {[user_pk b]} ∪ affected_borrowers_
         | None => affected_borrowers_
         end,
         S payments_updated)
  end.

Definition check_overdue_payments (today : date) : M OverdueSummary :=
  overdue_payments <-
    query (fun db => rows_where (is_past_due today) (payments db)) ;;
  let total_overdue := length overdue_payments in
  if (total_overdue =? 0)%nat
  then ret (mkOverdueSummary 0 0 None None)
  else
    acc <- mark_overdue overdue_payments (∅, ∅, 0%nat) ;;
    let '(affected_loans_, affected_borrowers_, payments_updated) := acc in
    ret (mkOverdueSummary total_overdue payments_updated
           (Some (size affected_loans_)) (Some (size affected_borrowers_))).

End Tasks.

(** ** [apps/loans/tasks.py]: the status report *)

(** The counts of [loan_status_summary_report]. Its two percentages are
    floating-point numbers and are not part of the record. *)
Record StatusReport := mkStatusReport {
  loan_status_counts : list (LoanStatus * nat);
  payment_status_counts : list (PaymentStatus * nat);
  total_loans : nat;
  total_payments : nat
}.

Definition loan_status_summary_report : M StatusReport :=
  query (fun db =>
    let loan_counts :=
      (fun s =>
         (s, length (rows_where (fun l => bool_decide (status l = s))
                       (loans db))))
      <$> [REQUESTED; PENDING_FUNDING; FUNDED; COMPLETED; CANCELLED] in
    let payment_counts :=
      (fun s =>
         (s, length (rows_where (fun p => bool_decide (payment_status p = s))
                       (payments db))))
      <$> [PENDING; PAID; OVERDUE] in
    mkStatusReport loan_counts payment_counts
      (sum_list loan_counts.*2) (sum_list payment_counts.*2)).

(** ** Sequences of core operations *)

Inductive Op :=
  | OpGetOrCreateWallet (user : User)
  | OpDeposit (user : User) (amount : Z) (description : option string)
  | OpWithdraw (user : User) (amount : Z) (description : option string)
  | OpTransfer (from_user to_user : User) (amount : Z)
      (transaction_type : TransactionType) (reference_id : option string)
  | OpDeductFee (user : User) (amount : Z) (reference_id : option string)
  | OpCreateOffer (loan_id : nat) (lender : User) (rate : Z)
  | OpAcceptOffer (loan_id offer_id : nat) (borrower : User)
  | OpFundLoan (now : datetime) (platform_fee : Z) (loan_id : nat) (lender : User)
  | OpMakePayment (now : datetime) (loan_id : nat) (borrower : User)
  | OpSweep (today : date).

(** The database an operation leaves behind, whatever it returned. *)
Definition run_op (op : Op) (db : Db) : Db :=
  match op with
  | OpGetOrCreateWallet u => (WalletService.get_or_create_wallet u db).1
  | OpDeposit u a d => (WalletService.deposit_funds u a d db).1
  | OpWithdraw u a d => (WalletService.withdraw_funds u a d db).1
  | OpTransfer f t a k r => (WalletService.transfer_funds f t a k r db).1
  | OpDeductFee u a r => (WalletService.deduct_platform_fee u a r db).1
  | OpCreateOffer l u r => (OfferService.create_offer l u r db).1
  | OpAcceptOffer l o u => (OfferService.accept_offer l o u db).1
  | OpFundLoan now fee l u => (LoanFundingService.fund_loan now fee l u db).1
  | OpMakePayment now l u => (PaymentService.make_payment now l u db).1
  | OpSweep today => (Tasks.check_overdue_payments today db).1
  end.

Definition run_ops (ops : list Op) (db : Db) : Db :=
  foldl (fun db op => run_op op db) db ops.

(** ** Two calls of [accept_offer] running at the same time

    A call first makes its reads and checks, which the source places before
    its atomic block, and then makes its writes. The calls interleave at
    this boundary. *)

Inductive Thread :=
  | Called (loan_id offer_id : nat) (borrower_ : User)
  | Checked (loan : nat * Loan) (offer : nat * Offer)
  | Finished (r : result (nat * Loan)).

Definition thread_step (t : Thread) : M Thread :=
  match t with
  | Called loan_id offer_id borrower_ =>
      checked <- OfferService.accept_offer_checks loan_id offer_id borrower_ ;;
      match checked with
      | Failure e => ret (Finished (Failure e))
      | Success (loan, offer) => ret (Checked loan offer)
      end
  | Checked loan offer =>
      r <- OfferService.accept_offer_writes loan offer ;; ret (Finished r)
  | Finished r => ret (Finished r)
  end.

Inductive Turn := FirstCall | SecondCall.

Fixpoint run_schedule (schedule : list Turn) (threads : Thread * Thread)
  : M (Thread * Thread) :=
  match schedule with
  | [] => ret threads
  | FirstCall :: rest =>
      t <- thread_step threads.1 ;; run_schedule rest (t, threads.2)
  | SecondCall :: rest =>
      t <- thread_step threads.2 ;; run_schedule rest (threads.1, t)
  end.

Definition succeeded (t : Thread) : bool :=
  match t with Finished (Success _) => true | _ => false end.

(** ** Balances, ledger sums and the amortization formula of the specification *)

(** The balance a user reads, [WalletService.get_wallet_balance]: zero
    without a wallet. *)
Definition balance_of (db : Db) (u : nat) : Z := default 0 (wallets db !! u).

Definition balances_nonneg (db : Db) : Prop :=
  forall u b, wallets db !! u = Some b -> 0 <= b.

(** Sum of the signed amounts of the ledger entries that carry a reference
    and satisfy [f]. *)
Definition ledger_sum (f : Transaction -> bool) (ref : string)
    (l : list Transaction) : Z :=
  foldr Z.add 0
    (tx_amount <$>
     filter (fun t => reference_id t = Some ref /\ f t = true) l).

Definition any_entry (t : Transaction) : bool := true.

Definition is_fee_entry (t : Transaction) : bool :=
  bool_decide (transaction_type t = PLATFORM_FEE).

Definition not_fee_entry (t : Transaction) : bool := negb (is_fee_entry t).

(** The amortization formula as the specification words it, on exact
    rationals: the amount in cents, the rate in hundredths of a percent, the
    result in cents rounded half up. *)
Definition spec_monthly_rate (rate : Z) : Q := (rate # 100) / 100 / 12.

Definition spec_unrounded_cents (amount rate term : Z) : Q :=
  let r := spec_monthly_rate rate in
  let g := Qpower (1 + r) term in
  inject_Z amount * r * g / (g - 1).

Definition Q_round_half_up (q : Q) : Z := Qfloor (q + (1 # 2)).

Definition spec_monthly_payment_cents (amount rate term : Z) : Z :=
  Q_round_half_up (spec_unrounded_cents amount rate term).

(** A number of cents [c] is the value [x] (in currency units) rounded to
    two places, half to even. *)
Definition is_half_even_cents (x : Q) (c : Z) : Prop :=
  (Qabs (x * 100 - inject_Z c) <= 1 # 2)%Q /\
  (Qabs (x * 100 - inject_Z c) == 1 # 2 -> Z.even c = true)%Q.

Ltac munfold :=
  unfold bind, ret, raise, query, update, atomic in *; simpl in *.

(** ** Relations and predicates the properties are stated with *)

(** [steps R m]: running [m] takes a database to one related by [R],
    whatever [m] returns or raises. *)
Definition steps (R : relation Db) {A} (m : M A) : Prop :=
  forall db, R db (m db).1.

(** The ledger grew by entries whose signed amounts, fee entries apart,
    cancel for every reference. *)
Definition ledger_extends_balanced (db db' : Db) : Prop :=
  exists extra,
    transactions db' = transactions db ++ extra
    /\ forall ref, ledger_sum not_fee_entry ref extra = 0.

(** The references [f'loan_{loan.id}'] and [f'loan_{loan.id}_fee'] of a
    funding. *)
Definition funding_reference (loan_id : nat) : option string :=
  Some ("loan_" +:+ pretty loan_id).

Definition fee_reference (loan_id : nat) : option string :=
  Some ("loan_" +:+ pretty loan_id +:+ "_fee").

(** The lender already has an offer on the loan. *)
Definition has_offer (db : Db) (loan_id : nat) (lender_ : User) : Prop :=
  exists pk o, offers db !! pk = Some o
    /\ offer_loan o = loan_id /\ user_pk (offer_lender o) = user_pk lender_.

(** What the sweep does to one payment row. *)
Definition sweep_row (today : date) (p : Payment) : Payment :=
  if is_past_due today p then set_payment_status OVERDUE p else p.

(** The payment table after the loop of the sweep over [rows]. *)
Definition alter_rows (rows : list (nat * Payment)) (m : gmap nat Payment)
  : gmap nat Payment :=
  foldl (fun m row => alter (set_payment_status OVERDUE) row.1 m) m rows.

(** The filter of [get_next_pending_payment]. *)
Definition pending_of (loan_id : nat) (p : Payment) : bool :=
  bool_decide (payment_loan p = loan_id)
  && bool_decide (payment_status p = PENDING).

(** The answer of [get_all_payments_for_loan_status] on a payment table. *)
Definition all_paid_in (loan_id : nat) (m : gmap nat Payment) : bool :=
  bool_decide
    (length (rows_where (fun p =>
         bool_decide (payment_loan p = loan_id)
         && bool_decide (payment_status p = PAID)) m)
     = length (rows_where (fun p => bool_decide (payment_loan p = loan_id)) m))
  && bool_decide
       (0 < length (rows_where
                      (fun p => bool_decide (payment_loan p = loan_id)) m))%nat.

Definition has_overdue (db : Db) (loan_id : nat) : Prop :=
  exists pk p, payments db !! pk = Some p
    /\ payment_loan p = loan_id /\ payment_status p = OVERDUE.

Definition not_completed (db : Db) (loan_id : nat) : Prop :=
  forall loan, loans db !! loan_id = Some loan -> status loan <> COMPLETED.

(** OVERDUE rows stay as they are, and a loan with an OVERDUE payment that
    is not COMPLETED does not become COMPLETED. *)
Definition overdue_kept (db db' : Db) : Prop :=
  (forall pk p, payments db !! pk = Some p -> payment_status p = OVERDUE ->
     payments db' !! pk = Some p)
  /\ (forall l, has_overdue db l -> not_completed db l -> not_completed db' l).

(** ** The effects of an operation *)

(** The calls of [WalletService] that write. *)
Inductive WalletCall :=
  | CallGetOrCreateWallet (user : User)
  | CallDeposit (user : User) (amount : Z) (description : option string)
  | CallWithdraw (user : User) (amount : Z) (description : option string)
  | CallTransfer (from_user to_user : User) (amount : Z)
      (transaction_type : TransactionType) (reference_id : option string)
  | CallDeductFee (user : User) (amount : Z) (reference_id : option string).

Definition run_wallet_call (c : WalletCall) (db : Db) : Db :=
  match c with
  | CallGetOrCreateWallet u => (WalletService.get_or_create_wallet u db).1
  | CallDeposit u a d => (WalletService.deposit_funds u a d db).1
  | CallWithdraw u a d => (WalletService.withdraw_funds u a d db).1
  | CallTransfer f t a k r => (WalletService.transfer_funds f t a k r db).1
  | CallDeductFee u a r => (WalletService.deduct_platform_fee u a r db).1
  end.

(** Every way an operation can leave the database: as it was, after wallet
    calls, with a new offer, with an accepted offer, with a funded loan and
    its schedule, with a paid installment, or swept. *)
Inductive effect (db : Db) : Db -> Prop :=
  | effect_none : effect db db
  | effect_wallet c : effect db (run_wallet_call c db)
  | effect_offer loan_id loan lender_ rate :
      loans db !! loan_id = Some loan ->
      status loan = REQUESTED ->
      role lender_ = LENDER ->
      user_pk (borrower loan) <> user_pk lender_ ->
      ~ has_offer db loan_id lender_ ->
      effect db
        (set_offers
           (fun m => <[next_pk m := mkOffer loan_id lender_ rate false]> m) db)
  | effect_accept loan_id loan o offer :
      loans db !! loan_id = Some loan ->
      status loan = REQUESTED ->
      offers db !! o = Some offer ->
      offer_loan offer = loan_id ->
      accepted offer = false ->
      effect db
        (mkDb (wallets db) (transactions db)
           (<[loan_id := set_accepted_terms offer loan]> (loans db))
           (<[o := mkOffer (offer_loan offer) (offer_lender offer)
                     (offer_rate offer) true]> (offers db))
           (payments db))
  | effect_fund now fee loan_id loan lender_ monthly db1 db2 r1 r2 :
      loans db !! loan_id = Some loan ->
      is_lender loan lender_ = true ->
      status loan = PENDING_FUNDING ->
      WalletService.transfer_funds lender_ (borrower loan) (amount loan)
        LOAN_FUNDING (funding_reference loan_id) db
      = (db1, Returned (Success r1)) ->
      WalletService.deduct_platform_fee lender_ fee (fee_reference loan_id) db1
      = (db2, Returned (Success r2)) ->
      monthly_payment (set_funded now loan) = Some monthly ->
      existsb (payment_conflict (payments db))
        (schedule_rows (dt_date now) loan_id (set_funded now loan) monthly)
      = false ->
      effect db
        (mkDb (wallets db2) (transactions db2)
           (<[loan_id := set_funded now loan]> (loans db)) (offers db)
           (insert_rows
              (schedule_rows (dt_date now) loan_id (set_funded now loan)
                 monthly)
              (payments db)))
  | effect_pay now loan_id loan borrower_ lender_ pk p db1 r1 :
      loans db !! loan_id = Some loan ->
      user_pk (borrower loan) = user_pk borrower_ ->
      status loan = FUNDED ->
      lender loan = Some lender_ ->
      payments db !! pk = Some p ->
      payment_loan p = loan_id ->
      payment_status p = PENDING ->
      WalletService.transfer_funds borrower_ lender_ (payment_amount p)
        LOAN_PAYMENT (Some ("payment_" +:+ pretty pk)) db
      = (db1, Returned (Success r1)) ->
      effect db
        (mkDb (wallets db1) (transactions db1)
           (if all_paid_in loan_id (<[pk := mark_as_paid now p]> (payments db))
            then <[loan_id := set_status COMPLETED loan]> (loans db)
            else loans db)
           (offers db) (<[pk := mark_as_paid now p]> (payments db)))
  | effect_sweep today :
      effect db (set_payments (fun m => sweep_row today <$> m) db).
(** Nothing is deleted: every row stays under its key and the ledger only
    grows at its end. *)
Definition rows_kept (db db' : Db) : Prop :=
  (forall u, is_Some (wallets db !! u) -> is_Some (wallets db' !! u))
  /\ transactions db `prefix_of` transactions db'
  /\ (forall k, is_Some (loans db !! k) -> is_Some (loans db' !! k))
  /\ (forall k, is_Some (offers db !! k) -> is_Some (offers db' !! k))
  /\ (forall k, is_Some (payments db !! k) -> is_Some (payments db' !! k)).

(** The life cycle of a loan: the statuses a loan of status [s] can have
    later. *)
Definition status_follows (s s' : LoanStatus) : bool :=
  match s, s' with
  | REQUESTED, (REQUESTED | PENDING_FUNDING | FUNDED | COMPLETED) => true
  | PENDING_FUNDING, (PENDING_FUNDING | FUNDED | COMPLETED) => true
  | FUNDED, (FUNDED | COMPLETED) => true
  | COMPLETED, COMPLETED => true
  | CANCELLED, CANCELLED => true
  | _, _ => false
  end.

(** What a loan row [l] can have become: the request is kept, the status
    has moved forward, and the terms stand once an offer is accepted. *)
Definition loan_progress (l l' : Loan) : Prop :=
  borrower l' = borrower l
  /\ amount l' = amount l
  /\ term_months l' = term_months l
  /\ status_follows (status l) (status l') = true
  /\ (status l <> REQUESTED ->
        lender l' = lender l
        /\ annual_interest_rate l' = annual_interest_rate l)
  /\ (status l = FUNDED \/ status l = COMPLETED ->
        funded_at l' = funded_at l).

(** What a payment row [p] can have become: the installment is kept, and
    the whole row once it is PAID or OVERDUE. *)
Definition payment_progress (p p' : Payment) : Prop :=
  payment_loan p' = payment_loan p
  /\ payment_number p' = payment_number p
  /\ due_date p' = due_date p
  /\ payment_amount p' = payment_amount p
  /\ (payment_status p <> PENDING -> p' = p).

Definition loans_progress (db db' : Db) : Prop :=
  forall k l, loans db !! k = Some l ->
    exists l', loans db' !! k = Some l' /\ loan_progress l l'.

Definition payments_progress (db db' : Db) : Prop :=
  forall k p, payments db !! k = Some p ->
    exists p', payments db' !! k = Some p' /\ payment_progress p p'.

(** The offers of a database are consistent: a lender has one offer on a
    loan at most, a loan has one accepted offer at most, and a loan with an
    accepted offer is no longer REQUESTED and carries the lender and the
    rate of that offer. *)
Definition offers_consistent (db : Db) : Prop :=
  (forall k1 k2 o1 o2,
     offers db !! k1 = Some o1 -> offers db !! k2 = Some o2 ->
     offer_loan o1 = offer_loan o2 ->
     user_pk (offer_lender o1) = user_pk (offer_lender o2) -> k1 = k2)
  /\ (forall k1 k2 o1 o2,
        offers db !! k1 = Some o1 -> offers db !! k2 = Some o2 ->
        offer_loan o1 = offer_loan o2 ->
        accepted o1 = true -> accepted o2 = true -> k1 = k2)
  /\ (forall k o l,
        offers db !! k = Some o -> accepted o = true ->
        loans db !! offer_loan o = Some l ->
        status l <> REQUESTED
        /\ lender l = Some (offer_lender o)
        /\ annual_interest_rate l = offer_rate o).

(** No user lends to themselves: no loan has its borrower as lender, and no
    offer comes from the borrower of its loan. *)
Definition no_self_lending (db : Db) : Prop :=
  (forall k l v, loans db !! k = Some l -> lender l = Some v ->
     user_pk v <> user_pk (borrower l))
  /\ (forall k o l, offers db !! k = Some o ->
        loans db !! offer_loan o = Some l ->
        user_pk (offer_lender o) <> user_pk (borrower l)).

(** The schedules of a database are consistent: payments belong to loans
    that are FUNDED or COMPLETED, such loans have a lender, and a COMPLETED
    loan has payments, all PAID. *)
Definition schedules_consistent (db : Db) : Prop :=
  (forall k p, payments db !! k = Some p ->
     exists l, loans db !! payment_loan p = Some l
       /\ (status l = FUNDED \/ status l = COMPLETED))
  /\ (forall k l, loans db !! k = Some l ->
        status l = FUNDED \/ status l = COMPLETED -> is_Some (lender l))
  /\ (forall k l, loans db !! k = Some l -> status l = COMPLETED ->
        all_paid_in k (payments db) = true).

(** What an entry of the ledger tells about the balance of its wallet: a
    withdrawal is logged with the amount taken, every other entry with the
    signed amount. *)
Definition balance_change (t : Transaction) : Z :=
  match transaction_type t with
  | WITHDRAWAL => - tx_amount t
  | _ => tx_amount t
  end.

Definition net_change (u : nat) (l : list Transaction) : Z :=
  foldr Z.add 0 (balance_change <$> filter (fun t => tx_wallet t = u) l).

(** The ledger accounts for the balances: it grew by entries whose net
    change is the change of every balance. *)
Definition reconciled (db db' : Db) : Prop :=
  exists extra,
    transactions db' = transactions db ++ extra
    /\ forall u, balance_of db' u = balance_of db u + net_change u extra.

(** A direct transfer as the services make them: between two users, and
    not typed as a withdrawal. *)
Definition plain_op (op : Op) : Prop :=
  match op with
  | OpTransfer f t a k r => user_pk f <> user_pk t /\ k <> WITHDRAWAL
  | _ => True
  end.

(** A date of the calendar. *)
Definition valid_date (d : date) : Prop :=
  1 <= month d <= 12 /\ 1 <= day d <= days_in_month (year d) (month d).

(** Every offer and every payment belongs to a loan of the database. *)
Definition foreign_keys_valid (db : Db) : Prop :=
  (forall k o, offers db !! k = Some o -> is_Some (loans db !! offer_loan o))
  /\ (forall k p, payments db !! k = Some p ->
        is_Some (loans db !! payment_loan p)).

(** The sum of the PENDING installments of a loan. *)
Definition pending_total (loan_id : nat) (db : Db) : Z :=
  foldr Z.add 0
    ((fun r : nat * Payment => payment_amount r.2)
     <$> rows_where (pending_of loan_id) (payments db)).

(** ** Sample users, loans and databases *)

Definition alice : User := mkUser 1 "alice" LENDER.

Definition bob : User := mkUser 2 "bob" BORROWER.

Definition carol : User := mkUser 3 "carol" LENDER.

Definition dave : User := mkUser 4 "dave" LENDER.

Definition noon : datetime := mkDatetime (mkDate 2024 1 15) 43200.

Definition db_empty : Db := mkDb ∅ [] ∅ ∅ ∅.

(** Alice holds 100.00. *)
Definition db_alice_100 : Db := mkDb {[1%nat := 10000]} [] ∅ ∅ ∅.

(** Alice holds 100.00 and bob an empty wallet. *)
Definition db_alice_bob : Db :=
  mkDb (<[1%nat := 10000]> (<[2%nat := 0]> ∅)) [] ∅ ∅ ∅.

(** A loan row of bob without a lender. *)
Definition loan_of (amount_ term rate : Z) : Loan :=
  mkLoan bob None amount_ term rate REQUESTED None.

(** A loan of 1000.00 over 6 months at 12%, REQUESTED, without offers. *)
Definition db_requested_loan : Db :=
  mkDb ∅ [] {[1%nat := mkLoan bob None 100000 6 1200 REQUESTED None]} ∅ ∅.

(** The same loan with an offer of alice at 10% and an offer of dave at
    9%. *)
Definition db_two_offers : Db :=
  mkDb ∅ []
    (<[1%nat := mkLoan bob None 100000 6 1200 REQUESTED None]> ∅)
    (<[1%nat := mkOffer 1 alice 1000 false]>
       (<[2%nat := mkOffer 1 dave 900 false]> ∅))
    ∅.

(** A loan of 1000.00 over 6 months at 10%, accepted and waiting for the
    funds of its lender, who holds 10000.00. *)
Definition db_pending_loan : Db :=
  mkDb {[1%nat := 1000000]} []
    {[1%nat := mkLoan bob (Some alice) 100000 6 1000 PENDING_FUNDING None]}
    ∅ ∅.

(** A loan row whose lender is its borrower and whose amount is -10.00,
    waiting for funding; the user holds an empty wallet. *)
Definition db_self_loan : Db :=
  mkDb (<[3%nat := 0]> ∅) []
    (<[1%nat := mkLoan carol (Some carol) (-1000) 1 1200 PENDING_FUNDING None]> ∅)
    ∅ ∅.

(** A loan of 1000.00 over 2 months at 12%, funded, and its installments of
    507.51. *)
Definition funded_loan : Loan :=
  mkLoan bob (Some alice) 100000 2 1200 FUNDED (Some noon).

Definition installment (number : Z) (s : PaymentStatus) : Payment :=
  mkPayment 1 number (add_months (mkDate 2024 1 15) number) 50751 s None.

(** The funded loan with both installments PENDING; the borrower holds
    2000.00. *)
Definition db_funded_loan : Db :=
  mkDb (<[2%nat := 200000]> ∅) [] (<[1%nat := funded_loan]> ∅) ∅
    (<[1%nat := installment 1 PENDING]> (<[2%nat := installment 2 PENDING]> ∅)).

(** The funded loan with its first installment OVERDUE. *)
Definition db_overdue_loan : Db :=
  mkDb (<[2%nat := 200000]> ∅) [] (<[1%nat := funded_loan]> ∅) ∅
    (<[1%nat := installment 1 OVERDUE]> (<[2%nat := installment 2 PENDING]> ∅)).

(** * Properties *)

(** ** The wallet ledger, operation by operation *)

Section WalletEquations.

Variables (db : Db) (a : Z).

Lemma get_or_create_wallet_eq u :
  WalletService.get_or_create_wallet u db =
  (match wallets db !! user_pk u with
   | Some _ => db
   | None => set_wallets (fun w => <[user_pk u := 0]> w) db
   end,
   Returned (mkWallet (user_pk u) (balance_of db (user_pk u)))).
Proof.
  unfold WalletService.get_or_create_wallet,
    WalletRepository.get_or_create_wallet, balance_of.
  by destruct (wallets db !! user_pk u).
Qed.

Lemma deposit_funds_eq u d :
  WalletService.deposit_funds u a d db =
  let t := mkTransaction (user_pk u) DEPOSIT a
             (description_or d ("Deposit of $" +:+ format_money a)) None in
  (mkDb (<[user_pk u := balance_of db (user_pk u) + a]> (wallets db))
     (transactions db ++ [t]) (loans db) (offers db) (payments db),
   Returned (Success (mkBalanceReceipt (balance_of db (user_pk u) + a) t))).
Proof.
  unfold WalletService.deposit_funds, WalletRepository.get_or_create_wallet,
    WalletRepository.update_balance, WalletRepository.save,
    TransactionRepository.create_transaction, balance_of.
  munfold.
  destruct (wallets db !! user_pk u) as [b|]; simpl;
    unfold set_wallets, set_transactions; simpl; [done|].
  by rewrite insert_insert_eq.
Qed.

Lemma withdraw_funds_eq u d :
  WalletService.withdraw_funds u a d db =
  match wallets db !! user_pk u with
  | None => (db, Returned (Failure "Wallet not found"))
  | Some b =>
      if bool_decide (b >= a) then
        let t := mkTransaction (user_pk u) WITHDRAWAL a
                   (description_or d ("Withdrawal of $" +:+ format_money a))
                   None in
        (mkDb (<[user_pk u := b - a]> (wallets db))
           (transactions db ++ [t]) (loans db) (offers db) (payments db),
         Returned (Success (mkBalanceReceipt (b - a) t)))
      else (db, Returned (Failure "Insufficient funds"))
  end.
Proof.
  unfold WalletService.withdraw_funds, WalletRepository.get_wallet_by_user,
    WalletRepository.update_balance, WalletRepository.save,
    WalletRepository.has_sufficient_balance,
    TransactionRepository.create_transaction.
  munfold.
  destruct (wallets db !! user_pk u) as [b|]; simpl; [|done].
  by destruct (bool_decide (b >= a)).
Qed.

Lemma deduct_platform_fee_eq u r :
  WalletService.deduct_platform_fee u a r db =
  match wallets db !! user_pk u with
  | None => (db, Returned (Failure "Wallet not found"))
  | Some b =>
      if bool_decide (b >= a) then
        let t := mkTransaction (user_pk u) PLATFORM_FEE (- a)
                   ("Platform fee of $" +:+ format_money a) r in
        (mkDb (<[user_pk u := b - a]> (wallets db))
           (transactions db ++ [t]) (loans db) (offers db) (payments db),
         Returned (Success (mkBalanceReceipt (b - a) t)))
      else (db, Returned (Failure "Insufficient funds for platform fee"))
  end.
Proof.
  unfold WalletService.deduct_platform_fee,
    WalletRepository.get_wallet_by_user, WalletRepository.update_balance,
    WalletRepository.save, WalletRepository.has_sufficient_balance,
    TransactionRepository.create_transaction.
  munfold.
  destruct (wallets db !! user_pk u) as [b|]; simpl; [|done].
  by destruct (bool_decide (b >= a)).
Qed.

Lemma transfer_funds_eq from_user to_user k r :
  WalletService.transfer_funds from_user to_user a k r db =
  let db1 := (WalletService.get_or_create_wallet to_user db).1 in
  match wallets db !! user_pk from_user with
  | None => (db1, Returned (Failure "Sender wallet not found"))
  | Some b =>
      if bool_decide (b >= a) then
        let t1 := mkTransaction (user_pk from_user) k (- a)
                    ("Transfer to " +:+ username to_user) r in
        let t2 := mkTransaction (user_pk to_user) k a
                    ("Transfer from " +:+ username from_user) r in
        (mkDb (<[user_pk to_user := balance_of db (user_pk to_user) + a]>
                 (<[user_pk from_user := b - a]> (wallets db)))
           (transactions db ++ [t1; t2]) (loans db) (offers db)
           (payments db),
         Returned (Success (mkTransferReceipt (b - a)
                              (balance_of db (user_pk to_user) + a) t1 t2)))
      else (db1, Returned (Failure "Insufficient funds"))
  end.
Proof.
  unfold WalletService.transfer_funds, WalletService.get_or_create_wallet,
    WalletRepository.get_wallet_by_user,
    WalletRepository.get_or_create_wallet, WalletRepository.update_balance,
    WalletRepository.save, TransactionRepository.create_transaction,
    WalletRepository.has_sufficient_balance, balance_of.
  munfold.
  destruct (wallets db !! user_pk from_user) as [b|] eqn:Hf; simpl;
    destruct (wallets db !! user_pk to_user) as [bt|] eqn:Ht; simpl;
    try done.
  - destruct (bool_decide (b >= a)); simpl; [|done].
    unfold set_wallets, set_transactions; simpl. by rewrite <- app_assoc.
  - destruct (bool_decide (b >= a)); simpl; [|done].
    unfold set_wallets, set_transactions; simpl. rewrite <- app_assoc.
    simpl.
    assert (user_pk from_user <> user_pk to_user) as ne by congruence.
    rewrite (insert_insert_ne _ (user_pk from_user)) by done.
    by rewrite insert_insert_eq.
Qed.

Lemma check_balance_eq u :
  WalletService.check_balance u a db =
  (db, Returned (match wallets db !! user_pk u with
                 | Some b => bool_decide (b >= a)
                 | None => false
                 end)).
Proof.
  unfold WalletService.check_balance, WalletRepository.get_wallet_by_user,
    WalletRepository.has_sufficient_balance.
  munfold. by destruct (wallets db !! user_pk u).
Qed.

End WalletEquations.

(** ** C1: conservation of a transfer *)

(** C1, for a sender and a receiver who are two different users: a
    successful transfer debits the wallet of the sender by the amount,
    credits the wallet of the receiver by the amount (from zero when the
    receiver had no wallet), leaves every other wallet alone, and appends
    exactly two ledger entries that share the reference: minus the amount on
    the wallet of the sender, plus the amount on the wallet of the receiver,
    which sum to zero. *)
Theorem C1_transfer_conserves from_user to_user a k r db db' receipt :
  user_pk from_user <> user_pk to_user ->
  WalletService.transfer_funds from_user to_user a k r db
    = (db', Returned (Success receipt)) ->
  balance_of db' (user_pk from_user) = balance_of db (user_pk from_user) - a
  /\ balance_of db' (user_pk to_user) = balance_of db (user_pk to_user) + a
  /\ (wallets db !! user_pk to_user = None ->
        wallets db' !! user_pk to_user = Some (0 + a))
  /\ (forall u, u <> user_pk from_user -> u <> user_pk to_user ->
        wallets db' !! u = wallets db !! u)
  /\ transactions db' =
       transactions db ++ [from_transaction receipt; to_transaction receipt]
  /\ tx_wallet (from_transaction receipt) = user_pk from_user
  /\ tx_amount (from_transaction receipt) = - a
  /\ tx_wallet (to_transaction receipt) = user_pk to_user
  /\ tx_amount (to_transaction receipt) = a
  /\ reference_id (from_transaction receipt) = r
  /\ reference_id (to_transaction receipt) = r
  /\ tx_amount (from_transaction receipt) + tx_amount (to_transaction receipt)
     = 0.
Proof.
  intros ne. rewrite transfer_funds_eq. simpl.
  destruct (wallets db !! user_pk from_user) as [b|] eqn:Hf; [|done].
  destruct (bool_decide (b >= a)); [|done].
  intros [= <- <-]. unfold balance_of; simpl.
  rewrite lookup_insert_ne by done. rewrite !lookup_insert_eq, Hf. simpl.
  repeat split; try done; try lia.
  - intros ->. done.
  - intros u ? ?. by rewrite !lookup_insert_ne.
Qed.

(** A transfer succeeds exactly when the sender has a wallet that holds the
    amount. *)
Lemma transfer_funds_succeeds from_user to_user a k r db b :
  wallets db !! user_pk from_user = Some b -> b >= a ->
  exists db' receipt,
    WalletService.transfer_funds from_user to_user a k r db
      = (db', Returned (Success receipt)).
Proof.
  intros Hf Hb. rewrite transfer_funds_eq. simpl. rewrite Hf.
  rewrite bool_decide_eq_true_2 by done. eauto.
Qed.

Lemma C1_transfer_conserves_witness :
  user_pk alice <> user_pk bob
  /\ exists db' receipt,
       WalletService.transfer_funds alice bob 3000 LOAN_FUNDING
         (Some "loan_1") db_alice_100 = (db', Returned (Success receipt))
       /\ balance_of db' (user_pk alice)
          = balance_of db_alice_100 (user_pk alice) - 3000
       /\ balance_of db' (user_pk bob)
          = balance_of db_alice_100 (user_pk bob) + 3000.
Proof.
  assert (user_pk alice <> user_pk bob) as ne by (simpl; lia).
  split; [exact ne|].
  destruct (transfer_funds_succeeds alice bob 3000 LOAN_FUNDING (Some "loan_1")
              db_alice_100 10000 eq_refl ltac:(lia)) as [db' [receipt E]].
  exists db', receipt. split; [exact E|].
  destruct (C1_transfer_conserves alice bob 3000 LOAN_FUNDING (Some "loan_1")
              db_alice_100 db' receipt ne E) as [H1 [H2 _]].
  split; [exact H1|exact H2].
Defined.

(** When sender and receiver are the same user the two wallet instances are
    two copies of one row: the credit is computed from the balance read
    before the debit and saved last, so the debit is lost. *)
Lemma transfer_funds_to_self u a k r db b :
  wallets db !! user_pk u = Some b -> b >= a ->
  exists db' receipt,
    WalletService.transfer_funds u u a k r db
      = (db', Returned (Success receipt))
    /\ balance_of db' (user_pk u) = b + a.
Proof.
  intros Hf Hb. rewrite transfer_funds_eq. simpl. rewrite Hf.
  rewrite bool_decide_eq_true_2 by done. eexists _, _. split; [done|].
  unfold balance_of; simpl. by rewrite lookup_insert_eq, Hf.
Qed.

(** C1, at a transfer of 30.00 from a user holding 100.00 to the same user:
    the call succeeds, reports 70.00 and 130.00 as the two balances, and
    leaves 130.00 in the wallet; the sender's balance did not decrease. *)
Theorem C1_transfer_to_self_creates_money :
  let run :=
    WalletService.transfer_funds alice alice 3000 LOAN_PAYMENT
      (Some "payment_1") db_alice_100 in
  (exists receipt,
     run.2 = Returned (Success receipt)
     /\ from_balance receipt = 7000 /\ to_balance receipt = 13000)
  /\ balance_of db_alice_100 1 = 10000
  /\ balance_of run.1 1 = 13000
  /\ balance_of run.1 1 <> balance_of db_alice_100 1 - 3000.
Proof. vm_compute. split; [eexists; done | done]. Qed.

(** ** C4: no wallet goes negative *)

(** C4 as stated fails: the services take the amount as it comes, so a
    deposit of -5.00 into a fresh wallet leaves a balance of -5.00; and a
    withdrawal by a user without a wallet is refused as "Wallet not found",
    not as insufficient funds. *)
Lemma C4_negative_amount_counterexample :
  balances_nonneg db_empty
  /\ ~ balances_nonneg
        (WalletService.deposit_funds alice (-500) None db_empty).1
  /\ balance_of (WalletService.deposit_funds alice (-500) None db_empty).1 1
     = -500
  /\ (WalletService.withdraw_funds alice 5000 None db_empty).2
     = Returned (Failure "Wallet not found").
Proof.
  split; [intros u b; simpl; by rewrite lookup_empty|].
  split; [|by vm_compute].
  intros H. specialize (H 1%nat (-500)).
  assert (-500 >= 0 -> False) as K by lia. apply K, Z.le_ge, H.
  by vm_compute.
Qed.

Lemma nonneg_insert (m : gmap nat Z) k v :
  (forall u b, m !! u = Some b -> 0 <= b) -> 0 <= v ->
  forall u b, <[k := v]> m !! u = Some b -> 0 <= b.
Proof.
  intros Hm Hv u b. destruct (decide (k = u)) as [->|ne].
  - rewrite lookup_insert_eq. by intros [= <-].
  - rewrite lookup_insert_ne by done. apply Hm.
Qed.

Lemma balance_of_nonneg db u : balances_nonneg db -> 0 <= balance_of db u.
Proof.
  intros H. unfold balance_of. destruct (wallets db !! u) eqn:E; simpl; [|done].
  by apply (H u).
Qed.

(** C4, for amounts that are not negative: every operation of the wallet
    ledger keeps all balances non-negative; and a withdrawal, a transfer or a
    fee deduction whose source wallet exists and holds less than the amount
    fails with its insufficient-funds error and changes no balance; without
    a source wallet they fail with their wallet-not-found error and change
    no balance. *)
Theorem C4_balances_stay_nonneg db a :
  balances_nonneg db -> 0 <= a ->
  (forall u, balances_nonneg (WalletService.get_or_create_wallet u db).1)
  /\ (forall u d, balances_nonneg (WalletService.deposit_funds u a d db).1)
  /\ (forall u d, balances_nonneg (WalletService.withdraw_funds u a d db).1)
  /\ (forall f t k r,
        balances_nonneg (WalletService.transfer_funds f t a k r db).1)
  /\ (forall u r,
        balances_nonneg (WalletService.deduct_platform_fee u a r db).1)
  /\ (forall u d b, wallets db !! user_pk u = Some b -> b < a ->
        WalletService.withdraw_funds u a d db
        = (db, Returned (Failure "Insufficient funds")))
  /\ (forall f t k r b, wallets db !! user_pk f = Some b -> b < a ->
        (WalletService.transfer_funds f t a k r db).2
        = Returned (Failure "Insufficient funds")
        /\ forall v, balance_of (WalletService.transfer_funds f t a k r db).1 v
                     = balance_of db v)
  /\ (forall u r b, wallets db !! user_pk u = Some b -> b < a ->
        WalletService.deduct_platform_fee u a r db
        = (db, Returned (Failure "Insufficient funds for platform fee")))
  /\ (forall u d, wallets db !! user_pk u = None ->
        WalletService.withdraw_funds u a d db
        = (db, Returned (Failure "Wallet not found")))
  /\ (forall f t k r, wallets db !! user_pk f = None ->
        (WalletService.transfer_funds f t a k r db).2
        = Returned (Failure "Sender wallet not found")
        /\ forall v, balance_of (WalletService.transfer_funds f t a k r db).1 v
                     = balance_of db v)
  /\ (forall u r, wallets db !! user_pk u = None ->
        WalletService.deduct_platform_fee u a r db
        = (db, Returned (Failure "Wallet not found"))).
Proof.
  intros Hdb Ha.
  assert (forall u, balances_nonneg (WalletService.get_or_create_wallet u db).1)
    as Hcreate.
  { intros u. rewrite get_or_create_wallet_eq. simpl.
    destruct (wallets db !! user_pk u); [done|].
    unfold balances_nonneg; simpl. by apply nonneg_insert. }
  assert (forall t v,
            balance_of (WalletService.get_or_create_wallet t db).1 v
            = balance_of db v) as Hsame.
  { intros t v. rewrite get_or_create_wallet_eq. simpl. unfold balance_of.
    destruct (wallets db !! user_pk t) eqn:Et; [done|]. simpl.
    destruct (decide (user_pk t = v)) as [<-|ne].
    - by rewrite lookup_insert_eq, Et.
    - by rewrite lookup_insert_ne. }
  split; [done|].
  split; [|split; [|split; [|split; [|split; [|split; [|split; [|split;
    [|split]]]]]]]].
  - intros u d. rewrite deposit_funds_eq. unfold balances_nonneg; simpl.
    apply nonneg_insert; [done|]. pose proof (balance_of_nonneg db (user_pk u) Hdb). lia.
  - intros u d. rewrite withdraw_funds_eq.
    destruct (wallets db !! user_pk u) as [b|] eqn:E; [|done].
    case_bool_decide; [|done]. unfold balances_nonneg; simpl.
    apply nonneg_insert; [done|lia].
  - intros f t k r. rewrite transfer_funds_eq. simpl.
    destruct (wallets db !! user_pk f) as [b|] eqn:E; [|apply Hcreate].
    case_bool_decide; [|apply Hcreate]. unfold balances_nonneg; simpl.
    apply nonneg_insert.
    + apply nonneg_insert; [done|lia].
    + pose proof (balance_of_nonneg db (user_pk t) Hdb). lia.
  - intros u r. rewrite deduct_platform_fee_eq.
    destruct (wallets db !! user_pk u) as [b|] eqn:E; [|done].
    case_bool_decide; [|done]. unfold balances_nonneg; simpl.
    apply nonneg_insert; [done|lia].
  - intros u d b E Hb. rewrite withdraw_funds_eq, E.
    rewrite bool_decide_eq_false_2 by lia. done.
  - intros f t k r b E Hb. rewrite transfer_funds_eq. simpl. rewrite E.
    rewrite bool_decide_eq_false_2 by lia. simpl. split; [done|].
    apply Hsame.
  - intros u r b E Hb. rewrite deduct_platform_fee_eq, E.
    rewrite bool_decide_eq_false_2 by lia. done.
  - intros u d E. by rewrite withdraw_funds_eq, E.
  - intros f t k r E. rewrite transfer_funds_eq. simpl. rewrite E. simpl.
    split; [done|]. apply Hsame.
  - intros u r E. by rewrite deduct_platform_fee_eq, E.
Qed.

Lemma C4_balances_stay_nonneg_witness :
  balances_nonneg db_alice_bob /\ 0 <= 20000
  /\ WalletService.withdraw_funds alice 20000 None db_alice_bob
     = (db_alice_bob, Returned (Failure "Insufficient funds")).
Proof.
  assert (balances_nonneg db_alice_bob) as H.
  { unfold balances_nonneg, db_alice_bob; simpl.
    apply nonneg_insert; [|lia]. apply nonneg_insert; [|lia].
    intros u b. by rewrite lookup_empty. }
  split; [exact H|]. split; [lia|].
  apply (C4_balances_stay_nonneg db_alice_bob 20000 H ltac:(lia)) with (b := 10000).
  - reflexivity.
  - lia.
Defined.

(** ** Relations every step of a computation respects *)

Section Steps.

Context (R : relation Db) `{!PreOrder R}.

Lemma steps_ret {A} (a : A) : steps R (ret a).
Proof. intros db. simpl. reflexivity. Qed.

Lemma steps_raise {A} e : steps R (raise (A := A) e).
Proof. intros db. simpl. reflexivity. Qed.

Lemma steps_query {A} (f : Db -> A) : steps R (query f).
Proof. intros db. simpl. reflexivity. Qed.

Lemma steps_update f : (forall db, R db (f db)) -> steps R (update f).
Proof. intros H db. apply H. Qed.

Lemma steps_bind {A B} (m : M A) (k : A -> M B) :
  steps R m -> (forall a, steps R (k a)) -> steps R (bind m k).
Proof.
  intros Hm Hk db. unfold bind. specialize (Hm db).
  destruct (m db) as [db1 [a|e]]; simpl in *; [|done].
  etrans; [exact Hm|]. apply Hk.
Qed.

Lemma steps_atomic {A} (m : M A) : steps R m -> steps R (atomic m).
Proof.
  intros Hm db. unfold atomic. specialize (Hm db).
  destruct (m db) as [db1 [a|e]]; simpl in *; [done|reflexivity].
Qed.

End Steps.

Ltac steps_tac :=
  repeat first
    [ match goal with |- PreOrder _ => apply _ end
    | solve [auto with steps]
    | apply steps_ret | apply steps_raise | apply steps_query
    | apply steps_atomic | (apply steps_bind; [| |intro])
    | match goal with
      | |- steps _ (match ?x with _ => _ end) => destruct x
      | |- steps _ (if ?b then _ else _) => destruct b
      | |- steps _ (let '(_, _) := ?x in _) => destruct x
      end
    ].

(** ** C5: ledger entries of one reference *)

Lemma ledger_sum_app f ref l l' :
  ledger_sum f ref (l ++ l') = ledger_sum f ref l + ledger_sum f ref l'.
Proof.
  unfold ledger_sum. rewrite filter_app, fmap_app, foldr_app.
  generalize (tx_amount <$>
    filter (fun t => reference_id t = Some ref /\ f t = true) l').
  generalize (tx_amount <$>
    filter (fun t => reference_id t = Some ref /\ f t = true) l).
  intros l1 l2. induction l1 as [|x l1 IH]; simpl; lia.
Qed.

Global Instance ledger_extends_balanced_preorder :
  PreOrder ledger_extends_balanced.
Proof.
  split.
  - intros db. exists []. by rewrite app_nil_r.
  - intros x y z [e1 [H1 B1]] [e2 [H2 B2]]. exists (e1 ++ e2). split.
    + by rewrite H2, H1, app_assoc.
    + intros ref. rewrite ledger_sum_app, B1, B2. done.
Qed.

Lemma ledger_same db db' :
  transactions db' = transactions db -> ledger_extends_balanced db db'.
Proof. intros H. exists []. by rewrite app_nil_r. Qed.

Lemma ledger_sum_no_reference f ref t :
  reference_id t = None -> ledger_sum f ref [t] = 0.
Proof.
  intros H. unfold ledger_sum. rewrite filter_cons_False; [done|].
  rewrite H. by intros [? _].
Qed.

Lemma ledger_sum_fee_entry ref t :
  transaction_type t = PLATFORM_FEE -> ledger_sum not_fee_entry ref [t] = 0.
Proof.
  intros H. unfold ledger_sum. rewrite filter_cons_False; [done|].
  unfold not_fee_entry, is_fee_entry. rewrite bool_decide_eq_true_2 by done.
  by intros [_ ?].
Qed.

Lemma ledger_sum_pair f ref t1 t2 :
  reference_id t1 = reference_id t2 -> f t1 = f t2 ->
  tx_amount t1 + tx_amount t2 = 0 ->
  ledger_sum f ref [t1; t2] = 0.
Proof.
  intros Hr Hf Ha. unfold ledger_sum.
  destruct (decide (reference_id t1 = Some ref /\ f t1 = true)) as [H|H].
  - rewrite filter_cons_True by done.
    rewrite filter_cons_True by (by rewrite <- Hr, <- Hf).
    simpl. lia.
  - rewrite filter_cons_False by done.
    rewrite filter_cons_False by (by rewrite <- Hr, <- Hf).
    done.
Qed.

Create HintDb steps.

Lemma steps_ledger_get_or_create u :
  steps ledger_extends_balanced (WalletService.get_or_create_wallet u).
Proof.
  intros db. rewrite get_or_create_wallet_eq. apply ledger_same. simpl.
  by destruct (wallets db !! user_pk u).
Qed.

Lemma steps_ledger_deposit u a d :
  steps ledger_extends_balanced (WalletService.deposit_funds u a d).
Proof.
  intros db. rewrite deposit_funds_eq. simpl. eexists. split; [done|].
  intros ref. by apply ledger_sum_no_reference.
Qed.

Lemma steps_ledger_withdraw u a d :
  steps ledger_extends_balanced (WalletService.withdraw_funds u a d).
Proof.
  intros db. rewrite withdraw_funds_eq.
  destruct (wallets db !! user_pk u); [|reflexivity].
  case_bool_decide; [|reflexivity]. simpl. eexists. split; [done|].
  intros ref. by apply ledger_sum_no_reference.
Qed.

Lemma steps_ledger_transfer f t a k r :
  steps ledger_extends_balanced (WalletService.transfer_funds f t a k r).
Proof.
  intros db. rewrite transfer_funds_eq. simpl.
  destruct (wallets db !! user_pk f); [|apply steps_ledger_get_or_create].
  case_bool_decide; [|apply steps_ledger_get_or_create]. simpl.
  eexists. split; [done|]. intros ref. apply ledger_sum_pair; simpl; [done..|lia].
Qed.

Lemma steps_ledger_fee u a r :
  steps ledger_extends_balanced (WalletService.deduct_platform_fee u a r).
Proof.
  intros db. rewrite deduct_platform_fee_eq.
  destruct (wallets db !! user_pk u); [|reflexivity].
  case_bool_decide; [|reflexivity]. simpl. eexists. split; [done|].
  intros ref. by apply ledger_sum_fee_entry.
Qed.

Lemma steps_ledger_check_balance u a :
  steps ledger_extends_balanced (WalletService.check_balance u a).
Proof. intros db. rewrite check_balance_eq. reflexivity. Qed.

Lemma steps_ledger_update f :
  (forall db, transactions (f db) = transactions db) ->
  steps ledger_extends_balanced (update f).
Proof. intros H. apply steps_update. intros db. by apply ledger_same. Qed.

Lemma steps_ledger_same {A} (m : M A) :
  (forall db, transactions (m db).1 = transactions db) ->
  steps ledger_extends_balanced m.
Proof. intros H db. by apply ledger_same. Qed.

Global Hint Resolve steps_ledger_get_or_create steps_ledger_deposit
  steps_ledger_withdraw steps_ledger_transfer steps_ledger_fee
  steps_ledger_check_balance : steps.

Lemma steps_ledger_update_loan loan set :
  steps ledger_extends_balanced (LoanRepository.update_loan loan set).
Proof. by apply steps_ledger_same. Qed.

Lemma steps_ledger_schedule today loan_id loan :
  steps ledger_extends_balanced (generate_payment_schedule today loan_id loan).
Proof.
  apply steps_ledger_same. intros db. unfold generate_payment_schedule.
  destruct (monthly_payment loan); [|done]. unfold bulk_create.
  by destruct (existsb _ _).
Qed.

Lemma steps_ledger_create_offer loan lender rate :
  steps ledger_extends_balanced (OfferRepository.create_offer loan lender rate).
Proof. by apply steps_ledger_same. Qed.

Lemma steps_ledger_accept_offer offer :
  steps ledger_extends_balanced (OfferRepository.accept_offer offer).
Proof. by apply steps_ledger_same. Qed.

Lemma steps_ledger_mark_paid now payment :
  steps ledger_extends_balanced
    (PaymentRepository.mark_payment_as_paid now payment).
Proof. by apply steps_ledger_same. Qed.

Lemma steps_ledger_save_status pk s :
  steps ledger_extends_balanced (Tasks.save_status pk s).
Proof. by apply steps_ledger_same. Qed.

Global Hint Resolve steps_ledger_update_loan steps_ledger_schedule
  steps_ledger_create_offer steps_ledger_accept_offer steps_ledger_mark_paid
  steps_ledger_save_status : steps.

Lemma steps_ledger_mark_overdue rows acc :
  steps ledger_extends_balanced (Tasks.mark_overdue rows acc).
Proof.
  revert acc. induction rows as [|p rows IH]; intros acc; simpl.
  - apply steps_ret, _.
  - apply steps_bind; [apply _|auto with steps|intros ?].
    apply steps_bind; [apply _|apply steps_query, _|intros b].
    destruct acc as [[? ?] ?]. apply IH.
Qed.

Global Hint Resolve steps_ledger_mark_overdue : steps.

Lemma steps_ledger_run_op op db : ledger_extends_balanced db (run_op op db).
Proof.
  destruct op; simpl;
    match goal with
    | |- _ ?d (?m ?d).1 =>
        generalize d; change (steps ledger_extends_balanced m)
    end;
    [ auto with steps .. | | | | | ].
  - unfold OfferService.create_offer, LoanRepository.get_loan_by_id,
      OfferRepository.check_existing_offer.
    steps_tac.
  - unfold OfferService.accept_offer, OfferService.accept_offer_checks,
      OfferService.accept_offer_writes, LoanRepository.get_loan_by_id,
      OfferRepository.get_offer_by_id.
    steps_tac.
  - unfold LoanFundingService.fund_loan, LoanRepository.get_loan_by_id.
    steps_tac.
  - unfold PaymentService.make_payment, LoanRepository.get_loan_by_id,
      PaymentRepository.get_next_pending_payment,
      PaymentRepository.get_all_payments_for_loan_status.
    steps_tac.
  - unfold Tasks.check_overdue_payments.
    steps_tac.
Qed.

Lemma ledger_extends_balanced_run_ops ops db :
  ledger_extends_balanced db (run_ops ops db).
Proof.
  revert db. induction ops as [|op ops IH]; intros db; simpl.
  - reflexivity.
  - etrans; [apply steps_ledger_run_op|apply IH].
Qed.

Lemma ledger_sum_split ref l :
  ledger_sum any_entry ref l
  = ledger_sum not_fee_entry ref l + ledger_sum is_fee_entry ref l.
Proof.
  induction l as [|t l IH]; [done|].
  change (t :: l) with ([t] ++ l). rewrite !(ledger_sum_app _ _ [t]), IH.
  assert (ledger_sum any_entry ref [t]
          = ledger_sum not_fee_entry ref [t] + ledger_sum is_fee_entry ref [t])
    as ->; [|lia].
  unfold ledger_sum, not_fee_entry, any_entry.
  destruct (decide (reference_id t = Some ref)) as [Hr|Hr].
  - destruct (is_fee_entry t) eqn:Hf.
    + rewrite filter_cons_True by done.
      rewrite filter_cons_False by (intros [_ H]; by rewrite Hf in H).
      rewrite filter_cons_True by done. simpl. lia.
    + rewrite filter_cons_True by done.
      rewrite filter_cons_True by (by rewrite Hf).
      rewrite filter_cons_False by (intros [_ H]; by rewrite Hf in H).
      simpl. lia.
  - rewrite !filter_cons_False by (intros [? _]; done). done.
Qed.

(** C5 as stated fails: funding a loan with a fee of 3.75 leaves one entry
    of -3.75 under the reference of the fee, and nothing that offsets it. *)
Lemma C5_fee_reference_counterexample :
  let db' := run_ops [OpFundLoan noon 375 1 alice] db_pending_loan in
  omap reference_id (transactions db') = ["loan_1"; "loan_1"; "loan_1_fee"]
  /\ ledger_sum any_entry "loan_1_fee" (transactions db') = -375
  /\ ledger_sum any_entry "loan_1" (transactions db') = 0
  /\ ~ (forall ref, ref ∈ omap reference_id (transactions db') ->
          ledger_sum any_entry ref (transactions db') = 0).
Proof.
  assert (omap reference_id
            (transactions (run_ops [OpFundLoan noon 375 1 alice] db_pending_loan))
          = ["loan_1"; "loan_1"; "loan_1_fee"]) as E by (by vm_compute).
  assert (ledger_sum any_entry "loan_1_fee"
            (transactions (run_ops [OpFundLoan noon 375 1 alice] db_pending_loan))
          = -375) as F by (by vm_compute).
  cbv zeta. split; [exact E|]. split; [exact F|]. split; [by vm_compute|].
  intros H. specialize (H "loan_1_fee"). rewrite E, F in H.
  assert (-375 = 0 -> False) as K by lia. apply K, H.
  do 2 apply list_elem_of_further. apply list_elem_of_here.
Qed.

(** C5, as the code has it: after any sequence of core operations, started
    from a ledger with the same property, the entries of a reference that
    are not platform-fee entries sum to zero, so the sum of all entries of
    the reference is the sum of its platform-fee entries; a fee deduction
    that succeeds appends the single entry of minus the fee under the
    reference it is given. *)
Theorem C5_reference_sums ops db ref :
  (forall r, ledger_sum not_fee_entry r (transactions db) = 0) ->
  let l := transactions (run_ops ops db) in
  ledger_sum not_fee_entry ref l = 0
  /\ ledger_sum any_entry ref l = ledger_sum is_fee_entry ref l
  /\ (forall db0 u a r b, wallets db0 !! user_pk u = Some b -> b >= a ->
        transactions (WalletService.deduct_platform_fee u a r db0).1
        = transactions db0
          ++ [mkTransaction (user_pk u) PLATFORM_FEE (- a)
                ("Platform fee of $" +:+ format_money a) r]).
Proof.
  intros H l.
  assert (ledger_sum not_fee_entry ref l = 0) as E.
  { destruct (ledger_extends_balanced_run_ops ops db) as [extra [Hl Hx]].
    unfold l. by rewrite Hl, ledger_sum_app, H, Hx. }
  split; [done|]. split; [rewrite ledger_sum_split, E; lia|].
  intros db0 u a r b Hw Hb. rewrite deduct_platform_fee_eq, Hw.
  by rewrite bool_decide_eq_true_2.
Qed.

Lemma C5_reference_sums_witness :
  (forall r, ledger_sum not_fee_entry r (transactions db_pending_loan) = 0)
  /\ ledger_sum any_entry "loan_1"
       (transactions (run_ops [OpFundLoan noon 375 1 alice] db_pending_loan))
     = ledger_sum is_fee_entry "loan_1"
         (transactions (run_ops [OpFundLoan noon 375 1 alice] db_pending_loan)).
Proof.
  assert (forall r, ledger_sum not_fee_entry r (transactions db_pending_loan) = 0)
    as H by (intros r; reflexivity).
  split; [exact H|].
  destruct (C5_reference_sums [OpFundLoan noon 375 1 alice] db_pending_loan
              "loan_1" H) as [_ [K _]].
  exact K.
Defined.

(** ** C6: the monthly payment *)

Lemma div_is_Some x y : Dec.coeff y <> 0 -> is_Some (Dec.div x y).
Proof.
  intros Hy. unfold Dec.div.
  rewrite (proj2 (Z.eqb_neq _ _) Hy).
  destruct (Dec.coeff x =? 0); [by eexists|].
  destruct (if 0 <=? _ then _ else _) as [q r].
  destruct (if r =? 0 then _ else _) as [c e]. by eexists.
Qed.

Lemma monthly_rate_is_Some loan : is_Some (monthly_rate loan).
Proof.
  unfold monthly_rate.
  destruct (div_is_Some (Dec.of_cents (annual_interest_rate loan))
              (Dec.of_Z 100)) as [r100 ->]; [done|].
  by apply div_is_Some.
Qed.

Lemma round_half_even_spec c k :
  0 <= k ->
  let q := Dec.round_half_even c k in
  2 * Z.abs (c - q * 10 ^ k) <= 10 ^ k
  /\ (2 * Z.abs (c - q * 10 ^ k) = 10 ^ k -> Z.even q = true).
Proof.
  intros Hk. unfold Dec.round_half_even.
  assert (0 < 10 ^ k) as Hp by (apply Z.pow_pos_nonneg; lia).
  set (p := 10 ^ k) in *. set (m := Z.abs c).
  pose proof (Z.div_mod m p ltac:(lia)) as Hdm.
  pose proof (Z.mod_pos_bound m p Hp) as Hr.
  set (d := m / p) in *. set (r := m mod p) in *.
  assert (0 <= d) as Hd by (apply Z.div_pos; lia).
  assert (forall q', Z.even (Z.sgn c * q') = true \/ c = 0 \/ Z.even q' = false)
    as Hev.
  { intros q'. destruct (Z.even q') eqn:E; [|auto].
    rewrite Z.even_mul, E. left. apply orb_true_r. }
  destruct (Z.ltb_spec (2 * r) p) as [H1|H1];
    [|destruct (Z.ltb_spec p (2 * r)) as [H2|H2];
      [|destruct (Z.even d) eqn:H3]].
  - split; [|intros E]; destruct c; simpl in *; lia.
  - split; [|intros E]; destruct c; simpl in *; lia.
  - split; [destruct c; simpl in *; lia|]. intros _.
    rewrite Z.even_mul, H3. apply orb_true_r.
  - split; [destruct c; simpl in *; lia|]. intros _.
    rewrite Z.even_mul, Z.even_add, H3. simpl. apply orb_true_r.
Qed.

Lemma half_even_cents_of_Z (n d c : Z) :
  0 < d ->
  2 * Z.abs (n * 100 - c * d) <= d ->
  (2 * Z.abs (n * 100 - c * d) = d -> Z.even c = true) ->
  is_half_even_cents (n # Z.to_pos d) c.
Proof.
  intros Hd H1 H2. unfold is_half_even_cents.
  assert ((Qabs ((n # Z.to_pos d) * 100 - inject_Z c)
           == (Z.abs (n * 100 - c * d) # Z.to_pos d))%Q) as E.
  { unfold Qeq, Qabs, Qminus, Qplus, Qmult, Qopp, inject_Z. simpl.
    rewrite !Pos.mul_1_r, Z.mul_1_r, !Z2Pos.id by lia.
    f_equal. f_equal. lia. }
  split.
  - rewrite E. unfold Qle. simpl. rewrite Z2Pos.id by lia. lia.
  - intros K. apply H2. rewrite E in K. unfold Qeq in K. simpl in K.
    rewrite Z2Pos.id in K by lia. lia.
Qed.

(** [quantize] to two places returns the value rounded half to even. *)
Lemma quantize_half_even p q :
  Dec.quantize p (-2) = Some q ->
  Dec.expo q = -2 /\ is_half_even_cents (Dec.to_Q p) (Dec.coeff q).
Proof.
  unfold Dec.quantize.
  destruct (Z.eqb_spec (Dec.coeff p) 0) as [Hz|Hz].
  - intros [= <-]. simpl. split; [done|]. unfold Dec.to_Q. rewrite Hz.
    destruct (Z.leb_spec 0 (Dec.expo p)); simpl.
    + apply (half_even_cents_of_Z (0 * 10 ^ Dec.expo p) 1 0); simpl; lia.
    + assert (0 < 10 ^ (- Dec.expo p)) by (apply Z.pow_pos_nonneg; lia).
      apply half_even_cents_of_Z; [lia|..];
        rewrite Z.mul_0_l, Z.sub_0_r; simpl; lia.
  - destruct (_ <? _); [done|].
    destruct (_ <? _); [done|]. intros [= <-]. simpl. split; [done|].
    unfold Dec.rescale, Dec.to_Q.
    destruct (Z.leb_spec (-2) (Dec.expo p)) as [He|He].
    + destruct (Z.leb_spec 0 (Dec.expo p)) as [He0|He0].
      * replace (Dec.expo p - -2) with (Dec.expo p + 2) by lia.
        rewrite Z.pow_add_r by lia. change (10 ^ 2) with 100.
        apply (half_even_cents_of_Z (Dec.coeff p * 10 ^ Dec.expo p) 1);
          [lia|..]; replace (_ - _) with 0 by lia; simpl; lia.
      * assert (Dec.expo p = -1 \/ Dec.expo p = -2) as [-> | ->] by lia.
        -- change (10 ^ (-1 - -2)) with 10.
           apply (half_even_cents_of_Z (Dec.coeff p) 10 (Dec.coeff p * 10));
             [lia|..]; replace (_ - _) with 0 by lia; simpl; lia.
        -- change (10 ^ (-2 - -2)) with 1.
           apply (half_even_cents_of_Z (Dec.coeff p) 100 (Dec.coeff p * 1));
             [lia|..]; replace (_ - _) with 0 by lia; simpl; lia.
    + rewrite (proj2 (Z.leb_gt 0 (Dec.expo p))) by lia.
      set (k := -2 - Dec.expo p).
      assert (0 < 10 ^ k) as Hp by (apply Z.pow_pos_nonneg; lia).
      replace (- Dec.expo p) with (k + 2) by lia.
      rewrite Z.pow_add_r by lia. change (10 ^ 2) with 100.
      pose proof (round_half_even_spec (Dec.coeff p) k ltac:(lia)) as [R1 R2].
      simpl in R1, R2.
      apply half_even_cents_of_Z; [lia|..];
        replace (Dec.coeff p * 100 - _ * (10 ^ k * 100))
          with (100 * (Dec.coeff p - Dec.round_half_even (Dec.coeff p) k * 10 ^ k))
          by lia;
        rewrite Z.abs_mul; [lia|intros; apply R2; lia].
Qed.

(** C6 as stated fails on the rounding rule. For 1.00 at 6% over one month
    the formula gives exactly 1.005: the specification's round-half-up makes
    it 1.01, the code's [quantize], which rounds half to even, returns
    1.00. *)
Lemma C6_half_up_counterexample :
  let loan := loan_of 100 1 600 in
  0 < amount loan /\ 1 <= term_months loan
  /\ monthly_rate loan = Some (Dec.mk 5 (-3))
  /\ unrounded_payment loan (Dec.mk 5 (-3)) = Some (Dec.mk 100500 (-5))
  /\ (spec_unrounded_cents 100 600 1 == 201 # 2)%Q
  /\ spec_monthly_payment_cents 100 600 1 = 101
  /\ monthly_payment loan = Some (Dec.of_cents 100)
  /\ monthly_payment loan
     <> Some (Dec.of_cents (spec_monthly_payment_cents 100 600 1)).
Proof. vm_compute. repeat split; try done; try lia. Qed.

(** C6, with the rounding the code applies: for a positive amount and a
    term of at least one month, the monthly rate is the annual rate divided
    by 100 and by 12; when it is zero the payment is the amount divided by
    the term; otherwise the payment is the value of the formula, evaluated
    in the 28-digit decimal arithmetic of the code, quantized to two places
    with ties going to the even cent; 1000.00 at 12% over 6 months gives
    172.55. *)
Theorem C6_monthly_payment loan :
  0 < amount loan -> 1 <= term_months loan ->
  exists rate,
    monthly_rate loan = Some rate
    /\ (Dec.eqb rate (Dec.of_Z 0) = true ->
          monthly_payment loan
          = Dec.div (Dec.of_cents (amount loan)) (Dec.of_Z (term_months loan))
          /\ is_Some (monthly_payment loan))
    /\ (Dec.eqb rate (Dec.of_Z 0) = false ->
          (unrounded_payment loan rate = None -> monthly_payment loan = None)
          /\ forall payment,
               unrounded_payment loan rate = Some payment ->
               monthly_payment loan = Dec.quantize payment (-2)
               /\ forall q, monthly_payment loan = Some q ->
                    Dec.expo q = -2
                    /\ is_half_even_cents (Dec.to_Q payment) (Dec.coeff q))
    /\ (amount loan = 100000 -> term_months loan = 6 ->
        annual_interest_rate loan = 1200 ->
          monthly_payment loan = Some (Dec.of_cents 17255)).
Proof.
  intros Ha Ht. destruct (monthly_rate_is_Some loan) as [rate Hr].
  exists rate. split; [done|]. unfold monthly_payment.
  rewrite (proj2 (Z.eqb_neq (term_months loan) 0)) by lia. rewrite Hr.
  split; [|split].
  - intros ->. split; [done|]. apply div_is_Some. simpl. lia.
  - intros ->. split; [by intros ->|]. intros payment ->. split; [done|].
    intros q. apply quantize_half_even.
  - intros E1 E2 E3.
    assert (monthly_rate loan = Some (Dec.mk 1 (-2))) as Hr'.
    { unfold monthly_rate. rewrite E3. by vm_compute. }
    rewrite Hr in Hr'. injection Hr' as ->.
    unfold unrounded_payment. rewrite E1, E2. by vm_compute.
Qed.

Lemma C6_monthly_payment_witness :
  0 < amount (loan_of 100000 6 1200)
  /\ 1 <= term_months (loan_of 100000 6 1200)
  /\ monthly_payment (loan_of 100000 6 1200) = Some (Dec.of_cents 17255).
Proof.
  assert (0 < amount (loan_of 100000 6 1200)) as Ha by (simpl; lia).
  assert (1 <= term_months (loan_of 100000 6 1200)) as Ht by (simpl; lia).
  split; [exact Ha|]. split; [exact Ht|].
  destruct (C6_monthly_payment (loan_of 100000 6 1200) Ha Ht)
    as [rate [_ [_ [_ H]]]].
  apply H; reflexivity.
Defined.

(** ** Tables: keys and filters *)

Lemma next_pk_above {A} (m : gmap nat A) k :
  is_Some (m !! k) -> (k < next_pk m)%nat.
Proof.
  unfold next_pk. revert k.
  apply (map_fold_weak_ind
           (fun r (m : gmap nat A) => forall k, is_Some (m !! k) -> (k < S r)%nat)).
  - intros k [x Hx]. by rewrite lookup_empty in Hx.
  - intros i x m' r Hi IH k. destruct (decide (i = k)) as [->|ne].
    + intros _. lia.
    + rewrite lookup_insert_ne by done. intros Hk. specialize (IH k Hk). lia.
Qed.

Lemma next_pk_fresh {A} (m : gmap nat A) : m !! next_pk m = None.
Proof.
  destruct (m !! next_pk m) eqn:E; [|done].
  pose proof (next_pk_above m (next_pk m) ltac:(by eexists)). lia.
Qed.

Lemma elem_of_rows_where {A} (f : A -> bool) (m : gmap nat A) pk row :
  (pk, row) ∈ rows_where f m <-> m !! pk = Some row /\ f row = true.
Proof.
  unfold rows_where. rewrite list_elem_of_filter, elem_of_map_to_list. simpl.
  tauto.
Qed.

Lemma rows_where_nonempty {A} (f : A -> bool) (m : gmap nat A) :
  rows_where f m <> [] <-> exists pk row, m !! pk = Some row /\ f row = true.
Proof.
  split.
  - destruct (rows_where f m) as [|[pk row] l] eqn:E; [done|]. intros _.
    exists pk, row. apply elem_of_rows_where. rewrite E. apply list_elem_of_here.
  - intros [pk [row H]] E. apply elem_of_rows_where in H. rewrite E in H.
    by apply not_elem_of_nil in H.
Qed.

(** ** C8: creating an offer *)

(** C8 as stated fails on the rate: the service stores whatever rate it is
    given; an offer at 75% is inserted. The range is checked by the
    serializer of the view, before the service is called. *)
Lemma C8_rate_counterexample :
  OfferService.create_offer 1 alice 7500 db_requested_loan
  = (set_offers (fun m => <[1%nat := mkOffer 1 alice 7500 false]> m)
       db_requested_loan,
     Returned (Success (1%nat, mkOffer 1 alice 7500 false)))
  /\ (Views.create_offer alice 1 7500 db_requested_loan).2
     = Returned (mkResponse 400 (Failure "Interest rate cannot exceed 50%")).
Proof. by vm_compute. Qed.

Lemma check_existing_offer_spec db loan lender_ :
  (OfferRepository.check_existing_offer loan lender_ db).2
  = Returned (bool_decide (has_offer db loan.1 lender_)).
Proof.
  unfold OfferRepository.check_existing_offer, query. simpl. f_equal.
  apply bool_decide_ext. rewrite rows_where_nonempty. unfold has_offer.
  split; intros [pk [o [H1 H2]]]; exists pk, o.
  - apply andb_true_iff in H2 as [H2 H3]. unfold user_eqb in H3.
    apply bool_decide_eq_true in H2, H3. done.
  - destruct H2 as [H2 H3]. split; [done|]. unfold user_eqb.
    by rewrite !bool_decide_eq_true_2.
Qed.

(** C8, as the code has it. The service refuses a caller who is not a
    lender, a missing loan, a loan that is not REQUESTED, the borrower of the
    loan and a lender who already has an offer on the loan, in this order,
    and changes nothing then; otherwise it inserts one offer, not accepted,
    under a fresh key, with the rate as given, and changes nothing else. The
    rate is checked by the view: a rate below 0 or above 50 is answered 400
    before the service is called; a rate in the range goes to the service. *)
Theorem C8_create_offer db loan_id lender_ rate :
  (role lender_ <> LENDER ->
     OfferService.create_offer loan_id lender_ rate db
     = (db, Returned (Failure "Only lenders can make offers")))
  /\ (role lender_ = LENDER -> loans db !! loan_id = None ->
        OfferService.create_offer loan_id lender_ rate db
        = (db, Returned (Failure "Loan not found")))
  /\ (forall loan, role lender_ = LENDER -> loans db !! loan_id = Some loan ->
        (status loan <> REQUESTED ->
           OfferService.create_offer loan_id lender_ rate db
           = (db, Returned (Failure "Loan is not available for offers")))
        /\ (status loan = REQUESTED ->
            user_pk (borrower loan) = user_pk lender_ ->
              OfferService.create_offer loan_id lender_ rate db
              = (db, Returned (Failure "Cannot make offer on your own loan")))
        /\ (status loan = REQUESTED ->
            user_pk (borrower loan) <> user_pk lender_ ->
            has_offer db loan_id lender_ ->
              OfferService.create_offer loan_id lender_ rate db
              = (db, Returned
                       (Failure "You have already made an offer on this loan")))
        /\ (status loan = REQUESTED ->
            user_pk (borrower loan) <> user_pk lender_ ->
            ~ has_offer db loan_id lender_ ->
              let pk := next_pk (offers db) in
              let offer := mkOffer loan_id lender_ rate false in
              offers db !! pk = None
              /\ OfferService.create_offer loan_id lender_ rate db
                 = (mkDb (wallets db) (transactions db) (loans db)
                      (<[pk := offer]> (offers db)) (payments db),
                    Returned (Success (pk, offer)))))
  /\ (role lender_ = LENDER -> rate < 0 \/ 5000 < rate ->
        exists e,
          Views.create_offer lender_ loan_id rate db
          = (db, Returned (mkResponse 400 (Failure e))))
  /\ (role lender_ = LENDER -> 0 <= rate <= 5000 ->
        exists db' r,
          OfferService.create_offer loan_id lender_ rate db = (db', Returned r)
          /\ Views.create_offer lender_ loan_id rate db
             = (db', Returned (match r with
                               | Success offer => mkResponse 201 (Success offer)
                               | Failure e => mkResponse 400 (Failure e)
                               end))).
Proof.
  assert (forall loan, role lender_ = LENDER -> loans db !! loan_id = Some loan ->
    OfferService.create_offer loan_id lender_ rate db =
    if bool_decide (status loan = REQUESTED) then
      if bool_decide (user_pk (borrower loan) = user_pk lender_) then
        (db, Returned (Failure "Cannot make offer on your own loan"))
      else if bool_decide (has_offer db loan_id lender_) then
        (db, Returned (Failure "You have already made an offer on this loan"))
      else
        (mkDb (wallets db) (transactions db) (loans db)
           (<[next_pk (offers db) := mkOffer loan_id lender_ rate false]>
              (offers db)) (payments db),
         Returned (Success (next_pk (offers db),
                            mkOffer loan_id lender_ rate false)))
    else (db, Returned (Failure "Loan is not available for offers"))) as Heq.
  { intros loan Hrole Hloan. unfold OfferService.create_offer.
    rewrite bool_decide_eq_true_2 by done. simpl.
    unfold LoanRepository.get_loan_by_id. unfold bind at 1. unfold query at 1.
    rewrite Hloan. simpl. destruct (bool_decide (status loan = REQUESTED)); [|done].
    simpl. unfold user_eqb.
    destruct (bool_decide (user_pk (borrower loan) = user_pk lender_)); [done|].
    unfold bind at 1.
    pose proof (check_existing_offer_spec db (loan_id, loan) lender_) as Hc.
    destruct (OfferRepository.check_existing_offer (loan_id, loan) lender_ db)
      as [db1 o] eqn:E.
    assert (db1 = db) as -> by (unfold OfferRepository.check_existing_offer, query in E; congruence).
    simpl in Hc. rewrite Hc.
    destruct (bool_decide (has_offer db loan_id lender_)); done. }
  split; [|split; [|split; [|split]]].
  - intros Hrole. unfold OfferService.create_offer.
    by rewrite bool_decide_eq_false_2.
  - intros Hrole Hloan. unfold OfferService.create_offer.
    rewrite bool_decide_eq_true_2 by done. simpl.
    unfold LoanRepository.get_loan_by_id, bind, query. by rewrite Hloan.
  - intros loan Hrole Hloan. rewrite (Heq loan Hrole Hloan).
    split; [|split; [|split]].
    + intros H. by rewrite bool_decide_eq_false_2.
    + intros H1 H2. by rewrite !bool_decide_eq_true_2.
    + intros H1 H2 H3. rewrite bool_decide_eq_true_2 by done.
      rewrite bool_decide_eq_false_2 by done.
      by rewrite bool_decide_eq_true_2.
    + intros H1 H2 H3. split; [apply next_pk_fresh|].
      rewrite bool_decide_eq_true_2 by done.
      by rewrite !bool_decide_eq_false_2.
  - intros Hrole Hrate. unfold Views.create_offer.
    rewrite bool_decide_eq_true_2 by done. simpl.
    unfold validate_annual_interest_rate.
    destruct (Z.ltb_spec rate 0); [by eexists|].
    destruct (Z.ltb_spec 5000 rate); [by eexists|]. lia.
  - intros Hrole Hrate. unfold Views.create_offer.
    rewrite bool_decide_eq_true_2 by done. simpl.
    unfold validate_annual_interest_rate.
    rewrite (proj2 (Z.ltb_ge rate 0)) by lia.
    rewrite (proj2 (Z.ltb_ge 5000 rate)) by lia.
    assert (exists db' r,
      OfferService.create_offer loan_id lender_ rate db = (db', Returned r))
      as [db' [r E]].
    { destruct (loans db !! loan_id) as [loan|] eqn:Hloan.
      - rewrite (Heq loan Hrole eq_refl). repeat case_bool_decide; eauto.
      - unfold OfferService.create_offer.
        rewrite bool_decide_eq_true_2 by done. simpl.
        unfold LoanRepository.get_loan_by_id, bind, query. rewrite Hloan.
        eauto. }
    unfold bind. rewrite E. exists db', r. split; [done|]. by destruct r.
Qed.

Lemma C8_create_offer_witness :
  role alice = LENDER
  /\ loans db_requested_loan !! 1%nat
     = Some (mkLoan bob None 100000 6 1200 REQUESTED None)
  /\ OfferService.create_offer 1 alice 1000 db_requested_loan
     = (mkDb ∅ [] (loans db_requested_loan)
          (<[1%nat := mkOffer 1 alice 1000 false]> ∅) ∅,
        Returned (Success (1%nat, mkOffer 1 alice 1000 false))).
Proof.
  assert (role alice = LENDER) as Hrole by reflexivity.
  assert (loans db_requested_loan !! 1%nat
          = Some (mkLoan bob None 100000 6 1200 REQUESTED None)) as Hloan
    by reflexivity.
  split; [exact Hrole|]. split; [exact Hloan|].
  destruct (C8_create_offer db_requested_loan 1 alice 1000)
    as [_ [_ [H _]]].
  destruct (H _ Hrole Hloan) as [_ [_ [_ K]]].
  apply K.
  - reflexivity.
  - simpl. lia.
  - intros [pk [o [Ho _]]]. simpl in Ho. by rewrite lookup_empty in Ho.
Defined.

(** ** C9: the overdue sweep *)

Lemma mark_overdue_eq rows acc db :
  exists acc',
    Tasks.mark_overdue rows acc db
    = (set_payments (alter_rows rows) db, Returned acc')
    /\ acc'.2 = (acc.2 + length rows)%nat.
Proof.
  revert acc db. induction rows as [|row rows IH]; intros acc db; simpl.
  - exists acc. split; [by destruct db|lia].
  - unfold bind at 1. unfold Tasks.save_status at 1. unfold update at 1.
    unfold bind at 1. unfold query at 1. destruct acc as [[s1 s2] n].
    match goal with |- context [Tasks.mark_overdue rows ?a ?d] =>
      destruct (IH a d) as [acc' [E1 E2]] end.
    exists acc'. rewrite E1. split; [done|]. simpl in *. lia.
Qed.

Lemma lookup_alter_rows rows m k :
  alter_rows rows m !! k
  = if decide (k ∈ rows.*1) then set_payment_status OVERDUE <$> m !! k
    else m !! k.
Proof.
  revert m. induction rows as [|row rows IH]; intros m.
  - destruct (decide (k ∈ ([] : list (nat * Payment)).*1)) as [H|H]; [|done].
    by apply elem_of_nil in H.
  - change (alter_rows (row :: rows) m)
      with (alter_rows rows (alter (set_payment_status OVERDUE) row.1 m)).
    rewrite IH. rewrite fmap_cons.
    destruct (decide (row.1 = k)) as [<-|ne].
    + rewrite lookup_alter_eq.
      destruct (decide (row.1 ∈ row.1 :: rows.*1)) as [_|H];
        [|destruct H; apply list_elem_of_here].
      destruct (decide (row.1 ∈ rows.*1)); [|done]. by destruct (m !! row.1).
    + rewrite lookup_alter_ne by done.
      destruct (decide (k ∈ rows.*1)) as [Hin|Hin];
        destruct (decide (k ∈ row.1 :: rows.*1)) as [Hin'|Hin']; try done.
      * destruct Hin'. by apply list_elem_of_further.
      * apply elem_of_cons in Hin' as [->|?]; done.
Qed.

Lemma sweep_payments today (m : gmap nat Payment) :
  alter_rows (rows_where (is_past_due today) m) m = sweep_row today <$> m.
Proof.
  apply map_eq. intros k. rewrite lookup_alter_rows, lookup_fmap.
  unfold sweep_row. destruct (m !! k) as [p|] eqn:E; simpl.
  - case_decide as Hin.
    + apply list_elem_of_fmap in Hin as [[k' p'] [-> Hin]].
      apply elem_of_rows_where in Hin as [Hk Hf]. simpl in *.
      rewrite E in Hk. injection Hk as ->. by rewrite Hf.
    + destruct (is_past_due today p) eqn:Hf; [|done]. exfalso. apply Hin.
      apply list_elem_of_fmap. exists (k, p). split; [done|].
      by apply elem_of_rows_where.
  - by case_decide.
Qed.

Lemma sweep_row_not_past_due today p :
  is_past_due today (sweep_row today p) = false.
Proof.
  unfold sweep_row. destruct (is_past_due today p) eqn:E; [|done].
  unfold is_past_due, set_payment_status. simpl. done.
Qed.

Lemma rows_where_none {A} (f : A -> bool) (m : gmap nat A) :
  (forall k x, m !! k = Some x -> f x = false) -> rows_where f m = [].
Proof.
  intros H. destruct (rows_where f m) as [|[k x] l] eqn:E; [done|].
  assert ((k, x) ∈ rows_where f m) as Hin by (rewrite E; apply list_elem_of_here).
  apply elem_of_rows_where in Hin as [Hk Hf]. by rewrite (H k x Hk) in Hf.
Qed.

Lemma check_overdue_payments_eq today db :
  let rows := rows_where (is_past_due today) (payments db) in
  exists summary,
    Tasks.check_overdue_payments today db
    = (set_payments (fun m => sweep_row today <$> m) db, Returned summary)
    /\ overdue_payments_found summary = length rows
    /\ payments_marked_overdue summary = length rows.
Proof.
  intros rows. unfold Tasks.check_overdue_payments.
  unfold bind at 1. unfold query at 1. fold rows.
  destruct (Nat.eqb_spec (length rows) 0) as [E|E].
  - exists (mkOverdueSummary 0 0 None None). split; [|by rewrite E].
    unfold ret. f_equal. unfold set_payments.
    rewrite <- sweep_payments. fold rows.
    destruct rows; [by destruct db|done].
  - unfold bind.
    destruct (mark_overdue_eq rows (∅, ∅, 0%nat) db) as [acc' [E1 E2]].
    rewrite E1. destruct acc' as [[s1 s2] n]. eexists. split.
    + unfold ret. f_equal. unfold set_payments, rows.
      by rewrite sweep_payments.
    + simpl in *. by subst n.
Qed.

(** C9: the sweep turns OVERDUE exactly the payments that are PENDING with
    a due date before today, reports their number as found and as updated,
    and touches nothing else; run again on the result it finds and updates
    none and changes nothing. *)
Theorem C9_sweep_idempotent today db :
  let n := length (rows_where (is_past_due today) (payments db)) in
  let first := Tasks.check_overdue_payments today db in
  let second := Tasks.check_overdue_payments today first.1 in
  (exists summary,
     first.2 = Returned summary
     /\ overdue_payments_found summary = n
     /\ payments_marked_overdue summary = n)
  /\ (forall pk,
        payments first.1 !! pk
        = (fun p =>
             if bool_decide (payment_status p = PENDING)
                && date_ltb (due_date p) today
             then set_payment_status OVERDUE p else p) <$> payments db !! pk)
  /\ wallets first.1 = wallets db
  /\ transactions first.1 = transactions db
  /\ loans first.1 = loans db
  /\ offers first.1 = offers db
  /\ second.1 = first.1
  /\ second.2 = Returned (mkOverdueSummary 0 0 None None).
Proof.
  intros n first second.
  destruct (check_overdue_payments_eq today db) as [s1 [E1 [F1 M1]]].
  assert (rows_where (is_past_due today) (payments first.1) = []) as Hnone.
  { unfold first. rewrite E1. simpl. apply rows_where_none. intros k x.
    rewrite lookup_fmap. destruct (payments db !! k); [|done].
    intros [= <-]. apply sweep_row_not_past_due. }
  assert (second = (first.1, Returned (mkOverdueSummary 0 0 None None))) as E2.
  { unfold second, Tasks.check_overdue_payments.
    unfold bind at 1. unfold query at 1. by rewrite Hnone. }
  unfold first in *. rewrite E1 in *. simpl in *.
  split; [by exists s1|]. split; [|by rewrite E2].
  intros pk. by rewrite lookup_fmap.
Qed.

(** ** C3: paying the next installment *)

Lemma make_payment_eq now db loan_id borrower_ loan :
  loans db !! loan_id = Some loan ->
  user_pk (borrower loan) = user_pk borrower_ ->
  status loan = FUNDED ->
  PaymentService.make_payment now loan_id borrower_ db =
  match PaymentRepository.first_by_payment_number
          (rows_where (pending_of loan_id) (payments db)) with
  | None => (db, Returned (Failure "No pending payments found"))
  | Some next =>
      if match wallets db !! user_pk borrower_ with
         | Some b => bool_decide (b >= payment_amount next.2)
         | None => false
         end
      then
        match lender loan with
        | None => (db, Raised IntegrityError)
        | Some lender_ =>
            let db1 :=
              (WalletService.transfer_funds borrower_ lender_
                 (payment_amount next.2) LOAN_PAYMENT
                 (Some ("payment_" +:+ pretty next.1)) db).1 in
            let rows := <[next.1 := mark_as_paid now next.2]> (payments db) in
            (mkDb (wallets db1) (transactions db1)
               (if all_paid_in loan_id rows
                then <[loan_id := set_status COMPLETED loan]> (loans db)
                else loans db)
               (offers db) rows,
             Returned (Success ((next.1, mark_as_paid now next.2),
                                all_paid_in loan_id rows)))
        end
      else (db, Returned (Failure ("Insufficient funds. Need $"
                                   +:+ format_money (payment_amount next.2)
                                   +:+ " for payment")))
  end.
Proof.
  intros Hloan Hb Hs. unfold PaymentService.make_payment.
  unfold LoanRepository.get_loan_by_id. unfold bind at 1. unfold query at 1.
  rewrite Hloan. cbn [fmap option_fmap option_map fst snd].
  unfold user_eqb. rewrite bool_decide_eq_true_2 by done.
  rewrite bool_decide_eq_true_2 by done. cbn [negb].
  unfold PaymentRepository.get_next_pending_payment.
  unfold bind at 1. unfold query at 1. cbn [fst snd].
  change (fun p => bool_decide (payment_loan p = loan_id)
                   && bool_decide (payment_status p = PENDING))
    with (pending_of loan_id).
  destruct (PaymentRepository.first_by_payment_number _) as [next|]; [|done].
  unfold bind at 1. rewrite check_balance_eq.
  destruct (wallets db !! user_pk borrower_) as [b|] eqn:Hw; [|done].
  case_bool_decide as Hge; [|done]. cbn [negb].
  destruct (lender loan) as [lender_|]; [|done].
  unfold atomic. unfold bind at 1. rewrite transfer_funds_eq. cbn zeta.
  rewrite Hw. rewrite bool_decide_eq_true_2 by done.
  unfold PaymentRepository.mark_payment_as_paid,
    PaymentRepository.get_all_payments_for_loan_status,
    LoanRepository.update_loan, all_paid_in.
  unfold bind, update, query, ret.
  cbn [fst snd payments set_payments all_paid wallets transactions loans offers].
  match goal with |- context [if ?c then _ else _] => destruct c end;
    reflexivity.
Qed.

Lemma first_by_payment_number_None l :
  PaymentRepository.first_by_payment_number l = None <-> l = [].
Proof.
  destruct l as [|x l]; simpl; [done|].
  by destruct (PaymentRepository.first_by_payment_number l).
Qed.

Lemma first_by_payment_number_Some l x :
  PaymentRepository.first_by_payment_number l = Some x ->
  x ∈ l /\ forall y, y ∈ l -> payment_number x.2 <= payment_number y.2.
Proof.
  revert x. induction l as [|a l IH]; intros x; simpl; [done|].
  destruct (PaymentRepository.first_by_payment_number l) as [m|] eqn:E.
  - destruct (IH m eq_refl) as [Hin Hmin].
    unfold PaymentRepository.min_payment.
    destruct (Z.leb_spec (payment_number a.2) (payment_number m.2));
      intros [= <-].
    + split; [apply list_elem_of_here|]. intros y Hy.
      apply elem_of_cons in Hy as [->|Hy]; [lia|]. specialize (Hmin y Hy). lia.
    + split; [by apply list_elem_of_further|]. intros y Hy.
      apply elem_of_cons in Hy as [->|Hy]; [lia|]. by apply Hmin.
  - apply first_by_payment_number_None in E as ->. intros [= <-].
    split; [apply list_elem_of_here|]. intros y Hy.
    apply elem_of_cons in Hy as [->|Hy]; [lia|]. by apply elem_of_nil in Hy.
Qed.

Lemma length_filter_eq {A} (P : A -> Prop) `{!forall x, Decision (P x)}
    (l : list A) :
  length (filter P l) = length l <-> Forall P l.
Proof.
  induction l as [|x l IH]; [by split; [constructor|]|].
  pose proof (length_filter P l) as Hle.
  destruct (decide (P x)) as [Hx|Hx].
  - rewrite filter_cons_True by done. simpl. rewrite Forall_cons.
    split; [intros [= E]; by rewrite <- IH|intros [_ E]; f_equal; by apply IH].
  - rewrite filter_cons_False by done. simpl. rewrite Forall_cons.
    split; [lia|tauto].
Qed.

Lemma rows_where_and {A} (f g : A -> bool) (m : gmap nat A) :
  rows_where (fun x => f x && g x) m
  = filter (fun r => g r.2 = true) (rows_where f m).
Proof.
  unfold rows_where. rewrite list_filter_filter. apply list_filter_iff.
  intros [k x]. simpl. rewrite andb_true_iff. tauto.
Qed.

(** [all_paid] holds exactly when the loan has a payment and all its
    payments are PAID. *)
Lemma all_paid_in_spec loan_id (m : gmap nat Payment) :
  all_paid_in loan_id m = true <->
  (exists pk p, m !! pk = Some p /\ payment_loan p = loan_id)
  /\ forall pk p, m !! pk = Some p -> payment_loan p = loan_id ->
       payment_status p = PAID.
Proof.
  unfold all_paid_in. rewrite andb_true_iff, !bool_decide_eq_true.
  rewrite rows_where_and, length_filter_eq, Forall_forall.
  assert ((0 < length (rows_where
             (fun p => bool_decide (payment_loan p = loan_id)) m))%nat
          <-> exists pk p, m !! pk = Some p /\ payment_loan p = loan_id) as ->.
  { pose proof (rows_where_nonempty
                  (fun p => bool_decide (payment_loan p = loan_id)) m) as Hne.
    assert ((exists pk row, m !! pk = Some row
               /\ bool_decide (payment_loan row = loan_id) = true)
            <-> exists pk p, m !! pk = Some p /\ payment_loan p = loan_id) as Hx.
    { split; intros [pk [p [H1 H2]]]; exists pk, p;
        rewrite bool_decide_eq_true in *; done. }
    rewrite <- Hx, <- Hne.
    destruct (rows_where _ m); simpl; [split; [lia|done]|split; [done|lia]]. }
  rewrite (and_comm _ (exists pk p, _)). apply and_iff_compat_l. split.
  - intros H pk p Hp Hl. specialize (H (pk, p)). simpl in H.
    eapply bool_decide_eq_true_1, H, elem_of_rows_where.
    by rewrite bool_decide_eq_true.
  - intros H [pk p] Hin. apply elem_of_rows_where in Hin as [Hp Hl].
    apply bool_decide_eq_true in Hl. simpl. apply bool_decide_eq_true_2. eauto.
Qed.

Lemma pending_of_true loan_id p :
  pending_of loan_id p = true
  <-> payment_loan p = loan_id /\ payment_status p = PENDING.
Proof.
  unfold pending_of. by rewrite andb_true_iff, !bool_decide_eq_true.
Qed.

(** C3: on a FUNDED loan of the calling borrower, [make_payment] without a
    PENDING payment fails with "No pending payments found" and changes
    nothing; a successful call has taken the PENDING payment of the loan
    with the smallest number, has written it back PAID with [paid_at] set to
    now, reports completion exactly when every payment of the loan is then
    PAID, and has set the loan COMPLETED exactly in that case: the row of
    the loan then has the status COMPLETED and its other fields as before,
    and otherwise the loan table is unchanged and the loan still FUNDED; and
    the call does succeed when a PENDING payment exists, the loan has a
    lender and the wallet of the borrower covers the PENDING payments. *)
Theorem C3_make_payment now db loan_id borrower_ loan :
  loans db !! loan_id = Some loan ->
  user_pk (borrower loan) = user_pk borrower_ ->
  status loan = FUNDED ->
  let run := PaymentService.make_payment now loan_id borrower_ db in
  ((forall pk p, payments db !! pk = Some p -> payment_loan p = loan_id ->
      payment_status p <> PENDING) ->
   run = (db, Returned (Failure "No pending payments found")))
  /\ (forall payment completed,
        run.2 = Returned (Success (payment, completed)) ->
        exists p0,
          payments db !! payment.1 = Some p0
          /\ payment_loan p0 = loan_id
          /\ payment_status p0 = PENDING
          /\ (forall pk p, payments db !! pk = Some p ->
                payment_loan p = loan_id -> payment_status p = PENDING ->
                payment_number p0 <= payment_number p)
          /\ payment.2 = mark_as_paid now p0
          /\ payment_status payment.2 = PAID
          /\ paid_at payment.2 = Some now
          /\ payments run.1 = <[payment.1 := payment.2]> (payments db)
          /\ (completed = true <->
              forall pk p, payments run.1 !! pk = Some p ->
                payment_loan p = loan_id -> payment_status p = PAID)
          /\ loans run.1
             = (if completed
                then <[loan_id := mkLoan (borrower loan) (lender loan)
                                    (amount loan) (term_months loan)
                                    (annual_interest_rate loan) COMPLETED
                                    (funded_at loan)]> (loans db)
                else loans db)
          /\ (exists l, loans run.1 !! loan_id = Some l
                /\ status l = if completed then COMPLETED else FUNDED))
  /\ (forall pk p b lender_,
        payments db !! pk = Some p -> payment_loan p = loan_id ->
        payment_status p = PENDING ->
        lender loan = Some lender_ ->
        wallets db !! user_pk borrower_ = Some b ->
        (forall pk' p', payments db !! pk' = Some p' ->
           payment_loan p' = loan_id -> payment_status p' = PENDING ->
           payment_amount p' <= b) ->
        exists payment completed,
          run.2 = Returned (Success (payment, completed))).
Proof.
  intros Hloan Hb Hs run. unfold run.
  rewrite (make_payment_eq now db loan_id borrower_ loan Hloan Hb Hs).
  destruct (PaymentRepository.first_by_payment_number
              (rows_where (pending_of loan_id) (payments db)))
    as [next|] eqn:Hnext.
  - apply first_by_payment_number_Some in Hnext as [Hin Hmin].
    destruct next as [npk nrow].
    apply elem_of_rows_where in Hin as [Hrow Hpend]. cbn [fst snd] in *.
    apply pending_of_true in Hpend as [Hl Hp].
    split; [|split].
    + intros Hno. by destruct (Hno npk nrow).
    + intros payment completed.
      destruct (match wallets db !! user_pk borrower_ with
                | Some b => bool_decide (b >= payment_amount nrow)
                | None => false
                end); [|done].
      destruct (lender loan) as [lender_|] eqn:Hlender; [|done].
      cbn zeta. cbn [fst snd]. intros [= <- <-]. cbn [fst snd].
      exists nrow. repeat split; try done.
      * intros pk p H1 H2 H3.
        apply (Hmin (pk, p)), elem_of_rows_where. split; [done|].
        by apply pending_of_true.
      * cbn [payments]. intros Hall pk p. revert pk p.
        by apply all_paid_in_spec.
      * cbn [payments]. intros Hall. apply all_paid_in_spec. split; [|done].
        exists npk, (mark_as_paid now nrow).
        by rewrite lookup_insert_eq.
      * cbn [loans]. unfold set_status. by rewrite Hlender.
      * cbn [loans]. destruct (all_paid_in _ _).
        -- eexists. by rewrite lookup_insert_eq.
        -- by exists loan.
    + intros pk p b lender_ H1 H2 H3 Hlender Hw Hall. rewrite Hw, Hlender.
      rewrite bool_decide_eq_true_2; [by eexists _, _|].
      apply Z.le_ge. by apply (Hall npk nrow).
  - apply first_by_payment_number_None in Hnext. split; [done|].
    split; [done|]. intros pk p b lender_ H1 H2 H3. exfalso.
    assert ((pk, p) ∈ rows_where (pending_of loan_id) (payments db)) as Hin.
    { apply elem_of_rows_where. split; [done|]. by apply pending_of_true. }
    rewrite Hnext in Hin. by apply elem_of_nil in Hin.
Qed.

Lemma C3_make_payment_witness :
  loans db_funded_loan !! 1%nat = Some funded_loan
  /\ user_pk (borrower funded_loan) = user_pk bob
  /\ status funded_loan = FUNDED
  /\ exists payment completed,
       (PaymentService.make_payment noon 1 bob db_funded_loan).2
       = Returned (Success (payment, completed)).
Proof.
  assert (loans db_funded_loan !! 1%nat = Some funded_loan) as Hloan
    by reflexivity.
  assert (user_pk (borrower funded_loan) = user_pk bob) as Hb by reflexivity.
  assert (status funded_loan = FUNDED) as Hs by reflexivity.
  split; [exact Hloan|]. split; [exact Hb|]. split; [exact Hs|].
  destruct (C3_make_payment noon db_funded_loan 1 bob funded_loan Hloan Hb Hs)
    as [_ [_ H]].
  apply (H 1%nat (installment 1 PENDING) 200000 alice); try reflexivity.
  intros pk' p' Hp _ _. simpl in Hp.
  apply lookup_insert_Some in Hp as [[_ <-]|[_ Hp]]; [simpl; lia|].
  apply lookup_insert_Some in Hp as [[_ <-]|[_ Hp]]; [simpl; lia|].
  by rewrite lookup_empty in Hp.
Defined.

(** ** C2: funding a loan *)

Lemma fund_loan_eq now fee loan_id lender_ db :
  LoanFundingService.fund_loan now fee loan_id lender_ db =
  match loans db !! loan_id with
  | None => (db, Raised LoanNotFoundError)
  | Some loan =>
      if negb (is_lender loan lender_)
      then (db, Raised UnauthorizedLoanAccessError)
      else if negb (bool_decide (status loan = PENDING_FUNDING))
      then (db, Raised InvalidLoanStateError)
      else if negb (match wallets db !! user_pk lender_ with
                    | Some b => bool_decide (b >= amount loan + fee)
                    | None => false
                    end)
      then (db, Raised InsufficientFundsError)
      else
        match WalletService.transfer_funds lender_ (borrower loan)
                (amount loan) LOAN_FUNDING (funding_reference loan_id) db with
        | (db1, Returned (Success _)) =>
            match WalletService.deduct_platform_fee lender_ fee
                    (fee_reference loan_id) db1 with
            | (db2, Returned (Success _)) =>
                match monthly_payment (set_funded now loan) with
                | None => (db, Raised DecimalException)
                | Some monthly =>
                    let rows :=
                      schedule_rows (dt_date now) loan_id
                        (set_funded now loan) monthly in
                    if existsb (payment_conflict (payments db2)) rows
                    then (db, Raised IntegrityError)
                    else
                      (mkDb (wallets db2) (transactions db2)
                         (<[loan_id := set_funded now loan]> (loans db2))
                         (offers db2) (insert_rows rows (payments db2)),
                       Returned (Success (loan_id, set_funded now loan)))
                end
            | (db2, Returned (Failure e)) => (db2, Returned (Failure e))
            | (_, Raised e) => (db, Raised e)
            end
        | (db1, Returned (Failure e)) => (db1, Returned (Failure e))
        | (_, Raised e) => (db, Raised e)
        end
  end.
Proof.
  unfold LoanFundingService.fund_loan, LoanRepository.get_loan_by_id.
  unfold bind at 1. unfold query at 1.
  destruct (loans db !! loan_id) as [loan|]; [|done].
  cbn [fmap option_fmap option_map fst snd].
  destruct (negb (is_lender loan lender_)); [done|].
  destruct (negb (bool_decide (status loan = PENDING_FUNDING))); [done|].
  unfold bind at 1. rewrite check_balance_eq.
  destruct (negb _); [done|].
  unfold atomic, funding_reference, fee_reference. unfold bind at 1.
  destruct (WalletService.transfer_funds _ _ _ _ _ db) as [db1 [[r1|e1]|x1]];
    [|done..].
  unfold bind at 1.
  destruct (WalletService.deduct_platform_fee _ _ _ db1) as [db2 [[r2|e2]|x2]];
    [|done..].
  unfold LoanRepository.update_loan, generate_payment_schedule, bulk_create.
  unfold bind, update, ret, raise. cbn [fst snd].
  destruct (monthly_payment (set_funded now loan)) as [monthly|]; [|done].
  cbn [payments set_loans]. destruct (existsb _ _); done.
Qed.

Lemma insert_rows_spec {A} (rows : list A) (m : gmap nat A) :
  (forall k x, m !! k = Some x -> insert_rows rows m !! k = Some x)
  /\ (forall k x, insert_rows rows m !! k = Some x ->
        m !! k = Some x \/ (m !! k = None /\ x ∈ rows))
  /\ (forall x, x ∈ rows ->
        exists k, m !! k = None /\ insert_rows rows m !! k = Some x)
  /\ size (insert_rows rows m) = (size m + length rows)%nat.
Proof.
  revert m. induction rows as [|row rows IH]; intros m.
  - simpl. repeat split; auto. intros x Hx. by apply elem_of_nil in Hx.
  - change (insert_rows (row :: rows) m)
      with (insert_rows rows (<[next_pk m := row]> m)).
    destruct (IH (<[next_pk m := row]> m)) as [I1 [I2 [I3 I4]]].
    pose proof (next_pk_fresh m) as Hfresh.
    repeat split.
    + intros k x Hk. apply I1. rewrite lookup_insert_ne; [done|].
      intros <-. by rewrite Hfresh in Hk.
    + intros k x Hk. apply I2 in Hk as [Hk|[Hk Hin]].
      * apply lookup_insert_Some in Hk as [[<- <-]|[_ Hk]]; [|by left].
        right. split; [done|apply list_elem_of_here].
      * right. apply lookup_insert_None in Hk as [Hk _].
        split; [done|by apply list_elem_of_further].
    + intros x Hx. apply elem_of_cons in Hx as [->|Hx].
      * exists (next_pk m). split; [done|]. apply I1, lookup_insert_eq.
      * destruct (I3 x Hx) as [k [Hk1 Hk2]]. exists k. split; [|done].
        by apply lookup_insert_None in Hk1 as [Hk1 _].
    + rewrite I4, map_size_insert_None by done. simpl. lia.
Qed.

Lemma schedule_rows_spec today loan_id loan monthly :
  length (schedule_rows today loan_id loan monthly)
  = Z.to_nat (term_months loan)
  /\ forall p, p ∈ schedule_rows today loan_id loan monthly <->
       exists n, 1 <= n <= term_months loan
         /\ p = mkPayment loan_id n
                  (add_months
                     (match funded_at loan with
                      | Some t => dt_date t
                      | None => today
                      end) n)
                  (Dec.rescale monthly (-2)) PENDING None.
Proof.
  unfold schedule_rows. split; [by rewrite length_fmap, length_seqZ|].
  intros p. rewrite list_elem_of_fmap. split.
  - intros [n [-> Hn]]. apply elem_of_seqZ in Hn. exists n. split; [lia|done].
  - intros [n [Hn ->]]. exists n. split; [done|]. apply elem_of_seqZ. lia.
Qed.


(** C2: [fund_loan] is not all or nothing. For the PENDING_FUNDING loan of
    -10.00 whose lender is its borrower, an empty wallet and a fee of 3.75,
    the balance check passes (0 >= -10.00 + 3.75), the transfer is made and
    the fee is refused; the [return] of that failure leaves the atomic block
    normally, so the transfer stays committed: the call reports a failure,
    the balance has gone from 0 to -10.00 and the ledger holds the two
    entries of the transfer, while the loan is still PENDING_FUNDING and has
    no schedule. *)
Lemma C2_fund_loan_partial_commit :
  let run := LoanFundingService.fund_loan noon 375 1 carol db_self_loan in
  run.2 = Returned (Failure "Insufficient funds for platform fee")
  /\ balance_of db_self_loan 3 = 0
  /\ balance_of run.1 3 = -1000
  /\ transactions db_self_loan = []
  /\ transactions run.1
     = [mkTransaction 3 LOAN_FUNDING 1000 "Transfer to carol"
          (Some "loan_1");
        mkTransaction 3 LOAN_FUNDING (-1000) "Transfer from carol"
          (Some "loan_1")]
  /\ loans run.1 = loans db_self_loan
  /\ loans db_self_loan !! 1%nat
     = Some (mkLoan carol (Some carol) (-1000) 1 1200 PENDING_FUNDING None)
  /\ payments run.1 = ∅.
Proof. by vm_compute. Qed.



(** ** C10: an OVERDUE payment blocks completion *)

Global Instance overdue_kept_preorder : PreOrder overdue_kept.
Proof.
  split.
  - intros db. split; auto.
  - intros x y z [P1 L1] [P2 L2]. split.
    + intros pk p Hp Ho. apply P2; [|done]. by apply P1.
    + intros l Ho Hn. apply L2; [|by apply L1].
      destruct Ho as [pk [p [H1 [H2 H3]]]]. exists pk, p. split; [|done].
      by apply P1.
Qed.

Lemma overdue_kept_same db db' :
  payments db' = payments db -> loans db' = loans db -> overdue_kept db db'.
Proof.
  intros Hp Hl. split.
  - intros pk p. by rewrite Hp.
  - intros l _. unfold not_completed. by rewrite Hl.
Qed.

Lemma steps_overdue_same {A} (m : M A) :
  (forall db, payments (m db).1 = payments db /\ loans (m db).1 = loans db) ->
  steps overdue_kept m.
Proof. intros H db. destruct (H db). by apply overdue_kept_same. Qed.

Lemma steps_overdue_get_or_create u :
  steps overdue_kept (WalletService.get_or_create_wallet u).
Proof.
  apply steps_overdue_same. intros db. rewrite get_or_create_wallet_eq. simpl.
  by destruct (wallets db !! user_pk u).
Qed.

Lemma steps_overdue_deposit u a d :
  steps overdue_kept (WalletService.deposit_funds u a d).
Proof. apply steps_overdue_same. intros db. by rewrite deposit_funds_eq. Qed.

Lemma steps_overdue_withdraw u a d :
  steps overdue_kept (WalletService.withdraw_funds u a d).
Proof.
  apply steps_overdue_same. intros db. rewrite withdraw_funds_eq.
  destruct (wallets db !! user_pk u); [|done]. by case_bool_decide.
Qed.

Lemma steps_overdue_transfer f t a k r :
  steps overdue_kept (WalletService.transfer_funds f t a k r).
Proof.
  apply steps_overdue_same. intros db. rewrite transfer_funds_eq. simpl.
  rewrite get_or_create_wallet_eq. simpl.
  destruct (wallets db !! user_pk f); [case_bool_decide|];
    by destruct (wallets db !! user_pk t).
Qed.

Lemma steps_overdue_fee u a r :
  steps overdue_kept (WalletService.deduct_platform_fee u a r).
Proof.
  apply steps_overdue_same. intros db. rewrite deduct_platform_fee_eq.
  destruct (wallets db !! user_pk u); [|done]. by case_bool_decide.
Qed.

Lemma steps_overdue_check_balance u a :
  steps overdue_kept (WalletService.check_balance u a).
Proof. apply steps_overdue_same. intros db. by rewrite check_balance_eq. Qed.

Lemma steps_overdue_create_offer loan lender_ rate :
  steps overdue_kept (OfferRepository.create_offer loan lender_ rate).
Proof. by apply steps_overdue_same. Qed.

Lemma steps_overdue_accept_offer offer :
  steps overdue_kept (OfferRepository.accept_offer offer).
Proof. by apply steps_overdue_same. Qed.

Lemma steps_overdue_update_loan loan set :
  status (set loan.2) <> COMPLETED ->
  steps overdue_kept (LoanRepository.update_loan loan set).
Proof.
  intros Hs db. unfold LoanRepository.update_loan, bind, update, ret. simpl.
  split; [done|]. intros l _ Hn loan'. simpl.
  destruct (decide (loan.1 = l)) as [<-|ne].
  - rewrite lookup_insert_eq. by intros [= <-].
  - rewrite lookup_insert_ne by done. apply Hn.
Qed.

Lemma steps_overdue_schedule today loan_id loan :
  steps overdue_kept (generate_payment_schedule today loan_id loan).
Proof.
  intros db. unfold generate_payment_schedule.
  destruct (monthly_payment loan); [|reflexivity]. unfold bulk_create.
  destruct (existsb _ _); [reflexivity|]. simpl. split; [|done].
  intros pk p Hp _. by apply insert_rows_spec.
Qed.

Lemma set_payment_status_same p :
  set_payment_status (payment_status p) p = p.
Proof. by destruct p. Qed.

Lemma steps_overdue_save_status pk :
  steps overdue_kept (Tasks.save_status pk OVERDUE).
Proof.
  intros db. unfold Tasks.save_status, update, set_payments.
  cbn [fst snd payments loans]. split; [|done].
  intros k p Hp Ho. cbn [payments].
  destruct (decide (pk = k)) as [->|ne].
  - rewrite lookup_alter_eq, Hp. cbn [fmap option_fmap option_map].
    by rewrite <- Ho, set_payment_status_same.
  - by rewrite lookup_alter_ne.
Qed.

Global Hint Resolve steps_overdue_get_or_create steps_overdue_deposit
  steps_overdue_withdraw steps_overdue_transfer steps_overdue_fee
  steps_overdue_check_balance steps_overdue_create_offer
  steps_overdue_accept_offer steps_overdue_schedule
  steps_overdue_save_status : steps.

Global Hint Extern 1 (steps overdue_kept (LoanRepository.update_loan _ _)) =>
  apply steps_overdue_update_loan; discriminate : steps.

Lemma steps_overdue_mark_overdue rows acc :
  steps overdue_kept (Tasks.mark_overdue rows acc).
Proof.
  revert acc. induction rows as [|p rows IH]; intros acc; simpl.
  - apply steps_ret, _.
  - apply steps_bind; [apply _|auto with steps|intros ?].
    apply steps_bind; [apply _|apply steps_query, _|intros b].
    destruct acc as [[? ?] ?]. apply IH.
Qed.

Global Hint Resolve steps_overdue_mark_overdue : steps.

(** [make_payment] writes a payment that was PENDING, and completes the loan
    only when all its payments are PAID. *)
Lemma steps_overdue_make_payment now loan_id borrower_ :
  steps overdue_kept (PaymentService.make_payment now loan_id borrower_).
Proof.
  intros db.
  destruct (loans db !! loan_id) as [loan|] eqn:Hloan.
  2:{ unfold PaymentService.make_payment, LoanRepository.get_loan_by_id.
      unfold bind at 1. unfold query at 1. rewrite Hloan. reflexivity. }
  destruct (decide (user_pk (borrower loan) = user_pk borrower_)) as [Hb|Hb].
  2:{ unfold PaymentService.make_payment, LoanRepository.get_loan_by_id.
      unfold bind at 1. unfold query at 1. rewrite Hloan. simpl.
      unfold user_eqb. rewrite bool_decide_eq_false_2 by done. reflexivity. }
  destruct (decide (status loan = FUNDED)) as [Hs|Hs].
  2:{ unfold PaymentService.make_payment, LoanRepository.get_loan_by_id.
      unfold bind at 1. unfold query at 1. rewrite Hloan. simpl.
      unfold user_eqb. rewrite bool_decide_eq_true_2 by done.
      rewrite bool_decide_eq_false_2 by done. reflexivity. }
  rewrite (make_payment_eq now db loan_id borrower_ loan Hloan Hb Hs).
  destruct (PaymentRepository.first_by_payment_number _) as [[npk nrow]|] eqn:Hn;
    [|reflexivity].
  apply first_by_payment_number_Some in Hn as [Hin _].
  apply elem_of_rows_where in Hin as [Hrow Hpend].
  apply pending_of_true in Hpend as [Hl Hp].
  destruct (match wallets db !! user_pk borrower_ with
            | Some b => bool_decide (b >= payment_amount (npk, nrow).2)
            | None => false
            end); [|reflexivity].
  destruct (lender loan) as [lender_|]; [|reflexivity].
  cbn zeta. cbn [fst snd]. 
  assert (forall pk p, payments db !! pk = Some p -> payment_status p = OVERDUE ->
            <[npk := mark_as_paid now nrow]> (payments db) !! pk = Some p) as K.
  { intros pk p Hpk Ho. rewrite lookup_insert_ne; [done|]. intros <-.
    rewrite Hrow in Hpk. injection Hpk as <-. congruence. }
  split; [exact K|]. intros l [pk [p [H1 [H2 H3]]]] Hnc loan'.
  cbn [loans].
  destruct (all_paid_in loan_id (<[npk:=mark_as_paid now nrow]> (payments db)))
    eqn:Hall; [|apply Hnc].
  destruct (decide (loan_id = l)) as [<-|ne];
    [|rewrite lookup_insert_ne by done; apply Hnc].
  apply all_paid_in_spec in Hall as [_ Hall].
  specialize (Hall pk p (K pk p H1 H3) H2). congruence.
Qed.

Global Hint Resolve steps_overdue_make_payment : steps.

Lemma steps_overdue_run_op op db : overdue_kept db (run_op op db).
Proof.
  destruct op; simpl;
    match goal with
    | |- _ ?d (?m ?d).1 => generalize d; change (steps overdue_kept m)
    end;
    [ auto with steps .. | | | | | ].
  - unfold OfferService.create_offer, LoanRepository.get_loan_by_id,
      OfferRepository.check_existing_offer.
    steps_tac.
  - unfold OfferService.accept_offer, OfferService.accept_offer_checks,
      OfferService.accept_offer_writes, LoanRepository.get_loan_by_id,
      OfferRepository.get_offer_by_id.
    steps_tac.
  - unfold LoanFundingService.fund_loan, LoanRepository.get_loan_by_id.
    steps_tac.
  - auto with steps.
  - unfold Tasks.check_overdue_payments. steps_tac.
Qed.

Lemma overdue_kept_run_ops ops db : overdue_kept db (run_ops ops db).
Proof.
  revert db. induction ops as [|op ops IH]; intros db; simpl.
  - reflexivity.
  - etrans; [apply steps_overdue_run_op|apply IH].
Qed.

Lemma make_payment_success_inv now loan_id borrower_ db x :
  (PaymentService.make_payment now loan_id borrower_ db).2
  = Returned (Success x) ->
  exists loan,
    loans db !! loan_id = Some loan
    /\ user_pk (borrower loan) = user_pk borrower_
    /\ status loan = FUNDED.
Proof.
  unfold PaymentService.make_payment, LoanRepository.get_loan_by_id.
  unfold bind at 1. unfold query at 1.
  destruct (loans db !! loan_id) as [loan|]; [|done].
  cbn [fmap option_fmap option_map fst snd]. unfold user_eqb.
  case_bool_decide; [|done]. case_bool_decide; [|done]. intros _.
  by exists loan.
Qed.

(** C10: once a payment of a loan is OVERDUE and the loan is not COMPLETED,
    then after any sequence of core operations the payment is still the
    same OVERDUE row (no operation turns it PAID) and the loan is still not
    COMPLETED; a [make_payment] that succeeds then has taken a payment that
    was PENDING, never the OVERDUE one, and reports that the loan is not
    completed, because completion needs every payment of the loan PAID. *)
Theorem C10_overdue_blocks_completion ops db loan_id pk p :
  payments db !! pk = Some p ->
  payment_loan p = loan_id ->
  payment_status p = OVERDUE ->
  (forall loan, loans db !! loan_id = Some loan -> status loan <> COMPLETED) ->
  let db' := run_ops ops db in
  payments db' !! pk = Some p
  /\ (forall loan, loans db' !! loan_id = Some loan -> status loan <> COMPLETED)
  /\ (forall now borrower_ payment completed,
        (PaymentService.make_payment now loan_id borrower_ db').2
        = Returned (Success (payment, completed)) ->
        payment.1 <> pk
        /\ (exists p0, payments db' !! payment.1 = Some p0
              /\ payment_status p0 = PENDING)
        /\ completed = false
        /\ forall loan,
             loans (PaymentService.make_payment now loan_id borrower_ db').1
               !! loan_id = Some loan ->
             status loan <> COMPLETED).
Proof.
  intros Hp Hl Ho Hn db'.
  destruct (overdue_kept_run_ops ops db) as [P L]. fold db' in P, L.
  assert (payments db' !! pk = Some p) as Hp' by (by apply P).
  assert (not_completed db' loan_id) as Hn'.
  { apply L; [|done]. by exists pk, p. }
  split; [done|]. split; [done|].
  intros now borrower_ payment completed E.
  destruct (make_payment_success_inv _ _ _ _ _ E) as [loan [H1 [H2 H3]]].
  pose proof (steps_overdue_make_payment now loan_id borrower_ db') as [P2 L2].
  revert E P2 L2.
  rewrite (make_payment_eq now db' loan_id borrower_ loan H1 H2 H3).
  destruct (PaymentRepository.first_by_payment_number _)
    as [[npk nrow]|] eqn:Hnext; [|done].
  apply first_by_payment_number_Some in Hnext as [Hin _].
  apply elem_of_rows_where in Hin as [Hrow Hpend].
  apply pending_of_true in Hpend as [Hnl Hnp].
  destruct (match wallets db' !! user_pk borrower_ with
            | Some b => bool_decide (b >= payment_amount (npk, nrow).2)
            | None => false
            end); [|done].
  destruct (lender loan) as [lender_|]; [|done].
  cbn zeta. cbn [fst snd]. intros [= <- <-] P2 L2. cbn [fst snd].
  assert (npk <> pk) as Hne by (intros ->; congruence).
  split; [done|]. split; [by exists nrow|].
  assert (all_paid_in loan_id (<[npk:=mark_as_paid now nrow]> (payments db'))
          = false) as Hall.
  { destruct (all_paid_in _ _) eqn:Hall; [|done].
    apply all_paid_in_spec in Hall as [_ Hall].
    specialize (Hall pk p). rewrite lookup_insert_ne in Hall by done.
    specialize (Hall Hp' Hl). congruence. }
  split; [done|].
  apply L2; [by exists pk, p|done].
Qed.

Lemma C10_overdue_blocks_completion_witness :
  payments db_overdue_loan !! 1%nat = Some (installment 1 OVERDUE)
  /\ payment_loan (installment 1 OVERDUE) = 1%nat
  /\ payment_status (installment 1 OVERDUE) = OVERDUE
  /\ (forall loan, loans db_overdue_loan !! 1%nat = Some loan ->
        status loan <> COMPLETED)
  /\ forall loan,
       loans (run_ops [OpMakePayment noon 1 bob; OpMakePayment noon 1 bob;
                       OpSweep (mkDate 2025 1 1)] db_overdue_loan)
         !! 1%nat = Some loan ->
       status loan <> COMPLETED.
Proof.
  assert (payments db_overdue_loan !! 1%nat = Some (installment 1 OVERDUE))
    as H1 by reflexivity.
  assert (payment_loan (installment 1 OVERDUE) = 1%nat) as H2 by reflexivity.
  assert (payment_status (installment 1 OVERDUE) = OVERDUE) as H3
    by reflexivity.
  assert (forall loan, loans db_overdue_loan !! 1%nat = Some loan ->
            status loan <> COMPLETED) as H4.
  { intros loan Hl. simpl in Hl. rewrite lookup_insert_eq in Hl.
    injection Hl as <-. discriminate. }
  split; [exact H1|]. split; [exact H2|]. split; [exact H3|].
  split; [exact H4|].
  apply (C10_overdue_blocks_completion
           [OpMakePayment noon 1 bob; OpMakePayment noon 1 bob;
            OpSweep (mkDate 2025 1 1)]
           db_overdue_loan 1 1 (installment 1 OVERDUE) H1 H2 H3 H4).
Defined.

(** ** C7: two acceptances of offers of one loan *)

(** A call that runs alone takes its two steps one after the other. *)
Lemma thread_runs_accept_offer loan_id offer_id borrower_ db :
  (t <- thread_step (Called loan_id offer_id borrower_) ;; thread_step t) db
  = (r <- OfferService.accept_offer loan_id offer_id borrower_ ;;
     ret (Finished r)) db.
Proof.
  unfold OfferService.accept_offer, thread_step, bind.
  destruct (OfferService.accept_offer_checks loan_id offer_id borrower_ db)
    as [db1 [[[loan offer]|e]|e]]; done.
Qed.

Lemma accept_offer_checks_eq loan_id offer_id borrower_ db :
  OfferService.accept_offer_checks loan_id offer_id borrower_ db =
  (db,
   Returned
     match loans db !! loan_id with
     | None => Failure "Loan not found"
     | Some loan =>
         if negb (bool_decide (user_pk (borrower loan) = user_pk borrower_))
         then Failure "You can only accept offers on your own loans"
         else if negb (bool_decide (status loan = REQUESTED))
         then Failure "Loan is not available for offer acceptance"
         else
           match offers db !! offer_id with
           | None => Failure "Offer not found"
           | Some offer =>
               if negb (bool_decide (offer_loan offer = loan_id))
               then Failure "Offer not found"
               else if accepted offer
               then Failure "Offer has already been accepted"
               else Success ((loan_id, loan), (offer_id, offer))
           end
     end).
Proof.
  unfold OfferService.accept_offer_checks, LoanRepository.get_loan_by_id,
    OfferRepository.get_offer_by_id, user_eqb.
  unfold bind at 1. unfold query at 1.
  destruct (loans db !! loan_id) as [loan|]; [|done].
  cbn [fmap option_fmap option_map fst snd].
  destruct (negb (bool_decide (user_pk (borrower loan) = user_pk borrower_)));
    [done|].
  destruct (negb (bool_decide (status loan = REQUESTED))); [done|].
  unfold bind, query.
  destruct (offers db !! offer_id) as [offer|]; [|done].
  cbn [fmap option_fmap option_map fst snd].
  destruct (negb (bool_decide (offer_loan offer = loan_id))); [done|].
  by destruct (accepted offer).
Qed.

Lemma accept_offer_writes_eq loan offer db :
  OfferService.accept_offer_writes loan offer db =
  (mkDb (wallets db) (transactions db)
     (<[loan.1 := set_accepted_terms offer.2 loan.2]> (loans db))
     (<[offer.1 := mkOffer (offer_loan offer.2) (offer_lender offer.2)
                     (offer_rate offer.2) true]> (offers db))
     (payments db),
   Returned (Success (loan.1, set_accepted_terms offer.2 loan.2))).
Proof. reflexivity. Qed.

(** C7 as stated fails: the status of the loan is checked when the loan is
    read and written later without a condition. When both calls make their
    checks before either writes, both succeed, both offers end accepted,
    and the loan carries the lender of the call that wrote last. *)
Lemma C7_interleaved_counterexample :
  let run :=
    run_schedule [FirstCall; SecondCall; FirstCall; SecondCall]
      (Called 1 1 bob, Called 1 2 bob) db_two_offers in
  (exists t1 t2,
     run.2 = Returned (t1, t2)
     /\ succeeded t1 = true /\ succeeded t2 = true)
  /\ (lender <$> loans run.1 !! 1%nat) = Some (Some dave)
  /\ (accepted <$> offers run.1 !! 1%nat) = Some true
  /\ (accepted <$> offers run.1 !! 2%nat) = Some true.
Proof. vm_compute. split; [eexists _, _; done|done]. Qed.

Lemma accept_offer_first db loan_id o borrower_ loan offer :
  loans db !! loan_id = Some loan -> status loan = REQUESTED ->
  user_pk (borrower loan) = user_pk borrower_ ->
  offers db !! o = Some offer -> offer_loan offer = loan_id ->
  accepted offer = false ->
  thread_step (Called loan_id o borrower_) db
  = (db, Returned (Checked (loan_id, loan) (o, offer))).
Proof.
  intros Hl Hs Hb Ho Hol Ha. unfold thread_step, bind.
  rewrite accept_offer_checks_eq, Hl, Ho.
  rewrite !bool_decide_eq_true_2 by done. by rewrite Ha.
Qed.

Lemma accept_offer_late db loan_id o borrower_ loan :
  loans db !! loan_id = Some loan -> status loan <> REQUESTED ->
  user_pk (borrower loan) = user_pk borrower_ ->
  thread_step (Called loan_id o borrower_) db
  = (db, Returned
           (Finished (Failure "Loan is not available for offer acceptance"))).
Proof.
  intros Hl Hs Hb. unfold thread_step, bind.
  rewrite accept_offer_checks_eq, Hl.
  rewrite bool_decide_eq_true_2 by done.
  by rewrite bool_decide_eq_false_2.
Qed.

(** C7, as the code has it, for two calls on distinct offers of one
    REQUESTED loan that run one after the other, in either order: the call
    that runs first succeeds; the other fails with the invalid-state message
    and changes nothing, so the database is the one the winner alone leaves;
    the loan ends PENDING_FUNDING with the lender of the winner's offer, and
    only the winner's offer is accepted. The write of a call is
    unconditional: it succeeds on any database, whatever the status of the
    loan has become since the call made its checks. *)
Theorem C7_one_after_the_other db loan_id o1 o2 borrower_ loan offer1 offer2 :
  loans db !! loan_id = Some loan -> status loan = REQUESTED ->
  user_pk (borrower loan) = user_pk borrower_ ->
  o1 <> o2 ->
  offers db !! o1 = Some offer1 -> offers db !! o2 = Some offer2 ->
  offer_loan offer1 = loan_id -> offer_loan offer2 = loan_id ->
  accepted offer1 = false -> accepted offer2 = false ->
  let calls := (Called loan_id o1 borrower_, Called loan_id o2 borrower_) in
  let first_wins :=
    run_schedule [FirstCall; FirstCall; SecondCall; SecondCall] calls db in
  let second_wins :=
    run_schedule [SecondCall; SecondCall; FirstCall; FirstCall] calls db in
  first_wins
  = ((OfferService.accept_offer loan_id o1 borrower_ db).1,
     Returned
       (Finished (Success (loan_id, set_accepted_terms offer1 loan)),
        Finished (Failure "Loan is not available for offer acceptance")))
  /\ second_wins
     = ((OfferService.accept_offer loan_id o2 borrower_ db).1,
        Returned
          (Finished (Failure "Loan is not available for offer acceptance"),
           Finished (Success (loan_id, set_accepted_terms offer2 loan))))
  /\ loans first_wins.1 !! loan_id = Some (set_accepted_terms offer1 loan)
  /\ lender (set_accepted_terms offer1 loan) = Some (offer_lender offer1)
  /\ status (set_accepted_terms offer1 loan) = PENDING_FUNDING
  /\ (accepted <$> offers first_wins.1 !! o1) = Some true
  /\ offers first_wins.1 !! o2 = Some offer2
  /\ loans second_wins.1 !! loan_id = Some (set_accepted_terms offer2 loan)
  /\ lender (set_accepted_terms offer2 loan) = Some (offer_lender offer2)
  /\ (accepted <$> offers second_wins.1 !! o2) = Some true
  /\ offers second_wins.1 !! o1 = Some offer1
  /\ (forall db0,
        (OfferService.accept_offer_writes (loan_id, loan) (o1, offer1) db0).2
        = Returned (Success (loan_id, set_accepted_terms offer1 loan))).
Proof.
  intros Hl Hs Hb Hne Ho1 Ho2 Hl1 Hl2 Ha1 Ha2 calls first_wins second_wins.
  assert (forall o offer, offers db !! o = Some offer ->
            offer_loan offer = loan_id -> accepted offer = false ->
            OfferService.accept_offer loan_id o borrower_ db
            = (mkDb (wallets db) (transactions db)
                 (<[loan_id := set_accepted_terms offer loan]> (loans db))
                 (<[o := mkOffer (offer_loan offer) (offer_lender offer)
                           (offer_rate offer) true]> (offers db))
                 (payments db),
               Returned (Success (loan_id, set_accepted_terms offer loan))))
    as Halone.
  { intros o offer Ho Hol Ha. unfold OfferService.accept_offer, bind.
    rewrite accept_offer_checks_eq, Hl, Ho.
    rewrite !bool_decide_eq_true_2 by done. by rewrite Ha. }
  assert (forall o offer o' (t : Thread),
            offers db !! o = Some offer ->
            offer_loan offer = loan_id -> accepted offer = false ->
            let db1 := (OfferService.accept_offer loan_id o borrower_ db).1 in
            thread_step (Checked (loan_id, loan) (o, offer)) db
            = (db1, Returned
                      (Finished
                         (Success (loan_id, set_accepted_terms offer loan))))
            /\ thread_step (Called loan_id o' borrower_) db1
               = (db1, Returned
                         (Finished
                            (Failure
                               "Loan is not available for offer acceptance"))))
    as Hrun.
  { intros o offer o' t Ho Hol Ha db1. unfold db1.
    rewrite (Halone o offer Ho Hol Ha). cbn [fst]. split; [done|].
    apply (accept_offer_late _ _ _ _ (set_accepted_terms offer loan));
      [apply lookup_insert_eq|done|done]. }
  destruct (Hrun o1 offer1 o2 (Called loan_id o2 borrower_) Ho1 Hl1 Ha1)
    as [R1 R2].
  destruct (Hrun o2 offer2 o1 (Called loan_id o1 borrower_) Ho2 Hl2 Ha2)
    as [S1 S2].
  assert (first_wins
          = ((OfferService.accept_offer loan_id o1 borrower_ db).1,
             Returned
               (Finished (Success (loan_id, set_accepted_terms offer1 loan)),
                Finished
                  (Failure "Loan is not available for offer acceptance"))))
    as E1.
  { unfold first_wins, calls. cbn [run_schedule fst snd].
    unfold bind at 1.
    rewrite (accept_offer_first db loan_id o1 borrower_ loan offer1) by done.
    unfold bind at 1. rewrite R1. unfold bind at 1. rewrite R2.
    unfold bind. cbn [thread_step]. reflexivity. }
  assert (second_wins
          = ((OfferService.accept_offer loan_id o2 borrower_ db).1,
             Returned
               (Finished
                  (Failure "Loan is not available for offer acceptance"),
                Finished (Success (loan_id, set_accepted_terms offer2 loan)))))
    as E2.
  { unfold second_wins, calls. cbn [run_schedule fst snd].
    unfold bind at 1.
    rewrite (accept_offer_first db loan_id o2 borrower_ loan offer2) by done.
    unfold bind at 1. rewrite S1. unfold bind at 1. rewrite S2.
    unfold bind. cbn [thread_step]. reflexivity. }
  rewrite E1, E2. rewrite (Halone o1 offer1), (Halone o2 offer2) by done.
  cbn [fst snd loans offers].
  rewrite !lookup_insert_eq. rewrite !lookup_insert_ne by done.
  repeat split; done.
Qed.

Lemma C7_one_after_the_other_witness :
  let loan := mkLoan bob None 100000 6 1200 REQUESTED None in
  run_schedule [FirstCall; FirstCall; SecondCall; SecondCall]
    (Called 1 1 bob, Called 1 2 bob) db_two_offers
  = ((OfferService.accept_offer 1 1 bob db_two_offers).1,
     Returned
       (Finished (Success (1%nat,
                           set_accepted_terms (mkOffer 1 alice 1000 false) loan)),
        Finished (Failure "Loan is not available for offer acceptance"))).
Proof.
  intros loan.
  apply (C7_one_after_the_other db_two_offers 1 1 2 bob loan
           (mkOffer 1 alice 1000 false) (mkOffer 1 dave 900 false));
    try reflexivity.
  lia.
Defined.

(** * Further properties *)

Ltac rows_cases :=
  repeat match goal with
  | H : <[_ := _]> _ !! _ = Some _ |- _ =>
      apply lookup_insert_Some in H as [[? ?]|[? H]]; [simplify_eq|try done]
  | H : ∅ !! _ = Some _ |- _ => by rewrite lookup_empty in H
  | H : {[_ := _]} !! _ = Some _ |- _ =>
      apply lookup_singleton_Some in H as [? ?]; simplify_eq
  end.

Ltac rows_solve :=
  rows_cases; simpl in *; rows_cases;
  try first [ done | congruence | by vm_compute | by eexists
            | by (simplify_eq/=; vm_compute) ].

(** ** What an operation can do *)

Lemma wallet_call_tables c db :
  loans (run_wallet_call c db) = loans db
  /\ offers (run_wallet_call c db) = offers db
  /\ payments (run_wallet_call c db) = payments db.
Proof.
  destruct c; simpl.
  - rewrite get_or_create_wallet_eq. simpl. by destruct (wallets db !! _).
  - by rewrite deposit_funds_eq.
  - rewrite withdraw_funds_eq. destruct (wallets db !! _); [|done].
    by case_bool_decide.
  - rewrite transfer_funds_eq. cbn zeta. rewrite get_or_create_wallet_eq. simpl.
    destruct (wallets db !! user_pk from_user);
      [case_bool_decide|]; simpl; try done;
      by destruct (wallets db !! user_pk to_user).
  - rewrite deduct_platform_fee_eq. destruct (wallets db !! _); [|done].
    by case_bool_decide.
Qed.

Lemma create_offer_eq db loan_id lender_ rate :
  OfferService.create_offer loan_id lender_ rate db =
  if negb (bool_decide (role lender_ = LENDER))
  then (db, Returned (Failure "Only lenders can make offers"))
  else
    match loans db !! loan_id with
    | None => (db, Returned (Failure "Loan not found"))
    | Some loan =>
        if negb (bool_decide (status loan = REQUESTED))
        then (db, Returned (Failure "Loan is not available for offers"))
        else if bool_decide (user_pk (borrower loan) = user_pk lender_)
        then (db, Returned (Failure "Cannot make offer on your own loan"))
        else if bool_decide (has_offer db loan_id lender_)
        then (db, Returned
                    (Failure "You have already made an offer on this loan"))
        else
          (set_offers
             (fun m => <[next_pk m := mkOffer loan_id lender_ rate false]> m)
             db,
           Returned
             (Success (next_pk (offers db),
                       mkOffer loan_id lender_ rate false)))
    end.
Proof.
  unfold OfferService.create_offer, LoanRepository.get_loan_by_id.
  destruct (negb (bool_decide (role lender_ = LENDER))); [done|].
  unfold bind at 1. unfold query at 1.
  destruct (loans db !! loan_id) as [loan|]; [|done].
  cbn [fmap option_fmap option_map fst snd].
  destruct (negb (bool_decide (status loan = REQUESTED))); [done|].
  unfold user_eqb.
  destruct (bool_decide (user_pk (borrower loan) = user_pk lender_)); [done|].
  unfold bind at 1.
  pose proof (check_existing_offer_spec db (loan_id, loan) lender_) as Hc.
  destruct (OfferRepository.check_existing_offer (loan_id, loan) lender_ db)
    as [db1 o] eqn:E.
  assert (db1 = db) as ->
    by (unfold OfferRepository.check_existing_offer, query in E; congruence).
  simpl in Hc. rewrite Hc.
  by destruct (bool_decide (has_offer db loan_id lender_)).
Qed.

Lemma accept_offer_eq db loan_id offer_id borrower_ :
  OfferService.accept_offer loan_id offer_id borrower_ db =
  match (OfferService.accept_offer_checks loan_id offer_id borrower_ db).2 with
  | Returned (Success (loan, offer)) =>
      OfferService.accept_offer_writes loan offer db
  | Returned (Failure e) => (db, Returned (Failure e))
  | Raised e => (db, Raised e)
  end.
Proof.
  unfold OfferService.accept_offer. unfold bind at 1.
  rewrite accept_offer_checks_eq. cbn [snd].
  by repeat case_match.
Qed.

Lemma accept_offer_cases db loan_id offer_id borrower_ :
  (exists e, OfferService.accept_offer loan_id offer_id borrower_ db
             = (db, Returned (Failure e)))
  \/ exists loan offer,
       loans db !! loan_id = Some loan
       /\ user_pk (borrower loan) = user_pk borrower_
       /\ status loan = REQUESTED
       /\ offers db !! offer_id = Some offer
       /\ offer_loan offer = loan_id
       /\ accepted offer = false
       /\ OfferService.accept_offer loan_id offer_id borrower_ db
          = (mkDb (wallets db) (transactions db)
               (<[loan_id := set_accepted_terms offer loan]> (loans db))
               (<[offer_id := mkOffer (offer_loan offer) (offer_lender offer)
                                (offer_rate offer) true]> (offers db))
               (payments db),
             Returned (Success (loan_id, set_accepted_terms offer loan))).
Proof.
  rewrite accept_offer_eq, accept_offer_checks_eq. cbn [snd].
  destruct (loans db !! loan_id) as [loan|] eqn:Hl; [|left; by eexists].
  case_bool_decide as Hb; cbn [negb]; [|left; by eexists].
  case_bool_decide as Hs; cbn [negb]; [|left; by eexists].
  destruct (offers db !! offer_id) as [offer|] eqn:Ho; [|left; by eexists].
  case_bool_decide as Hol; cbn [negb]; [|left; by eexists].
  destruct (accepted offer) eqn:Ha; [left; by eexists|].
  right. exists loan, offer. rewrite accept_offer_writes_eq. done.
Qed.

Lemma make_payment_cases now db loan_id borrower_ :
  (exists e, PaymentService.make_payment now loan_id borrower_ db
             = (db, Returned (Failure e)))
  \/ (PaymentService.make_payment now loan_id borrower_ db
      = (db, Raised IntegrityError)
      /\ exists loan, loans db !! loan_id = Some loan
           /\ status loan = FUNDED /\ lender loan = None)
  \/ exists loan lender_ pk p db1 r1,
       loans db !! loan_id = Some loan
       /\ user_pk (borrower loan) = user_pk borrower_
       /\ status loan = FUNDED
       /\ lender loan = Some lender_
       /\ PaymentRepository.first_by_payment_number
            (rows_where (pending_of loan_id) (payments db)) = Some (pk, p)
       /\ WalletService.transfer_funds borrower_ lender_ (payment_amount p)
            LOAN_PAYMENT (Some ("payment_" +:+ pretty pk)) db
          = (db1, Returned (Success r1))
       /\ PaymentService.make_payment now loan_id borrower_ db
          = (mkDb (wallets db1) (transactions db1)
               (if all_paid_in loan_id
                     (<[pk := mark_as_paid now p]> (payments db))
                then <[loan_id := set_status COMPLETED loan]> (loans db)
                else loans db)
               (offers db) (<[pk := mark_as_paid now p]> (payments db)),
             Returned (Success ((pk, mark_as_paid now p),
                                all_paid_in loan_id
                                  (<[pk := mark_as_paid now p]> (payments db))))).
Proof.
  destruct (loans db !! loan_id) as [loan|] eqn:Hl.
  2:{ left. unfold PaymentService.make_payment, LoanRepository.get_loan_by_id.
      unfold bind at 1. unfold query at 1. rewrite Hl. by eexists. }
  destruct (decide (user_pk (borrower loan) = user_pk borrower_)) as [Hb|Hb].
  2:{ left. unfold PaymentService.make_payment, LoanRepository.get_loan_by_id.
      unfold bind at 1. unfold query at 1. rewrite Hl.
      cbn [fmap option_fmap option_map fst snd]. unfold user_eqb.
      rewrite bool_decide_eq_false_2 by done. by eexists. }
  destruct (decide (status loan = FUNDED)) as [Hs|Hs].
  2:{ left. unfold PaymentService.make_payment, LoanRepository.get_loan_by_id.
      unfold bind at 1. unfold query at 1. rewrite Hl.
      cbn [fmap option_fmap option_map fst snd]. unfold user_eqb.
      rewrite bool_decide_eq_true_2 by done.
      rewrite bool_decide_eq_false_2 by done. by eexists. }
  rewrite (make_payment_eq now db loan_id borrower_ loan Hl Hb Hs).
  destruct (PaymentRepository.first_by_payment_number _) as [[pk p]|] eqn:Hn;
    [|left; by eexists].
  cbn [fst snd].
  destruct (wallets db !! user_pk borrower_) as [b|] eqn:Hw;
    [|left; by eexists].
  case_bool_decide as Hge; [|left; by eexists].
  destruct (lender loan) as [lender_|] eqn:Hlender;
    [|right; left; split; [done|by exists loan]].
  right. right. exists loan, lender_, pk, p.
  pose proof (transfer_funds_eq db (payment_amount p) borrower_ lender_
                LOAN_PAYMENT (Some ("payment_" +:+ pretty pk))) as Ht.
  cbn zeta in Ht. rewrite Hw in Ht. rewrite bool_decide_eq_true_2 in Ht by done.
  eexists _, _. repeat split; try done. rewrite Ht. done.
Qed.

Lemma transfer_funds_returns f t a k r db :
  exists x, (WalletService.transfer_funds f t a k r db).2 = Returned x.
Proof.
  rewrite transfer_funds_eq. cbn zeta.
  destruct (wallets db !! user_pk f); [case_bool_decide|]; by eexists.
Qed.

Lemma deduct_platform_fee_returns u a r db :
  exists x, (WalletService.deduct_platform_fee u a r db).2 = Returned x.
Proof.
  rewrite deduct_platform_fee_eq.
  destruct (wallets db !! user_pk u); [case_bool_decide|]; by eexists.
Qed.

Lemma fee_failure_unchanged u a r db db' e :
  WalletService.deduct_platform_fee u a r db = (db', Returned (Failure e)) ->
  db' = db.
Proof.
  rewrite deduct_platform_fee_eq. destruct (wallets db !! user_pk u); [|congruence].
  case_bool_decide; [done|congruence].
Qed.

Lemma fund_loan_cases now fee loan_id lender_ db :
  (exists e,
     LoanFundingService.fund_loan now fee loan_id lender_ db = (db, Raised e)
     /\ (e = IntegrityError ->
         exists loan monthly,
           loans db !! loan_id = Some loan
           /\ status loan = PENDING_FUNDING
           /\ monthly_payment (set_funded now loan) = Some monthly
           /\ existsb (payment_conflict (payments db))
                (schedule_rows (dt_date now) loan_id (set_funded now loan)
                   monthly)
              = true))
  \/ (exists loan e,
        loans db !! loan_id = Some loan
        /\ is_lender loan lender_ = true
        /\ LoanFundingService.fund_loan now fee loan_id lender_ db
           = (run_wallet_call
                (CallTransfer lender_ (borrower loan) (amount loan)
                   LOAN_FUNDING (funding_reference loan_id)) db,
              Returned (Failure e)))
  \/ exists loan monthly db1 db2 r1 r2,
       loans db !! loan_id = Some loan
       /\ is_lender loan lender_ = true
       /\ status loan = PENDING_FUNDING
       /\ WalletService.transfer_funds lender_ (borrower loan) (amount loan)
            LOAN_FUNDING (funding_reference loan_id) db
          = (db1, Returned (Success r1))
       /\ WalletService.deduct_platform_fee lender_ fee
            (fee_reference loan_id) db1
          = (db2, Returned (Success r2))
       /\ monthly_payment (set_funded now loan) = Some monthly
       /\ existsb (payment_conflict (payments db))
            (schedule_rows (dt_date now) loan_id (set_funded now loan) monthly)
          = false
       /\ LoanFundingService.fund_loan now fee loan_id lender_ db
          = (mkDb (wallets db2) (transactions db2)
               (<[loan_id := set_funded now loan]> (loans db)) (offers db)
               (insert_rows
                  (schedule_rows (dt_date now) loan_id (set_funded now loan)
                     monthly)
                  (payments db)),
             Returned (Success (loan_id, set_funded now loan))).
Proof.
  rewrite fund_loan_eq.
  destruct (loans db !! loan_id) as [loan|] eqn:Hl;
    [|left; eexists; split; [done|done]].
  destruct (is_lender loan lender_) eqn:Hil; cbn [negb];
    [|left; eexists; split; [done|done]].
  case_bool_decide as Hs; cbn [negb]; [|left; eexists; split; [done|done]].
  destruct (negb _); [left; eexists; split; [done|done]|].
  destruct (transfer_funds_returns lender_ (borrower loan) (amount loan)
              LOAN_FUNDING (funding_reference loan_id) db) as [x1 Hx1].
  destruct (WalletService.transfer_funds _ _ _ _ _ db)
    as [db1 [[r1|e1]|x]] eqn:Ht; [| |done].
  2:{ right. left. exists loan, e1. split; [done|]. split; [done|]. simpl.
      by rewrite Ht. }
  pose proof (wallet_call_tables
                (CallTransfer lender_ (borrower loan) (amount loan)
                   LOAN_FUNDING (funding_reference loan_id)) db) as Ht1.
  simpl in Ht1. rewrite Ht in Ht1. simpl in Ht1. destruct Ht1 as [T1 [T2 T3]].
  destruct (deduct_platform_fee_returns lender_ fee (fee_reference loan_id)
              db1) as [x2 Hx2].
  destruct (WalletService.deduct_platform_fee _ _ _ db1)
    as [db2 [[r2|e2]|x]] eqn:Hf; [| |done].
  2:{ right. left. exists loan, e2. split; [done|]. split; [done|]. simpl.
      rewrite Ht. simpl. by rewrite (fee_failure_unchanged _ _ _ _ _ _ Hf). }
  pose proof (wallet_call_tables
                (CallDeductFee lender_ fee (fee_reference loan_id)) db1) as Hf1.
  simpl in Hf1. rewrite Hf in Hf1. simpl in Hf1. destruct Hf1 as [F1 [F2 F3]].
  destruct (monthly_payment (set_funded now loan)) as [monthly|] eqn:Hm;
    [|left; eexists; split; [done|done]].
  rewrite F3, T3, F1, T1, F2, T2.
  destruct (existsb _ _) eqn:Hc.
  { left. eexists. split; [done|]. intros _. by exists loan, monthly. }
  right. right. exists loan, monthly, db1, db2, r1, r2. done.
Qed.

Lemma run_op_effect op db : effect db (run_op op db).
Proof.
  destruct op as [u|u a d|u a d|f t a k r|u a r|l u rate|l o u|now fee l u
                  |now l u|today]; simpl.
  - apply (effect_wallet db (CallGetOrCreateWallet u)).
  - apply (effect_wallet db (CallDeposit u a d)).
  - apply (effect_wallet db (CallWithdraw u a d)).
  - apply (effect_wallet db (CallTransfer f t a k r)).
  - apply (effect_wallet db (CallDeductFee u a r)).
  - rewrite create_offer_eq.
    case_bool_decide as Hr; cbn [negb]; [|apply effect_none].
    destruct (loans db !! l) as [loan|] eqn:Hl; [|apply effect_none].
    case_bool_decide as Hs; cbn [negb]; [|apply effect_none].
    case_bool_decide as Hb; [apply effect_none|].
    case_bool_decide as Hh; [apply effect_none|].
    by eapply effect_offer.
  - destruct (accept_offer_cases db l o u) as [[e ->]|H]; [apply effect_none|].
    destruct H as (loan & offer & Hl & Hb & Hs & Ho & Hol & Ha & ->).
    by apply effect_accept.
  - destruct (fund_loan_cases now fee l u db) as [[e [-> _]]|[H|H]];
      [apply effect_none| |].
    + destruct H as (loan & e & Hl & _ & ->). apply effect_wallet.
    + destruct H as (loan & monthly & db1 & db2 & r1 & r2 & H).
      destruct H as (Hl & Hil & Hs & Ht & Hf & Hm & Hc & ->).
      by eapply effect_fund.
  - destruct (make_payment_cases now db l u) as [[e ->]|[[-> _]|H]];
      [apply effect_none..|].
    destruct H as (loan & lender_ & pk & p & db1 & r1 & H).
    destruct H as (Hl & Hb & Hs & Hlender & Hn & Ht & ->).
    apply first_by_payment_number_Some in Hn as [Hin _].
    apply elem_of_rows_where in Hin as [Hp Hpend].
    apply pending_of_true in Hpend as [Hpl Hps].
    by eapply effect_pay.
  - destruct (check_overdue_payments_eq today db) as [summary [-> _]].
    apply effect_sweep.
Qed.

(** ** What every sequence of operations keeps *)

Lemma run_ops_effect_rel (R : relation Db) `{!PreOrder R} :
  (forall db db', effect db db' -> R db db') ->
  forall ops db, R db (run_ops ops db).
Proof.
  intros H ops. induction ops as [|op ops IH]; intros db; simpl.
  - reflexivity.
  - etrans; [apply H, run_op_effect|apply IH].
Qed.

Lemma run_ops_effect_inv (I : Db -> Prop) :
  (forall db db', effect db db' -> I db -> I db') ->
  forall ops db, I db -> I (run_ops ops db).
Proof.
  intros H ops. induction ops as [|op ops IH]; intros db Hdb; simpl; [done|].
  apply IH. eapply H; [apply run_op_effect|done].
Qed.

Lemma is_Some_insert_keep {A} (m : gmap nat A) i x k :
  is_Some (m !! k) -> is_Some (<[i := x]> m !! k).
Proof.
  intros H. destruct (decide (i = k)) as [->|ne].
  - rewrite lookup_insert_eq. by eexists.
  - by rewrite lookup_insert_ne.
Qed.

Lemma wallet_call_kept c db :
  (forall u, is_Some (wallets db !! u) ->
     is_Some (wallets (run_wallet_call c db) !! u))
  /\ transactions db `prefix_of` transactions (run_wallet_call c db).
Proof.
  destruct c; simpl.
  - rewrite get_or_create_wallet_eq. simpl.
    destruct (wallets db !! user_pk user); simpl; [done|].
    split; [|done]. intros u. apply is_Some_insert_keep.
  - rewrite deposit_funds_eq. simpl.
    split; [intros u; apply is_Some_insert_keep|by apply prefix_app_r].
  - rewrite withdraw_funds_eq. destruct (wallets db !! _); [|done].
    case_bool_decide; [|done]. simpl.
    split; [intros u; apply is_Some_insert_keep|by apply prefix_app_r].
  - rewrite transfer_funds_eq. cbn zeta. rewrite get_or_create_wallet_eq.
    simpl.
    assert ((forall u, is_Some (wallets db !! u) ->
               is_Some (wallets
                          match wallets db !! user_pk to_user with
                          | Some _ => db
                          | None => set_wallets
                                      (fun w => <[user_pk to_user := 0]> w) db
                          end !! u))
            /\ transactions db `prefix_of`
                 transactions
                   match wallets db !! user_pk to_user with
                   | Some _ => db
                   | None => set_wallets
                               (fun w => <[user_pk to_user := 0]> w) db
                   end) as Hc.
    { destruct (wallets db !! user_pk to_user); simpl; [done|].
      split; [|done]. intros u. apply is_Some_insert_keep. }
    destruct (wallets db !! user_pk from_user); [|done].
    case_bool_decide; [|done]. simpl.
    split; [|by apply prefix_app_r].
    intros u Hu. by do 2 apply is_Some_insert_keep.
  - rewrite deduct_platform_fee_eq. destruct (wallets db !! _); [|done].
    case_bool_decide; [|done]. simpl.
    split; [intros u; apply is_Some_insert_keep|by apply prefix_app_r].
Qed.

Global Instance rows_kept_preorder : PreOrder rows_kept.
Proof.
  split.
  - intros db. unfold rows_kept. naive_solver.
  - intros a b c (A1 & A2 & A3 & A4 & A5) (B1 & B2 & B3 & B4 & B5).
    repeat split; [naive_solver|by etrans|naive_solver..].
Qed.

Lemma transfer_success_kept f t a k r db db1 r1 :
  WalletService.transfer_funds f t a k r db = (db1, Returned (Success r1)) ->
  (forall u, is_Some (wallets db !! u) -> is_Some (wallets db1 !! u))
  /\ transactions db `prefix_of` transactions db1
  /\ loans db1 = loans db /\ offers db1 = offers db
  /\ payments db1 = payments db.
Proof.
  intros H. pose proof (wallet_call_kept (CallTransfer f t a k r) db) as K.
  pose proof (wallet_call_tables (CallTransfer f t a k r) db) as T.
  simpl in K, T. rewrite H in K, T. simpl in *. tauto.
Qed.

Lemma fee_success_kept u a r db db1 r1 :
  WalletService.deduct_platform_fee u a r db = (db1, Returned (Success r1)) ->
  (forall u, is_Some (wallets db !! u) -> is_Some (wallets db1 !! u))
  /\ transactions db `prefix_of` transactions db1
  /\ loans db1 = loans db /\ offers db1 = offers db
  /\ payments db1 = payments db.
Proof.
  intros H. pose proof (wallet_call_kept (CallDeductFee u a r) db) as K.
  pose proof (wallet_call_tables (CallDeductFee u a r) db) as T.
  simpl in K, T. rewrite H in K, T. simpl in *. tauto.
Qed.

Lemma effect_rows_kept db db' : effect db db' -> rows_kept db db'.
Proof.
  intros [].
  - reflexivity.
  - destruct (wallet_call_kept c db) as [K1 K2].
    destruct (wallet_call_tables c db) as (T1 & T2 & T3).
    unfold rows_kept. rewrite T1, T2, T3. done.
  - repeat split; simpl; try done. intros k. apply is_Some_insert_keep.
  - repeat split; simpl; try done; intros k; apply is_Some_insert_keep.
  - match goal with
    | Ht : WalletService.transfer_funds _ _ _ _ _ _ = _,
      Hf : WalletService.deduct_platform_fee _ _ _ _ = _ |- _ =>
        apply transfer_success_kept in Ht as (A1 & A2 & _);
        apply fee_success_kept in Hf as (B1 & B2 & _)
    end.
    repeat split; simpl; try done.
    + naive_solver.
    + by etrans.
    + intros k. apply is_Some_insert_keep.
    + intros k [x Hx]. exists x. by apply insert_rows_spec.
  - match goal with
    | Ht : WalletService.transfer_funds _ _ _ _ _ _ = _ |- _ =>
        apply transfer_success_kept in Ht as (A1 & A2 & _)
    end.
    repeat split; simpl; try done.
    + intros k Hk. destruct (all_paid_in _ _); [|done].
      by apply is_Some_insert_keep.
    + intros k. apply is_Some_insert_keep.
  - repeat split; simpl; try done. intros k [x Hx]. rewrite lookup_fmap, Hx.
    by eexists.
Qed.

(** X1: no sequence of operations deletes anything: every wallet, loan, offer
    and payment stays under its key, and the ledger keeps its entries in
    place and only grows at its end. *)
Theorem run_ops_keep_rows ops db : rows_kept db (run_ops ops db).
Proof. apply run_ops_effect_rel; [apply _|apply effect_rows_kept]. Qed.

Global Instance loan_progress_preorder : PreOrder loan_progress.
Proof.
  split.
  - intros l. unfold loan_progress. repeat split; try done.
    by destruct (status l).
  - intros a b c (A1 & A2 & A3 & A4 & A5 & A6) (B1 & B2 & B3 & B4 & B5 & B6).
    unfold loan_progress.
    repeat split; try congruence.
    + destruct (status a), (status b), (status c); done.
    + assert (status b <> REQUESTED)
        by (destruct (status a), (status b); done).
      destruct (A5 H), (B5 H0). congruence.
    + assert (status b <> REQUESTED)
        by (destruct (status a), (status b); done).
      destruct (A5 H), (B5 H0). congruence.
    + intros H. rewrite B6, A6; [done|done|].
      destruct H as [H|H]; rewrite H in A4; destruct (status b); auto; done.
Qed.

Global Instance loans_progress_preorder : PreOrder loans_progress.
Proof.
  split.
  - intros db k l Hl. exists l. split; [done|reflexivity].
  - intros a b c Hab Hbc k l Hl.
    destruct (Hab k l Hl) as [l1 [H1 P1]].
    destruct (Hbc k l1 H1) as [l2 [H2 P2]].
    exists l2. split; [done|by etrans].
Qed.

Lemma loans_progress_same db db' :
  loans db' = loans db -> loans_progress db db'.
Proof. intros E k l Hl. exists l. rewrite E. split; [done|reflexivity]. Qed.

Lemma loans_progress_insert db db' k l l' :
  loans db !! k = Some l -> loan_progress l l' ->
  loans db' = <[k := l']> (loans db) -> loans_progress db db'.
Proof.
  intros Hl P E k0 l0 Hl0. rewrite E. destruct (decide (k = k0)) as [<-|ne].
  - rewrite lookup_insert_eq. exists l'. split; [done|]. congruence.
  - rewrite lookup_insert_ne by done. exists l0. split; [done|reflexivity].
Qed.

Lemma effect_loans_progress db db' : effect db db' -> loans_progress db db'.
Proof.
  intros [].
  - reflexivity.
  - apply loans_progress_same. apply wallet_call_tables.
  - by apply loans_progress_same.
  - eapply loans_progress_insert; [done| |done].
    unfold loan_progress, set_accepted_terms. simpl.
    match goal with H : status _ = REQUESTED |- _ => rewrite H end.
    repeat split; try done; try (by intros [|]).
  - eapply loans_progress_insert; [done| |done].
    unfold loan_progress, set_funded. simpl.
    match goal with H : status _ = PENDING_FUNDING |- _ => rewrite H end.
    repeat split; try done; try (by intros [|]).
  - simpl. destruct (all_paid_in _ _); [|by apply loans_progress_same].
    eapply loans_progress_insert; [done| |done].
    unfold loan_progress, set_status. simpl.
    match goal with H : status _ = FUNDED |- _ => rewrite H end.
    repeat split; try done.
  - by apply loans_progress_same.
Qed.

(** X2: along any sequence of operations a loan is never deleted and keeps
    its borrower, amount and term; its status only moves forward along
    REQUESTED, PENDING_FUNDING, FUNDED, COMPLETED, no operation cancels a
    loan or moves a CANCELLED one; once an offer is accepted the lender and
    the rate stand, and once the loan is funded so does [funded_at]. *)
Theorem run_ops_loans_progress ops db k l :
  loans db !! k = Some l ->
  exists l', loans (run_ops ops db) !! k = Some l' /\ loan_progress l l'.
Proof.
  intros Hl.
  by apply (run_ops_effect_rel loans_progress effect_loans_progress ops db).
Qed.

Lemma run_ops_loans_progress_witness :
  loans db_two_offers !! 1%nat
  = Some (mkLoan bob None 100000 6 1200 REQUESTED None)
  /\ exists l',
       loans (run_ops [OpAcceptOffer 1 1 bob; OpFundLoan noon 375 1 alice]
                db_two_offers) !! 1%nat = Some l'
       /\ loan_progress (mkLoan bob None 100000 6 1200 REQUESTED None) l'.
Proof.
  assert (loans db_two_offers !! 1%nat
          = Some (mkLoan bob None 100000 6 1200 REQUESTED None)) as H
    by reflexivity.
  split; [exact H|].
  apply (run_ops_loans_progress
           [OpAcceptOffer 1 1 bob; OpFundLoan noon 375 1 alice]
           db_two_offers 1%nat _ H).
Defined.

Global Instance payment_progress_preorder : PreOrder payment_progress.
Proof.
  split.
  - intros p. unfold payment_progress. done.
  - intros a b c (A1 & A2 & A3 & A4 & A5) (B1 & B2 & B3 & B4 & B5).
    unfold payment_progress. repeat split; try congruence.
    intros H. rewrite B5; rewrite A5; done.
Qed.

Global Instance payments_progress_preorder : PreOrder payments_progress.
Proof.
  split.
  - intros db k p Hp. exists p. split; [done|reflexivity].
  - intros a b c Hab Hbc k p Hp.
    destruct (Hab k p Hp) as [p1 [H1 P1]].
    destruct (Hbc k p1 H1) as [p2 [H2 P2]].
    exists p2. split; [done|by etrans].
Qed.

Lemma payments_progress_same db db' :
  payments db' = payments db -> payments_progress db db'.
Proof. intros E k p Hp. exists p. rewrite E. split; [done|reflexivity]. Qed.

Lemma effect_payments_progress db db' :
  effect db db' -> payments_progress db db'.
Proof.
  intros [].
  - reflexivity.
  - apply payments_progress_same. apply wallet_call_tables.
  - by apply payments_progress_same.
  - by apply payments_progress_same.
  - intros k p0 Hp. exists p0. simpl. split; [|reflexivity].
    by apply insert_rows_spec.
  - intros k p0 Hp. simpl. destruct (decide (pk = k)) as [<-|ne].
    + rewrite lookup_insert_eq. eexists. split; [done|].
      assert (p0 = p) as -> by congruence.
      unfold payment_progress, mark_as_paid. simpl. repeat split. congruence.
    + rewrite lookup_insert_ne by done. exists p0. split; [done|reflexivity].
  - intros k p Hp. simpl. rewrite lookup_fmap, Hp. simpl. eexists.
    split; [done|]. unfold sweep_row, is_past_due.
    destruct (bool_decide (payment_status p = PENDING)) eqn:E; simpl;
      [|reflexivity].
    apply bool_decide_eq_true in E.
    destruct (date_ltb _ _); [|reflexivity].
    unfold payment_progress, set_payment_status. simpl. repeat split. congruence.
Qed.

(** X3: along any sequence of operations a payment keeps its loan, number,
    due date and amount, and a payment that is PAID or OVERDUE never changes
    again: no installment is paid twice. *)
Theorem run_ops_payments_progress ops db k p :
  payments db !! k = Some p ->
  exists p', payments (run_ops ops db) !! k = Some p' /\ payment_progress p p'.
Proof.
  intros Hp.
  by apply (run_ops_effect_rel payments_progress effect_payments_progress
              ops db).
Qed.

Lemma run_ops_payments_progress_witness :
  payments db_funded_loan !! 1%nat = Some (installment 1 PENDING)
  /\ exists p',
       payments (run_ops [OpMakePayment noon 1 bob] db_funded_loan) !! 1%nat
       = Some p'
       /\ payment_progress (installment 1 PENDING) p'.
Proof.
  assert (payments db_funded_loan !! 1%nat = Some (installment 1 PENDING))
    as H by reflexivity.
  split; [exact H|].
  apply (run_ops_payments_progress [OpMakePayment noon 1 bob] db_funded_loan
           1%nat _ H).
Defined.

Ltac effect_cases H :=
  destruct H as
    [ | c
      | loan_id loan lender_ rate Hl Hs Hr Hb Hh
      | loan_id loan o offer Hl Hs Ho Hol Ha
      | now fee loan_id loan lender_ monthly db1 db2 r1 r2
          Hl Hil Hs Ht Hf Hm Hc
      | now loan_id loan borrower_ lender_ pk p db1 r1
          Hl Hb Hs Hlender Hp Hpl Hps Ht
      | today ].

Lemma effect_offers_consistent db db' :
  effect db db' -> offers_consistent db -> offers_consistent db'.
Proof.
  intros E (U & A & T). effect_cases E.
  - done.
  - destruct (wallet_call_tables c db) as (T1 & T2 & T3).
    unfold offers_consistent. rewrite T1, T2. done.
  - unfold offers_consistent. simpl.
    pose proof (next_pk_fresh (offers db)) as Hfresh.
    split; [|split].
    + intros k1 k2 o1 o2 H1 H2 Hl' Hu.
      apply lookup_insert_Some in H1 as [[<- <-]|[n1 H1]];
        apply lookup_insert_Some in H2 as [[<- <-]|[n2 H2]]; try done.
      * exfalso. apply Hh. exists k2, o2. simpl in *. done.
      * exfalso. apply Hh. exists k1, o1. simpl in *. done.
      * by eapply U.
    + intros k1 k2 o1 o2 H1 H2 Hl' Ha1 Ha2.
      apply lookup_insert_Some in H1 as [[<- <-]|[n1 H1]]; [done|].
      apply lookup_insert_Some in H2 as [[<- <-]|[n2 H2]]; [done|].
      by eapply A.
    + intros k o l H1 Ha Hl'.
      apply lookup_insert_Some in H1 as [[<- <-]|[n1 H1]]; [done|].
      by eapply T.
  - unfold offers_consistent. simpl.
    assert (forall k2 o2, offers db !! k2 = Some o2 ->
              offer_loan o2 = loan_id -> accepted o2 = true -> False) as Hnone.
    { intros k2 o2 H2 Hl2 Ha2. subst loan_id.
      rewrite <- Hl2 in Hl. by destruct (T k2 o2 loan H2 Ha2 Hl). }
    split; [|split].
    + intros k1 k2 o1 o2 H1 H2 Hl' Hu.
      apply lookup_insert_Some in H1 as [[<- <-]|[n1 H1]];
        apply lookup_insert_Some in H2 as [[<- <-]|[n2 H2]]; try done.
      * simpl in *. by eapply U.
      * simpl in *. by eapply U.
      * by eapply U.
    + intros k1 k2 o1 o2 H1 H2 Hl' Ha1 Ha2.
      apply lookup_insert_Some in H1 as [[<- <-]|[n1 H1]];
        apply lookup_insert_Some in H2 as [[<- <-]|[n2 H2]]; try done.
      * simpl in *. exfalso. eapply Hnone; [exact H2|congruence|done].
      * simpl in *. exfalso. eapply Hnone; [exact H1|congruence|done].
      * by eapply A.
    + intros k o0 l H1 Ha' Hl'.
      apply lookup_insert_Some in H1 as [[<- <-]|[n1 H1]]; simpl in *.
      * rewrite Hol in Hl'. rewrite lookup_insert_eq in Hl'.
        by injection Hl' as <-.
      * destruct (decide (loan_id = offer_loan o0)) as [->|ne].
        -- exfalso. by eapply Hnone.
        -- rewrite lookup_insert_ne in Hl' by done. by eapply T.
  - unfold offers_consistent. simpl. split; [done|split; [done|]].
    intros k o l H1 Ha Hl'.
    destruct (decide (loan_id = offer_loan o)) as [->|ne].
    + rewrite lookup_insert_eq in Hl'. injection Hl' as <-.
      destruct (T k o loan H1 Ha Hl) as (T1 & T2 & T3). simpl. done.
    + rewrite lookup_insert_ne in Hl' by done. by eapply T.
  - unfold offers_consistent. simpl. split; [done|split; [done|]].
    intros k o l H1 Ha Hl'. destruct (all_paid_in _ _); [|by eapply T].
    destruct (decide (loan_id = offer_loan o)) as [->|ne].
    + rewrite lookup_insert_eq in Hl'. injection Hl' as <-.
      destruct (T k o loan H1 Ha Hl) as (T1 & T2 & T3). simpl. done.
    + rewrite lookup_insert_ne in Hl' by done. by eapply T.
  - done.
Qed.

(** X4: every sequence of operations keeps the offers consistent: a lender
    has at most one offer on a loan, a loan has at most one accepted offer,
    and a loan with an accepted offer is past REQUESTED and carries the
    lender and the rate of that offer. *)
Theorem run_ops_offers_consistent ops db :
  offers_consistent db -> offers_consistent (run_ops ops db).
Proof. apply run_ops_effect_inv, effect_offers_consistent. Qed.

Lemma effect_no_self_lending db db' :
  effect db db' -> no_self_lending db -> no_self_lending db'.
Proof.
  intros E (L & O). effect_cases E.
  - done.
  - destruct (wallet_call_tables c db) as (T1 & T2 & T3).
    unfold no_self_lending. rewrite T1, T2. done.
  - split; [done|]. simpl. intros k o l H1 Hl'.
    apply lookup_insert_Some in H1 as [[<- <-]|[n1 H1]]; [|by eapply O].
    simpl in *. rewrite Hl in Hl'. injection Hl' as <-. congruence.
  - split; simpl.
    + intros k l v Hl' Hv.
      apply lookup_insert_Some in Hl' as [[<- <-]|[n1 Hl']]; [|by eapply L].
      simpl in *. injection Hv as <-. eapply O; [done|]. by rewrite Hol.
    + intros k o0 l H1 Hl'.
      assert (exists l0, loans db !! offer_loan o0 = Some l0
                         /\ borrower l = borrower l0) as [l0 [Hl0 ->]].
      { apply lookup_insert_Some in Hl' as [[<- <-]|[n1 Hl']]; eauto. }
      apply lookup_insert_Some in H1 as [[<- <-]|[n1 H1]]; simpl in *;
        by eapply O.
  - split; simpl.
    + intros k l v Hl' Hv.
      apply lookup_insert_Some in Hl' as [[<- <-]|[n1 Hl']]; simpl in *;
        by eapply L.
    + intros k o l H1 Hl'.
      apply lookup_insert_Some in Hl' as [[E <-]|[n1 Hl']]; simpl in *;
        [rewrite E in Hl|]; by eapply O.
  - split; simpl; destruct (all_paid_in _ _); try done.
    + intros k l v Hl' Hv.
      apply lookup_insert_Some in Hl' as [[<- <-]|[n1 Hl']]; simpl in *;
        by eapply L.
    + intros k o l H1 Hl'.
      apply lookup_insert_Some in Hl' as [[E <-]|[n1 Hl']]; simpl in *;
        [rewrite E in Hl|]; by eapply O.
  - done.
Qed.

Lemma offers_consistent_two_offers : offers_consistent db_two_offers.
Proof.
  unfold offers_consistent, db_two_offers. cbn [offers loans].
  split; [|split].
  - intros k1 k2 o1 o2 H1 H2 Hl Hu. rows_solve.
  - intros k1 k2 o1 o2 H1 H2 Hl Ha1 Ha2. rows_solve.
  - intros k o l H1 Ha Hl. rows_solve.
Qed.

Lemma run_ops_offers_consistent_witness :
  offers_consistent db_two_offers
  /\ offers_consistent
       (run_ops [OpCreateOffer 1 carol 800; OpAcceptOffer 1 2 bob]
          db_two_offers).
Proof.
  split; [exact offers_consistent_two_offers|].
  apply (run_ops_offers_consistent
           [OpCreateOffer 1 carol 800; OpAcceptOffer 1 2 bob] db_two_offers
           offers_consistent_two_offers).
Defined.

(** X5: when no loan has its borrower as lender and no offer comes from the
    borrower of its loan, the same holds after any sequence of operations. *)
Theorem run_ops_no_self_lending ops db :
  no_self_lending db -> no_self_lending (run_ops ops db).
Proof. apply run_ops_effect_inv, effect_no_self_lending. Qed.

Lemma all_paid_in_mono k (m m' : gmap nat Payment) :
  (forall pk p, m !! pk = Some p -> payment_loan p = k ->
     exists p', m' !! pk = Some p' /\ payment_loan p' = k) ->
  (forall pk p', m' !! pk = Some p' -> payment_loan p' = k ->
     payment_status p' = PAID
     \/ exists p, m !! pk = Some p /\ payment_loan p = k
                  /\ (payment_status p = PAID -> payment_status p' = PAID)) ->
  all_paid_in k m = true -> all_paid_in k m' = true.
Proof.
  intros H1 H2. rewrite !all_paid_in_spec. intros [[pk [p [Hp Hk]]] Hall].
  split.
  - destruct (H1 pk p Hp Hk) as [p' [Hp' Hk']]. by exists pk, p'.
  - intros pk' p' Hp' Hk'. destruct (H2 pk' p' Hp' Hk') as [|[p0 [Hp0 [Hk0 Hi]]]];
      [done|]. apply Hi. by eapply Hall.
Qed.

Lemma no_self_lending_two_offers : no_self_lending db_two_offers.
Proof.
  unfold no_self_lending, db_two_offers. cbn [offers loans]. split.
  - intros k l v Hl Hv. rows_solve.
  - intros k o l Ho Hl. rows_solve.
Qed.

Lemma run_ops_no_self_lending_witness :
  no_self_lending db_two_offers
  /\ no_self_lending
       (run_ops [OpCreateOffer 1 carol 800; OpAcceptOffer 1 2 bob]
          db_two_offers).
Proof.
  split; [exact no_self_lending_two_offers|].
  apply (run_ops_no_self_lending
           [OpCreateOffer 1 carol 800; OpAcceptOffer 1 2 bob] db_two_offers
           no_self_lending_two_offers).
Defined.

Lemma effect_schedules_consistent db db' :
  effect db db' -> schedules_consistent db -> schedules_consistent db'.
Proof.
  intros E (P & L & C). effect_cases E.
  - done.
  - destruct (wallet_call_tables c db) as (T1 & T2 & T3).
    unfold schedules_consistent. rewrite T1, T3. done.
  - done.
  - assert (forall k p, payments db !! k = Some p -> payment_loan p <> loan_id)
      as Hno.
    { intros k p Hp <-. destruct (P k p Hp) as [l [Hl' [Hs'|Hs']]];
        rewrite Hl in Hl'; injection Hl' as <-; congruence. }
    split; [|split]; simpl.
    + intros k p Hp. rewrite lookup_insert_ne by (intros E; by eapply Hno).
      by eapply P.
    + intros k l Hl' Hs'.
      apply lookup_insert_Some in Hl' as [[<- <-]|[n1 Hl']]; [|by eapply L].
      simpl in Hs'. by destruct Hs'.
    + intros k l Hl' Hs'.
      apply lookup_insert_Some in Hl' as [[<- <-]|[n1 Hl']]; [done|].
      by eapply C.
  - assert (forall k p, payments db !! k = Some p -> payment_loan p <> loan_id)
      as Hno.
    { intros k p Hp <-. destruct (P k p Hp) as [l [Hl' [Hs'|Hs']]];
        rewrite Hl in Hl'; injection Hl' as <-; congruence. }
    destruct (insert_rows_spec
                (schedule_rows (dt_date now) loan_id (set_funded now loan)
                   monthly) (payments db)) as (I1 & I2 & I3 & I4).
    split; [|split]; simpl.
    + intros k p Hp. apply I2 in Hp as [Hp|[_ Hp]].
      * rewrite lookup_insert_ne by (intros E; by eapply Hno). by eapply P.
      * apply schedule_rows_spec in Hp as [n [_ ->]]. simpl.
        rewrite lookup_insert_eq. eexists. split; [done|]. by left.
    + intros k l Hl' Hs'.
      apply lookup_insert_Some in Hl' as [[<- <-]|[n1 Hl']]; [|by eapply L].
      simpl. unfold is_lender in Hil. by destruct (lender loan).
    + intros k l Hl' Hs'.
      apply lookup_insert_Some in Hl' as [[<- <-]|[n1 Hl']]; [done|].
      eapply all_paid_in_mono; [| |by eapply C].
      * intros pk p Hp Hk. exists p. split; [by apply I1|done].
      * intros pk p' Hp' Hk. apply I2 in Hp' as [Hp'|[_ Hp']].
        -- right. by exists p'.
        -- apply schedule_rows_spec in Hp' as [n [_ ->]]. simpl in Hk.
           congruence.
  - assert (forall k l, loans db !! k = Some l -> status l = COMPLETED ->
              all_paid_in k (<[pk := mark_as_paid now p]> (payments db))
              = true) as HC.
    { intros k l Hl' Hs'. eapply all_paid_in_mono; [| |by eapply C].
      - intros pk0 p0 Hp0 Hk.
        destruct (decide (pk = pk0)) as [<-|ne].
        + rewrite lookup_insert_eq. eexists. split; [done|]. simpl. congruence.
        + rewrite lookup_insert_ne by done. by exists p0.
      - intros pk0 p' Hp' Hk.
        apply lookup_insert_Some in Hp' as [[<- <-]|[n1 Hp']]; [by left|].
        right. by exists p'. }
    split; [|split]; simpl.
    + intros k p0 Hp0.
      assert (exists l, loans db !! payment_loan p0 = Some l
                /\ (status l = FUNDED \/ status l = COMPLETED)) as [l [Hl' Hs']].
      { apply lookup_insert_Some in Hp0 as [[<- <-]|[n1 Hp0]]; [|by eapply P].
        simpl. rewrite Hpl. exists loan. split; [done|by left]. }
      destruct (all_paid_in _ _); [|by exists l].
      destruct (decide (loan_id = payment_loan p0)) as [<-|ne].
      * rewrite lookup_insert_eq. eexists. split; [done|]. by right.
      * rewrite lookup_insert_ne by done. by exists l.
    + intros k l Hl' Hs'. destruct (all_paid_in _ _); [|by eapply L].
      apply lookup_insert_Some in Hl' as [[<- <-]|[n1 Hl']]; [|by eapply L].
      simpl. by rewrite Hlender.
    + intros k l Hl' Hs'.
      destruct (all_paid_in loan_id _) eqn:Hall; [|by eapply HC].
      apply lookup_insert_Some in Hl' as [[<- <-]|[n1 Hl']]; [done|].
      by eapply HC.
  - split; [|split]; simpl.
    + intros k p Hp. rewrite lookup_fmap in Hp.
      destruct (payments db !! k) as [p0|] eqn:Hp0; [|done].
      simpl in Hp. injection Hp as <-.
      assert (payment_loan (sweep_row today p0) = payment_loan p0) as ->
        by (unfold sweep_row; by destruct (is_past_due today p0)).
      by eapply P.
    + done.
    + intros k l Hl' Hs'. eapply all_paid_in_mono; [| |by eapply C].
      * intros pk p Hp Hk. exists (sweep_row today p).
        rewrite lookup_fmap, Hp. split; [done|].
        unfold sweep_row; by destruct (is_past_due today p).
      * intros pk p' Hp' Hk. right. rewrite lookup_fmap in Hp'.
        destruct (payments db !! pk) as [p0|] eqn:Hp0; [|done].
        simpl in Hp'. injection Hp' as <-. exists p0.
        unfold sweep_row, is_past_due in *.
        destruct (bool_decide (payment_status p0 = PENDING)) eqn:Eb; simpl in *;
          [|done].
        apply bool_decide_eq_true in Eb.
        destruct (date_ltb _ _); simpl in *; [|done].
        repeat split; try done. congruence.
Qed.

Lemma fund_loan_no_clash now fee loan_id lender_ db :
  schedules_consistent db ->
  (LoanFundingService.fund_loan now fee loan_id lender_ db).2
  <> Raised IntegrityError.
Proof.
  intros (P & L & C).
  destruct (fund_loan_cases now fee loan_id lender_ db) as [[e [-> He]]|[H|H]].
  - simpl. intros [= ->]. destruct (He eq_refl) as (loan & monthly & Hl & Hs & Hm & Hc).
    apply existsb_exists in Hc as [row [Hrow Hc]].
    apply list_elem_of_In, schedule_rows_spec in Hrow as [n [_ ->]].
    unfold payment_conflict in Hc. apply bool_decide_eq_true in Hc.
    apply rows_where_nonempty in Hc as [k [q [Hq Hc]]].
    apply bool_decide_eq_true in Hc as [Hc _]. simpl in Hc.
    destruct (P k q Hq) as [l [Hl' Hs']]. rewrite Hc, Hl in Hl'.
    injection Hl' as <-. destruct Hs'; congruence.
  - destruct H as (loan & e & _ & _ & ->). done.
  - destruct H as (loan & monthly & db1 & db2 & r1 & r2 & H).
    destruct H as (_ & _ & _ & _ & _ & _ & _ & ->). done.
Qed.

Lemma make_payment_returns now loan_id borrower_ db :
  schedules_consistent db ->
  exists r, (PaymentService.make_payment now loan_id borrower_ db).2
            = Returned r.
Proof.
  intros (P & L & C).
  destruct (make_payment_cases now db loan_id borrower_)
    as [[e ->]|[[-> H]|H]].
  - by eexists.
  - destruct H as (loan & Hl & Hs & Hn).
    destruct (L loan_id loan Hl (or_introl Hs)) as [v Hv]. congruence.
  - destruct H as (loan & lender_ & pk & p & db1 & r1 & H).
    destruct H as (_ & _ & _ & _ & _ & _ & ->). by eexists.
Qed.

(** X6: every sequence of operations keeps the schedules consistent:
    payments belong to FUNDED or COMPLETED loans, such loans have a lender,
    and a COMPLETED loan has payments that are all PAID. On the database it
    leaves, [fund_loan] never raises an integrity error and [make_payment]
    never raises. *)
Theorem run_ops_schedules_consistent ops db :
  schedules_consistent db ->
  schedules_consistent (run_ops ops db)
  /\ (forall now fee loan_id lender_,
        (LoanFundingService.fund_loan now fee loan_id lender_
           (run_ops ops db)).2
        <> Raised IntegrityError)
  /\ (forall now loan_id borrower_,
        exists r,
          (PaymentService.make_payment now loan_id borrower_
             (run_ops ops db)).2
          = Returned r).
Proof.
  intros H.
  assert (schedules_consistent (run_ops ops db)) as H'
    by (revert H; apply run_ops_effect_inv, effect_schedules_consistent).
  split; [done|]. split.
  - intros. by apply fund_loan_no_clash.
  - intros. by apply make_payment_returns.
Qed.

Lemma schedules_consistent_funded_loan : schedules_consistent db_funded_loan.
Proof.
  unfold schedules_consistent, db_funded_loan. cbn [payments loans].
  split; [|split].
  - intros k p Hp. exists funded_loan. rows_solve; split; auto.
  - intros k l Hl Hs. rows_solve.
  - intros k l Hl Hs. rows_solve.
Qed.

Lemma run_ops_schedules_consistent_witness :
  schedules_consistent db_funded_loan
  /\ schedules_consistent
       (run_ops [OpMakePayment noon 1 bob; OpSweep (mkDate 2025 1 1)]
          db_funded_loan)
  /\ exists r,
       (PaymentService.make_payment noon 1 bob
          (run_ops [OpMakePayment noon 1 bob; OpSweep (mkDate 2025 1 1)]
             db_funded_loan)).2
       = Returned r.
Proof.
  split; [exact schedules_consistent_funded_loan|].
  destruct (run_ops_schedules_consistent
              [OpMakePayment noon 1 bob; OpSweep (mkDate 2025 1 1)]
              db_funded_loan schedules_consistent_funded_loan)
    as (K1 & _ & K3).
  split; [exact K1|apply K3].
Defined.

(** ** The ledger and the balances *)

Lemma net_change_app u l l' :
  net_change u (l ++ l') = net_change u l + net_change u l'.
Proof.
  unfold net_change. rewrite filter_app, fmap_app.
  induction (balance_change <$> filter _ l) as [|x xs IH]; simpl; lia.
Qed.

Global Instance reconciled_preorder : PreOrder reconciled.
Proof.
  split.
  - intros db. exists []. split; [by rewrite app_nil_r|].
    intros u. unfold net_change. simpl. lia.
  - intros a b c [e1 [E1 B1]] [e2 [E2 B2]]. exists (e1 ++ e2). split.
    + by rewrite E2, E1, app_assoc.
    + intros u. rewrite B2, B1, net_change_app. lia.
Qed.

Lemma reconciled_same db db' :
  transactions db' = transactions db ->
  (forall u, balance_of db' u = balance_of db u) -> reconciled db db'.
Proof.
  intros E B. exists []. split; [by rewrite app_nil_r|].
  intros u. rewrite B. unfold net_change. simpl. lia.
Qed.

Lemma balance_of_insert w t l o p u v k :
  balance_of (mkDb (<[k := v]> w) t l o p) u
  = if decide (k = u) then v else default 0 (w !! u).
Proof.
  unfold balance_of. simpl. destruct (decide (k = u)) as [->|ne].
  - by rewrite lookup_insert_eq.
  - by rewrite lookup_insert_ne.
Qed.

Lemma net_change_one u t :
  net_change u [t] = if decide (tx_wallet t = u) then balance_change t else 0.
Proof.
  unfold net_change. destruct (decide (tx_wallet t = u)) as [E|E].
  - rewrite filter_cons_True by done. simpl. lia.
  - rewrite filter_cons_False by done. done.
Qed.

Lemma get_or_create_reconciled u db :
  reconciled db (WalletService.get_or_create_wallet u db).1.
Proof.
  rewrite get_or_create_wallet_eq. simpl.
  destruct (wallets db !! user_pk u) eqn:E; [reflexivity|].
  apply reconciled_same; [done|]. intros v. unfold set_wallets.
  rewrite balance_of_insert. case_decide as Hv; [|done].
  subst v. unfold balance_of. by rewrite E.
Qed.

Lemma transfer_reconciled f t a k r db :
  user_pk f <> user_pk t -> k <> WITHDRAWAL ->
  reconciled db (WalletService.transfer_funds f t a k r db).1.
Proof.
  intros Hne Hk. rewrite transfer_funds_eq. cbn zeta.
  destruct (wallets db !! user_pk f) as [b|] eqn:Hf;
    [|apply get_or_create_reconciled].
  case_bool_decide; [|apply get_or_create_reconciled].
  simpl. eexists. split; [done|]. intros u.
  change [?x; ?y] with ([x] ++ [y]). rewrite net_change_app, !net_change_one.
  rewrite balance_of_insert. unfold balance_change. cbn [tx_wallet tx_amount transaction_type].
  assert (balance_of db (user_pk f) = b) as Hb
    by (unfold balance_of; by rewrite Hf).
  unfold balance_of in *.
  destruct (decide (user_pk t = u)) as [<-|n1];
    destruct (decide (user_pk f = user_pk t)) as [|n2]; try done.
  - destruct k; try done; lia.
  - destruct (decide (user_pk f = u)) as [<-|n3].
    + rewrite ?lookup_insert_eq. simpl. rewrite ?Hb. destruct k; try done; lia.
    + rewrite ?lookup_insert_ne by done. destruct k; try done; lia.
Qed.

Lemma wallet_op_reconciled op db :
  plain_op op ->
  match op with
  | OpGetOrCreateWallet _ | OpDeposit _ _ _ | OpWithdraw _ _ _
  | OpTransfer _ _ _ _ _ | OpDeductFee _ _ _ => reconciled db (run_op op db)
  | _ => True
  end.
Proof.
  intros Hp. destruct op; try done; simpl.
  - apply get_or_create_reconciled.
  - rewrite deposit_funds_eq. simpl. eexists. split; [done|]. intros u.
    rewrite net_change_one, balance_of_insert. unfold balance_change, balance_of.
    cbn [tx_wallet tx_amount transaction_type].
    repeat case_decide; subst; try congruence; lia.
  - rewrite withdraw_funds_eq.
    destruct (wallets db !! user_pk user) as [b|] eqn:E; [|reflexivity].
    case_bool_decide; [|reflexivity]. simpl. eexists. split; [done|].
    intros u. rewrite net_change_one, balance_of_insert.
    unfold balance_change, balance_of.
    cbn [tx_wallet tx_amount transaction_type].
    repeat case_decide; subst; try congruence; try lia.
    rewrite E. simpl. lia.
  - destruct Hp. by apply transfer_reconciled.
  - rewrite deduct_platform_fee_eq.
    destruct (wallets db !! user_pk user) as [b|] eqn:E; [|reflexivity].
    case_bool_decide; [|reflexivity]. simpl. eexists. split; [done|].
    intros u. rewrite net_change_one, balance_of_insert.
    unfold balance_change, balance_of.
    cbn [tx_wallet tx_amount transaction_type].
    repeat case_decide; subst; try congruence; try lia.
    rewrite E. simpl. lia.
Qed.

Lemma reconciled_tables db db1 db2 :
  wallets db2 = wallets db1 -> transactions db2 = transactions db1 ->
  reconciled db db1 -> reconciled db db2.
Proof.
  intros W T [e [E B]]. exists e. unfold balance_of in *. rewrite W, T. done.
Qed.

Lemma is_lender_pk loan u :
  is_lender loan u = true ->
  exists v, lender loan = Some v /\ user_pk v = user_pk u.
Proof.
  unfold is_lender, user_eqb. destruct (lender loan) as [v|]; [|done].
  intros H. apply bool_decide_eq_true in H. by exists v.
Qed.

Lemma run_op_reconciled op db :
  no_self_lending db -> plain_op op -> reconciled db (run_op op db).
Proof.
  intros [L O] Hp.
  destruct op as [u|u a d|u a d|f t a k r|u a r|l u rate|l o u|now fee l u
                  |now l u|today];
    try (by apply (wallet_op_reconciled _ db Hp)); simpl.
  - rewrite create_offer_eq. repeat case_match; try reflexivity.
    by apply reconciled_same.
  - destruct (accept_offer_cases db l o u) as [[e ->]|H]; [reflexivity|].
    destruct H as (loan & offer & _ & _ & _ & _ & _ & _ & ->).
    by apply reconciled_same.
  - destruct (fund_loan_cases now fee l u db) as [[e [-> _]]|[H|H]];
      [reflexivity| |].
    + destruct H as (loan & e & Hl & Hil & ->). simpl.
      apply is_lender_pk in Hil as [v [Hv Hvu]].
      apply transfer_reconciled; [|done]. rewrite <- Hvu. by eapply L.
    + destruct H as (loan & monthly & db1 & db2 & r1 & r2 & H).
      destruct H as (Hl & Hil & Hs & Ht & Hf & Hm & Hc & ->).
      apply is_lender_pk in Hil as [v [Hv Hvu]].
      apply (reconciled_tables db db2); [done..|].
      etrans; [|].
      * pose proof (transfer_reconciled u (borrower loan) (amount loan)
                      LOAN_FUNDING (funding_reference l) db) as R.
        rewrite Ht in R. apply R; [|done]. rewrite <- Hvu. by eapply L.
      * pose proof (wallet_op_reconciled
                      (OpDeductFee u fee (fee_reference l)) db1 I) as R.
        simpl in R. by rewrite Hf in R.
  - destruct (make_payment_cases now db l u) as [[e ->]|[[-> _]|H]];
      [reflexivity..|].
    destruct H as (loan & lender_ & pk & p & db1 & r1 & H).
    destruct H as (Hl & Hb & Hs & Hlender & Hn & Ht & ->).
    apply (reconciled_tables db db1); [done..|].
    pose proof (transfer_reconciled u lender_ (payment_amount p)
                  LOAN_PAYMENT (Some ("payment_" +:+ pretty pk)) db) as R.
    rewrite Ht in R. apply R; [|done]. rewrite <- Hb.
    intros E. by eapply L.
  - destruct (check_overdue_payments_eq today db) as [summary [-> _]].
    by apply reconciled_same.
Qed.

(** X7: on a database without self-lending, along any sequence of
    operations whose direct transfers go between two different users and are
    not typed WITHDRAWAL, the ledger accounts for the balances: it only
    grows, and every balance changes by the net amount of the new entries of
    its wallet, a WITHDRAWAL entry counting with the opposite sign. *)
Theorem run_ops_reconciled ops db :
  no_self_lending db -> Forall plain_op ops ->
  exists extra,
    transactions (run_ops ops db) = transactions db ++ extra
    /\ forall u,
         balance_of (run_ops ops db) u = balance_of db u + net_change u extra.
Proof.
  revert db. induction ops as [|op ops IH]; intros db Hdb Hops; simpl.
  - change (reconciled db db). reflexivity.
  - apply Forall_cons in Hops as [Hop Hops].
    change (reconciled db (run_ops ops (run_op op db))).
    etrans; [by apply run_op_reconciled|].
    apply IH; [|done].
    eapply effect_no_self_lending; [apply run_op_effect|done].
Qed.

Lemma no_self_lending_funded_loan : no_self_lending db_funded_loan.
Proof.
  unfold no_self_lending, db_funded_loan. cbn [offers loans]. split.
  - intros k l v Hl Hv. rows_solve.
  - intros k o l Ho Hl. rows_solve.
Qed.

Lemma run_ops_reconciled_witness :
  no_self_lending db_funded_loan
  /\ Forall plain_op
       [OpDeposit bob 5000 None; OpTransfer bob alice 100 LOAN_PAYMENT None;
        OpMakePayment noon 1 bob]
  /\ exists extra,
       transactions
         (run_ops
            [OpDeposit bob 5000 None; OpTransfer bob alice 100 LOAN_PAYMENT None;
             OpMakePayment noon 1 bob] db_funded_loan)
       = transactions db_funded_loan ++ extra
       /\ forall u,
            balance_of
              (run_ops
                 [OpDeposit bob 5000 None;
                  OpTransfer bob alice 100 LOAN_PAYMENT None;
                  OpMakePayment noon 1 bob] db_funded_loan) u
            = balance_of db_funded_loan u + net_change u extra.
Proof.
  assert (Forall plain_op
            [OpDeposit bob 5000 None;
             OpTransfer bob alice 100 LOAN_PAYMENT None;
             OpMakePayment noon 1 bob]) as H.
  { repeat constructor; simpl; done. }
  split; [exact no_self_lending_funded_loan|]. split; [exact H|].
  apply (run_ops_reconciled _ db_funded_loan no_self_lending_funded_loan H).
Defined.

(** ** Wallet calls one after the other *)

(** X8: a deposit into a wallet that is not overdrawn can be withdrawn
    again at once: the withdrawal succeeds and reports the balance from
    before the deposit, which the wallet then holds; no other wallet changes,
    and the ledger has two more entries. *)
Theorem deposit_withdraw_round_trip user a d d' db :
  0 <= balance_of db (user_pk user) ->
  let db1 := (WalletService.deposit_funds user a d db).1 in
  exists receipt db2,
    WalletService.withdraw_funds user a d' db1
    = (db2, Returned (Success receipt))
    /\ new_balance receipt = balance_of db (user_pk user)
    /\ wallets db2 !! user_pk user = Some (balance_of db (user_pk user))
    /\ (forall u, u <> user_pk user -> wallets db2 !! u = wallets db !! u)
    /\ length (transactions db2) = (length (transactions db) + 2)%nat.
Proof.
  intros Hb db1. unfold db1. rewrite deposit_funds_eq. cbn zeta. cbn [fst].
  rewrite withdraw_funds_eq. cbn [wallets]. rewrite lookup_insert_eq.
  rewrite bool_decide_eq_true_2 by lia.
  eexists _, _. split; [done|]. cbn [new_balance wallets transactions].
  split; [lia|]. split; [|split].
  - rewrite lookup_insert_eq. f_equal. lia.
  - intros u Hu. by rewrite !lookup_insert_ne.
  - rewrite !length_app. simpl. lia.
Qed.

Lemma deposit_withdraw_round_trip_witness :
  0 <= balance_of db_alice_100 (user_pk alice)
  /\ exists receipt db2,
       WalletService.withdraw_funds alice 500 None
         (WalletService.deposit_funds alice 500 None db_alice_100).1
       = (db2, Returned (Success receipt))
       /\ new_balance receipt = balance_of db_alice_100 (user_pk alice).
Proof.
  assert (0 <= balance_of db_alice_100 (user_pk alice)) as H by (by vm_compute).
  split; [exact H|].
  destruct (deposit_withdraw_round_trip alice 500 None None db_alice_100 H)
    as (receipt & db2 & E & K & _).
  exists receipt, db2. split; [exact E|exact K].
Defined.

(** X9: [check_balance] answers true exactly when a withdrawal of the
    amount would succeed, and exactly when a fee of the amount could be
    deducted. *)
Theorem check_balance_foretells user a d r db :
  ((WalletService.check_balance user a db).2 = Returned true
   <-> exists receipt,
         (WalletService.withdraw_funds user a d db).2
         = Returned (Success receipt))
  /\ ((WalletService.check_balance user a db).2 = Returned true
      <-> exists receipt,
            (WalletService.deduct_platform_fee user a r db).2
            = Returned (Success receipt)).
Proof.
  rewrite check_balance_eq, withdraw_funds_eq, deduct_platform_fee_eq.
  cbn [snd].
  destruct (wallets db !! user_pk user) as [b|].
  - case_bool_decide; simpl.
    + split; (split; [by eexists|done]).
    + split; (split; [done|by intros [? ?]]).
  - split; (split; [done|by intros [? ?]]).
Qed.

(** X10: a transfer that fails, for want of a sender wallet or of funds,
    has still opened the wallet of the receiver when it was missing: the
    receiver has a wallet afterwards; no balance, no other wallet row and
    nothing else has changed. *)
Theorem failed_transfer_opens_wallet from_user to_user a k r db db' e :
  WalletService.transfer_funds from_user to_user a k r db
  = (db', Returned (Failure e)) ->
  wallets db' !! user_pk to_user = Some (balance_of db (user_pk to_user))
  /\ (forall u, u <> user_pk to_user -> wallets db' !! u = wallets db !! u)
  /\ (forall u, balance_of db' u = balance_of db u)
  /\ transactions db' = transactions db
  /\ loans db' = loans db /\ offers db' = offers db
  /\ payments db' = payments db.
Proof.
  rewrite transfer_funds_eq. cbn zeta. rewrite get_or_create_wallet_eq.
  cbn [fst].
  assert (forall db0,
            db0 = match wallets db !! user_pk to_user with
                  | Some _ => db
                  | None => set_wallets (fun w => <[user_pk to_user := 0]> w) db
                  end ->
            wallets db0 !! user_pk to_user
            = Some (balance_of db (user_pk to_user))
            /\ (forall u, u <> user_pk to_user ->
                  wallets db0 !! u = wallets db !! u)
            /\ (forall u, balance_of db0 u = balance_of db u)
            /\ transactions db0 = transactions db
            /\ loans db0 = loans db /\ offers db0 = offers db
            /\ payments db0 = payments db) as Hcase.
  { intros db0 ->. unfold balance_of.
    destruct (wallets db !! user_pk to_user) as [b|] eqn:E.
    - rewrite E. done.
    - simpl. rewrite lookup_insert_eq. split; [done|].
      split; [intros u Hu; by rewrite lookup_insert_ne|].
      split; [|done]. intros u. destruct (decide (user_pk to_user = u)) as [<-|ne].
      + by rewrite lookup_insert_eq, E.
      + by rewrite lookup_insert_ne. }
  destruct (wallets db !! user_pk from_user) as [b|].
  - case_bool_decide; [done|]. intros [= <- _]. by apply Hcase.
  - intros [= <- _]. by apply Hcase.
Qed.

Lemma failed_transfer_opens_wallet_witness :
  exists db' e,
    WalletService.transfer_funds alice bob 2500 LOAN_FUNDING None db_empty
    = (db', Returned (Failure e))
    /\ wallets db' !! user_pk bob = Some (balance_of db_empty (user_pk bob)).
Proof.
  assert (exists db' e,
            WalletService.transfer_funds alice bob 2500 LOAN_FUNDING None
              db_empty
            = (db', Returned (Failure e))) as (db' & e & E).
  { eexists _, _. vm_compute. reflexivity. }
  exists db', e. split; [exact E|].
  destruct (failed_transfer_opens_wallet alice bob 2500 LOAN_FUNDING None
              db_empty db' e E) as (K & _).
  exact K.
Defined.

(** ** The views of the wallet *)

Lemma pow10_pos k : 0 <= k -> 0 < 10 ^ k.
Proof. intros. by apply Z.pow_pos_nonneg. Qed.

Lemma digits_go_pos fuel n : 1 <= Dec.digits_go fuel n.
Proof.
  revert n. induction fuel as [|fuel IH]; intros n; simpl; [lia|].
  destruct (n <? 10); [lia|]. specialize (IH (n / 10)). lia.
Qed.

Lemma digits_go_bound fuel n k :
  1 <= k -> 0 <= n < 10 ^ k -> Dec.digits_go fuel n <= k.
Proof.
  revert n k. induction fuel as [|fuel IH]; intros n k Hk Hn; simpl; [lia|].
  destruct (Z.ltb_spec n 10); [lia|].
  assert (2 <= k).
  { destruct (decide (k = 1)) as [->|]; [|lia]. change (10 ^ 1) with 10 in Hn.
    lia. }
  assert (Dec.digits_go fuel (n / 10) <= k - 1); [|lia].
  apply IH; [lia|]. split; [apply Z.div_pos; lia|].
  apply Z.div_lt_upper_bound; [lia|].
  replace (10 * 10 ^ (k - 1)) with (10 ^ k); [lia|].
  rewrite <- Z.pow_succ_r by lia. f_equal. lia.
Qed.

Lemma digits_bound c k : 1 <= k -> Z.abs c < 10 ^ k -> Dec.digits c <= k.
Proof. intros Hk Hc. unfold Dec.digits. apply digits_go_bound; lia. Qed.

Lemma digits_go_enough fuel n :
  0 <= n -> Z.log2 n <= Z.of_nat fuel -> n < 10 ^ Dec.digits_go fuel n.
Proof.
  revert n. induction fuel as [|fuel IH]; intros n Hn Hl.
  - simpl. destruct (decide (n <= 1)) as [|Hgt]; [lia|].
    pose proof (Z.log2_pos n). lia.
  - cbn [Dec.digits_go]. destruct (Z.ltb_spec n 10) as [Hlt|Hge]; [lia|].
    pose proof (digits_go_pos fuel (n / 10)) as Hpos.
    assert (n / 10 < 10 ^ Dec.digits_go fuel (n / 10)) as Hrec.
    { apply IH; [apply Z.div_pos; lia|].
      assert (n < 2 ^ (Z.of_nat (S fuel) + 1)) as Hn2
        by (apply Z.log2_lt_pow2; lia).
      rewrite Z.pow_add_r in Hn2 by lia. change (2 ^ 1) with 2 in Hn2.
      assert (0 < n / 10) by (apply Z.div_str_pos; lia).
      assert (n / 10 < 2 ^ (Z.of_nat fuel + 1)); [|
        apply Z.lt_succ_r; apply Z.log2_lt_pow2; [done|lia]].
      apply Z.div_lt_upper_bound; [lia|].
      replace (Z.of_nat (S fuel)) with (Z.of_nat fuel + 1) in Hn2 by lia.
      pose proof (pow10_pos 0). pose proof (Z.pow_pos_nonneg 2 (Z.of_nat fuel + 1)).
      lia. }
    rewrite Z.pow_add_r by lia. change (10 ^ 1) with 10.
    pose proof (Z.div_mod n 10). pose proof (Z.mod_pos_bound n 10). lia.
Qed.

Lemma digits_enough c : Z.abs c < 10 ^ Dec.digits c.
Proof. unfold Dec.digits. apply digits_go_enough; lia. Qed.

Lemma digits_pos c : 1 <= Dec.digits c.
Proof. apply digits_go_pos. Qed.

Lemma validate_precision_amount c e :
  (-2 <= e /\ Dec.digits c + e <= 10 ->
   DecimalField.validate_precision 12 2 (Dec.mk c e) = Success (Dec.mk c e))
  /\ (~ (-2 <= e /\ Dec.digits c + e <= 10) ->
      exists err,
        DecimalField.validate_precision 12 2 (Dec.mk c e) = Failure err).
Proof.
  pose proof (digits_pos c) as Hd. unfold DecimalField.validate_precision.
  cbn [Dec.coeff Dec.expo]. change (12 - 2) with 10.
  destruct (Z.leb_spec 0 e) as [H0|H0];
    [|destruct (Z.ltb_spec (Z.abs e) (Dec.digits c)) as [H1|H1]];
    cbn iota beta;
    repeat match goal with
           | |- context [?a <? ?b] => destruct (Z.ltb_spec a b)
           end;
    (split; [intros [? ?]; first [done|lia]
            |intros ?; first [by eexists|lia]]).
Qed.

Lemma quantize_amount c e :
  -2 <= e -> Dec.digits c + e <= 10 ->
  DecimalField.quantize 12 2 (Dec.mk c e)
  = Some (Dec.mk (c * 10 ^ (e + 2)) (-2)).
Proof.
  intros He Hde. pose proof (digits_enough c) as Hd.
  unfold DecimalField.quantize, Dec.rescale. cbn [Dec.coeff Dec.expo].
  change (- (2)) with (-2). replace (e - -2) with (e + 2) by lia.
  destruct (Z.eqb_spec c 0) as [->|Hc]; [done|].
  rewrite (proj2 (Z.ltb_ge 12 _)) by lia.
  rewrite (proj2 (Z.leb_le (-2) e)) by lia.
  rewrite (proj2 (Z.ltb_ge 12 _)); [done|].
  apply digits_bound; [lia|].
  rewrite Z.abs_mul, (Z.abs_eq (10 ^ _)) by (apply Z.pow_nonneg; lia).
  apply Z.lt_le_trans with (10 ^ Dec.digits c * 10 ^ (e + 2)).
  - apply Z.mul_lt_mono_pos_r; [apply pow10_pos; lia|done].
  - rewrite <- Z.pow_add_r by (pose proof (digits_pos c); lia).
    apply Z.pow_le_mono_r; lia.
Qed.

Lemma compare_cents x : Dec.compare (Dec.mk x (-2)) (Dec.of_cents 1) = (x ?= 1).
Proof.
  unfold Dec.compare, Dec.of_cents. cbn [Dec.coeff Dec.expo].
  rewrite Z.min_id, Z.sub_diag. change (10 ^ 0) with 1. by rewrite !Z.mul_1_r.
Qed.

(** What the amount field accepts: a value written with at most two
    decimal places, of at least 0.01 and with at most ten digits before the
    decimal point; it hands over this value in cents, and it never raises. *)
Lemma serializer_amount data :
  let cents := Dec.coeff data * 10 ^ (Dec.expo data + 2) in
  (-2 <= Dec.expo data /\ 1 <= cents < 10 ^ 12 ->
   DepositSerializer.amount data = Returned (Success cents))
  /\ (~ (-2 <= Dec.expo data /\ 1 <= cents < 10 ^ 12) ->
      exists e, DepositSerializer.amount data = Returned (Failure e)).
Proof.
  destruct data as [c e]. cbn [Dec.coeff Dec.expo].
  set (cents := c * 10 ^ (e + 2)).
  pose proof (digits_pos c) as Hd1. pose proof (digits_enough c) as Hd2.
  destruct (validate_precision_amount c e) as [Hyes Hno].
  unfold DepositSerializer.amount, DecimalField.to_internal_value.
  assert (-2 <= e -> 0 < c -> cents < 10 ^ 12 <-> Dec.digits c + e <= 10)
    as Hwidth.
  { intros He Hc. split.
    - intros Hhi.
      assert (e <= 9) as He9.
      { destruct (decide (e <= 9)); [done|].
        assert (10 ^ 12 <= 10 ^ (e + 2)) by (apply Z.pow_le_mono_r; lia).
        pose proof (pow10_pos (e + 2)). unfold cents in Hhi. nia. }
      assert (Dec.digits c <= 10 - e); [|lia]. apply digits_bound; [lia|].
      rewrite Z.abs_eq by lia.
      apply (Z.mul_lt_mono_pos_r (10 ^ (e + 2))); [apply pow10_pos; lia|].
      rewrite <- Z.pow_add_r by lia.
      by replace (10 - e + (e + 2)) with 12 by lia.
    - intros Hde. unfold cents. rewrite Z.abs_eq in Hd2 by lia.
      apply Z.lt_le_trans with (10 ^ Dec.digits c * 10 ^ (e + 2)).
      + apply Z.mul_lt_mono_pos_r; [apply pow10_pos; lia|done].
      + rewrite <- Z.pow_add_r by lia. apply Z.pow_le_mono_r; lia. }
  assert (-2 <= e -> 1 <= cents -> 0 < c) as Hsign.
  { intros He Hlo. destruct (decide (0 < c)); [done|].
    assert (cents <= 0); [|lia]. unfold cents.
    apply Z.mul_nonpos_nonneg; [lia|apply Z.pow_nonneg; lia]. }
  split.
  - intros [He [Hlo Hhi]]. pose proof (Hsign He Hlo) as Hc.
    pose proof (proj1 (Hwidth He Hc) Hhi) as Hde.
    rewrite Hyes by done. rewrite quantize_amount by done.
    rewrite compare_cents. fold cents. cbn [Dec.coeff].
    unfold DepositSerializer.validate_amount.
    rewrite (proj2 (Z.leb_gt cents 0)) by lia.
    by destruct (Z.compare_spec cents 1); try lia.
  - intros Hrej.
    destruct (decide (-2 <= e /\ Dec.digits c + e <= 10)) as [[He Hde]|Hbad].
    + rewrite Hyes by done. rewrite quantize_amount by done.
      rewrite compare_cents. fold cents.
      destruct (Z.compare_spec cents 1) as [H1|H1|H1]; [| by eexists |];
        exfalso; apply Hrej; (split; [done|]); (split; [lia|]);
        apply Hwidth; try done; apply Hsign; try done; lia.
    + destruct (Hno Hbad) as [err ->]. by eexists.
Qed.

Lemma deposit_view_eq user amount db :
  WalletViews.deposit user amount db =
  match DepositSerializer.amount amount with
  | Raised e => (db, Raised e)
  | Returned (Failure e) => (db, Returned (mkResponse 400 (Failure e)))
  | Returned (Success cents) =>
      ((WalletService.deposit_funds user cents None db).1,
       Returned
         (mkResponse 200
            (Success (mkWallet (user_pk user)
                        (balance_of db (user_pk user) + cents)))))
  end.
Proof.
  unfold WalletViews.deposit.
  destruct (DepositSerializer.amount amount) as [[cents|e]|e]; [|done..].
  unfold bind at 1. rewrite deposit_funds_eq. cbn zeta.
  unfold bind. rewrite get_or_create_wallet_eq.
  cbn [wallets fst snd]. rewrite lookup_insert_eq. unfold ret.
  by rewrite balance_of_insert, decide_True.
Qed.

Lemma withdraw_view_eq user amount db :
  WalletViews.withdraw user amount db =
  match DepositSerializer.amount amount with
  | Raised e => (db, Raised e)
  | Returned (Failure e) => (db, Returned (mkResponse 400 (Failure e)))
  | Returned (Success cents) =>
      match WalletService.withdraw_funds user cents None db with
      | (db', Returned (Success receipt)) =>
          (db', Returned (mkResponse 200
                            (Success (mkWallet (user_pk user)
                                        (new_balance receipt)))))
      | (db', Returned (Failure e)) =>
          (db', Returned (mkResponse 400 (Failure e)))
      | (db', Raised e) => (db', Raised e)
      end
  end.
Proof.
  unfold WalletViews.withdraw.
  destruct (DepositSerializer.amount amount) as [[cents|e]|e]; [|done..].
  unfold bind at 1. rewrite withdraw_funds_eq.
  destruct (wallets db !! user_pk user) as [b|] eqn:Hw; [|done].
  case_bool_decide; [|done]. cbn zeta.
  unfold bind. rewrite get_or_create_wallet_eq.
  cbn [wallets fst snd]. rewrite lookup_insert_eq. unfold ret.
  by rewrite balance_of_insert, decide_True.
Qed.

(** X11: the view [deposit] answers 200 exactly for an amount that is
    written with at most two decimal places, is at least 0.01 and has at
    most ten digits before the decimal point (the field is a
    [DecimalField] of 12 digits, 2 of them decimal places). Every other
    amount gets 400 and changes nothing. A 200 carries the wallet at its
    old balance plus the amount, which the wallet row then holds, leaves
    the other wallets alone and adds one ledger entry. The view never
    raises and never makes a balance negative. *)
Theorem deposit_view user amount db :
  let cents := Dec.coeff amount * 10 ^ (Dec.expo amount + 2) in
  let run := WalletViews.deposit user amount db in
  exists response,
    run.2 = Returned response
    /\ (status_code response = 200%nat \/ status_code response = 400%nat)
    /\ (status_code response = 200%nat <->
        -2 <= Dec.expo amount /\ 1 <= cents < 10 ^ 12)
    /\ (status_code response = 400%nat -> run.1 = db)
    /\ (status_code response = 200%nat ->
        body response
        = Success (mkWallet (user_pk user)
                     (balance_of db (user_pk user) + cents))
        /\ wallets run.1 !! user_pk user
           = Some (balance_of db (user_pk user) + cents)
        /\ (forall u, u <> user_pk user ->
              wallets run.1 !! u = wallets db !! u)
        /\ length (transactions run.1) = S (length (transactions db)))
    /\ (balances_nonneg db -> balances_nonneg run.1).
Proof.
  intros cents run. subst run. rewrite deposit_view_eq.
  destruct (serializer_amount amount) as [Hyes Hno]. fold cents in Hyes, Hno.
  destruct (decide (-2 <= Dec.expo amount /\ 1 <= cents < 10 ^ 12))
    as [Hok|Hbad].
  - rewrite (Hyes Hok). rewrite deposit_funds_eq. cbn zeta. cbn [fst snd].
    eexists. split; [done|]. cbn [status_code body wallets transactions].
    split; [by left|]. split; [done|]. split; [done|]. split.
    + intros _. split; [done|].
      split; [by rewrite lookup_insert_eq|].
      split; [intros u Hu; by rewrite lookup_insert_ne|].
      rewrite length_app. simpl. lia.
    + intros Hnn u b. cbn [wallets].
      destruct (decide (user_pk user = u)) as [<-|ne].
      * rewrite lookup_insert_eq. intros [= <-].
        pose proof (balance_of_nonneg db (user_pk user) Hnn). lia.
      * rewrite lookup_insert_ne by done. apply Hnn.
  - destruct (Hno Hbad) as [e ->].
    eexists. split; [done|]. cbn [status_code fst snd].
    split; [by right|]. split; [split; [done|by intros ?]|].
    split; [done|]. split; done.
Qed.

(** X12: the view [withdraw] answers 200 exactly for an amount that is
    written with at most two decimal places, is at least 0.01 and has at
    most ten digits before the decimal point (the field is a
    [DecimalField] of 12 digits, 2 of them decimal places), when the user
    has a wallet that covers it. Every other request gets 400 and changes
    nothing. A 200 carries the wallet at its old balance minus the amount,
    which the wallet row then holds, leaves the other wallets alone and
    adds one ledger entry. The view never raises and never makes a balance
    negative. *)
Theorem withdraw_view user amount db :
  let cents := Dec.coeff amount * 10 ^ (Dec.expo amount + 2) in
  let run := WalletViews.withdraw user amount db in
  exists response,
    run.2 = Returned response
    /\ (status_code response = 200%nat \/ status_code response = 400%nat)
    /\ (status_code response = 200%nat <->
        (-2 <= Dec.expo amount /\ 1 <= cents < 10 ^ 12)
        /\ exists b, wallets db !! user_pk user = Some b /\ cents <= b)
    /\ (status_code response = 400%nat -> run.1 = db)
    /\ (status_code response = 200%nat ->
        body response
        = Success (mkWallet (user_pk user)
                     (balance_of db (user_pk user) - cents))
        /\ wallets run.1 !! user_pk user
           = Some (balance_of db (user_pk user) - cents)
        /\ (forall u, u <> user_pk user ->
              wallets run.1 !! u = wallets db !! u)
        /\ length (transactions run.1) = S (length (transactions db)))
    /\ (balances_nonneg db -> balances_nonneg run.1).
Proof.
  intros cents run. subst run. rewrite withdraw_view_eq.
  destruct (serializer_amount amount) as [Hyes Hno]. fold cents in Hyes, Hno.
  destruct (decide (-2 <= Dec.expo amount /\ 1 <= cents < 10 ^ 12))
    as [Hok|Hbad].
  2:{ destruct (Hno Hbad) as [e ->].
      eexists. split; [done|]. cbn [status_code fst snd].
      split; [by right|]. split; [split; [done|by intros [? _]]|].
      split; [done|]. split; done. }
  rewrite (Hyes Hok). rewrite withdraw_funds_eq.
  destruct (wallets db !! user_pk user) as [b|] eqn:Hw.
  2:{ eexists. split; [done|]. cbn [status_code]. split; [by right|].
      split; [split; [done|by intros [_ [? [? _]]]]|].
      split; [done|]. split; done. }
  case_bool_decide as Hb.
  2:{ eexists. split; [done|]. cbn [status_code]. split; [by right|].
      split; [split; [done|intros [_ [? [[= <-] ?]]]; lia]|].
      split; [done|]. split; done. }
  cbn zeta. cbn [fst snd new_balance].
  assert (balance_of db (user_pk user) = b) as Hbal
    by (unfold balance_of; by rewrite Hw).
  eexists. split; [done|]. cbn [status_code body wallets transactions].
  split; [by left|].
  split; [split; [intros _; split; [lia|exists b; split; [done|lia]]|done]|].
  split; [done|]. split.
  - intros _. rewrite Hbal. split; [done|].
    split; [by rewrite lookup_insert_eq|].
    split; [intros u Hu; by rewrite lookup_insert_ne|].
    rewrite length_app. simpl. lia.
  - intros Hnn u b'. cbn [wallets].
    destruct (decide (user_pk user = u)) as [<-|ne].
    + rewrite lookup_insert_eq. intros [= <-]. lia.
    + rewrite lookup_insert_ne by done. apply Hnn.
Qed.

Lemma deposit_view_three_places :
  WalletViews.deposit alice (Dec.mk 15 (-3)) db_alice_100
  = (db_alice_100,
     Returned
       (mkResponse 400
          (Failure "Ensure that there are no more than 2 decimal places."))).
Proof. by vm_compute. Qed.

Lemma withdraw_view_thirteen_digits :
  WalletViews.withdraw alice (Dec.mk 1234567890123 0) db_alice_100
  = (db_alice_100,
     Returned
       (mkResponse 400
          (Failure "Ensure that there are no more than 12 digits in total."))).
Proof. by vm_compute. Qed.

Lemma deposit_view_one_cent :
  (WalletViews.deposit alice (Dec.mk 1 (-2)) db_alice_100).2
  = Returned (mkResponse 200 (Success (mkWallet 1 10001))).
Proof. by vm_compute. Qed.

(** ** Services that do all or nothing *)

(** X13: [make_payment] either returns success or leaves the database
    exactly as it was, whatever it returns or raises. *)
Theorem make_payment_all_or_nothing now loan_id borrower_ db :
  let run := PaymentService.make_payment now loan_id borrower_ db in
  (exists paid completed, run.2 = Returned (Success (paid, completed)))
  \/ run.1 = db.
Proof.
  intros run. unfold run.
  destruct (make_payment_cases now db loan_id borrower_)
    as [[e ->]|[[-> _]|H]]; [by right..|].
  destruct H as (loan & lender_ & pk & p & db1 & r1 & H).
  destruct H as (_ & _ & _ & _ & _ & _ & ->). left. by eexists _, _.
Qed.

(** X14: [accept_offer] succeeds exactly when the loan exists, belongs to
    the caller, is REQUESTED, and the offer exists, is an offer on that loan
    and is not yet accepted. A call that does not succeed changes nothing. A
    call that succeeds marks the offer accepted and gives the loan the
    lender and the rate of the offer and the status PENDING_FUNDING; every
    other row, the wallets and the ledger stay as they were. *)
Theorem accept_offer_spec loan_id offer_id borrower_ db :
  let run := OfferService.accept_offer loan_id offer_id borrower_ db in
  ((exists accepted_loan, run.2 = Returned (Success accepted_loan))
   <-> exists loan offer,
         loans db !! loan_id = Some loan
         /\ user_pk (borrower loan) = user_pk borrower_
         /\ status loan = REQUESTED
         /\ offers db !! offer_id = Some offer
         /\ offer_loan offer = loan_id
         /\ accepted offer = false)
  /\ ((forall accepted_loan, run.2 <> Returned (Success accepted_loan)) ->
      run.1 = db)
  /\ (forall loan offer,
        loans db !! loan_id = Some loan -> offers db !! offer_id = Some offer ->
        (exists accepted_loan, run.2 = Returned (Success accepted_loan)) ->
        loans run.1
        = <[loan_id := mkLoan (borrower loan) (Some (offer_lender offer))
                         (amount loan) (term_months loan) (offer_rate offer)
                         PENDING_FUNDING (funded_at loan)]> (loans db)
        /\ offers run.1
           = <[offer_id := mkOffer (offer_loan offer) (offer_lender offer)
                             (offer_rate offer) true]> (offers db)
        /\ wallets run.1 = wallets db
        /\ transactions run.1 = transactions db
        /\ payments run.1 = payments db).
Proof.
  intros run. unfold run. rewrite accept_offer_eq, accept_offer_checks_eq.
  cbn [snd].
  assert (forall e : string,
            ~ (exists loan offer,
                 loans db !! loan_id = Some loan
                 /\ user_pk (borrower loan) = user_pk borrower_
                 /\ status loan = REQUESTED
                 /\ offers db !! offer_id = Some offer
                 /\ offer_loan offer = loan_id
                 /\ accepted offer = false) ->
            ((exists accepted_loan : nat * Loan,
                (db, Returned (Failure (A := nat * Loan) e)).2
                = Returned (Success accepted_loan))
             <-> exists loan offer,
                   loans db !! loan_id = Some loan
                   /\ user_pk (borrower loan) = user_pk borrower_
                   /\ status loan = REQUESTED
                   /\ offers db !! offer_id = Some offer
                   /\ offer_loan offer = loan_id
                   /\ accepted offer = false)) as Hfail.
  { intros e Hno. split; [by intros [? ?]|done]. }
  destruct (loans db !! loan_id) as [loan|] eqn:Hl.
  2:{ split; [|split]; [|done|by intros ? ? _ _ [? ?]].
      apply Hfail. by intros (? & ? & ? & _). }
  case_bool_decide as Hb; cbn [negb].
  2:{ split; [|split]; [|done|by intros ? ? _ _ [? ?]].
      apply Hfail. intros (? & ? & ? & ? & _). congruence. }
  case_bool_decide as Hs; cbn [negb].
  2:{ split; [|split]; [|done|by intros ? ? _ _ [? ?]].
      apply Hfail. intros (? & ? & ? & ? & ? & _). congruence. }
  destruct (offers db !! offer_id) as [offer|] eqn:Ho.
  2:{ split; [|split]; [|done|by intros ? ? _ _ [? ?]].
      apply Hfail. by intros (? & ? & ? & ? & ? & ? & _). }
  case_bool_decide as Hol; cbn [negb].
  2:{ split; [|split]; [|done|by intros ? ? _ _ [? ?]].
      apply Hfail. intros (? & ? & ? & ? & ? & ? & ? & _). congruence. }
  destruct (accepted offer) eqn:Ha.
  { split; [|split]; [|done|by intros ? ? _ _ [? ?]].
    apply Hfail. intros (? & ? & ? & ? & ? & ? & ? & ?). congruence. }
  rewrite accept_offer_writes_eq.
  cbn [fst snd loans offers wallets transactions payments].
  split; [|split].
  - split; [intros _; by exists loan, offer|intros _; by eexists].
  - intros H. exfalso. by eapply H.
  - intros loan' offer' [= <-] [= <-] _. done.
Qed.

(** ** The transaction history *)

Lemma get_transaction_history_eq user limit db :
  let entries :=
    filter (fun t => tx_wallet t = user_pk user) (transactions db) in
  WalletService.get_transaction_history user limit db
  = (db,
     Returned
       match wallets db !! user_pk user with
       | None => []
       | Some _ =>
           match limit with
           | None | Some O => reverse entries
           | Some n => reverse (drop (length entries - n) entries)
           end
       end).
Proof.
  intros entries.
  unfold WalletService.get_transaction_history,
    WalletRepository.get_wallet_by_user,
    TransactionRepository.get_transactions_by_wallet.
  unfold bind, query, ret.
  destruct (wallets db !! user_pk user) as [b|]; [|done].
  cbn [fmap option_fmap option_map wallet_user]. fold entries.
  destruct limit as [[|n]|]; [done| |done].
  rewrite bool_decide_eq_true_2 by done. by rewrite take_reverse.
Qed.

(** X15: [get_transaction_history] changes nothing and answers with
    entries of the wallet of the user only; without a wallet the answer is
    empty; with a wallet, the limit [None] and the limit 0 both give the
    whole history, newest first, and a limit [n] above 0 gives its first
    [n] entries, or all of them when there are fewer. *)
Theorem transaction_history_limit user limit db :
  let newest_first :=
    reverse (filter (fun t => tx_wallet t = user_pk user) (transactions db)) in
  exists l,
    WalletService.get_transaction_history user limit db = (db, Returned l)
    /\ (forall t, t ∈ l -> tx_wallet t = user_pk user /\ t ∈ transactions db)
    /\ (wallets db !! user_pk user = None -> l = [])
    /\ (is_Some (wallets db !! user_pk user) ->
        match limit with
        | None | Some O => l = newest_first
        | Some n =>
            l = take n newest_first
            /\ length l = Nat.min n (length newest_first)
        end).
Proof.
  intros newest_first. rewrite get_transaction_history_eq. cbn zeta.
  eexists. split; [done|].
  assert (forall n t,
            t ∈ reverse (drop n (filter (fun t => tx_wallet t = user_pk user)
                                   (transactions db))) ->
            tx_wallet t = user_pk user /\ t ∈ transactions db) as Hin.
  { intros n t Ht. rewrite elem_of_reverse in Ht.
    apply list_elem_of_lookup in Ht as [i Hi]. rewrite lookup_drop in Hi.
    apply list_elem_of_lookup_2, list_elem_of_filter in Hi. done. }
  destruct (wallets db !! user_pk user) as [b|].
  - split; [|split; [done|]].
    + destruct limit as [[|n]|]; [apply (Hin 0%nat)|apply Hin|apply (Hin 0%nat)].
    + intros _. destruct limit as [[|n]|]; [done| |done].
      unfold newest_first. rewrite take_reverse. split; [done|].
      rewrite <- take_reverse, length_take. done.
  - split; [intros t Ht; by apply elem_of_nil in Ht|].
    split; [done|]. by intros [? ?].
Qed.

Lemma history_newest user db (t : Transaction) l :
  is_Some (wallets db !! user_pk user) ->
  transactions db = l ++ [t] -> tx_wallet t = user_pk user ->
  (WalletService.get_transaction_history user (Some 1%nat) db).2
  = Returned [t].
Proof.
  intros [b Hb] Hl Ht. rewrite get_transaction_history_eq. cbn [snd].
  rewrite Hb, Hl. rewrite filter_app, filter_cons_True by done.
  rewrite filter_nil, length_app. simpl.
  replace (length (filter _ l) + 1 - 1)%nat with (length (filter (fun t => tx_wallet t = user_pk user) l)) by lia.
  by rewrite drop_app_length.
Qed.

(** X16: a deposit always succeeds, and its ledger entry, of type DEPOSIT
    and of the amount deposited, is then the newest entry of the history of
    the user. *)
Theorem deposit_heads_history user amount description db :
  let run := WalletService.deposit_funds user amount description db in
  exists receipt,
    run.2 = Returned (Success receipt)
    /\ transaction_type (transaction receipt) = DEPOSIT
    /\ tx_amount (transaction receipt) = amount
    /\ (WalletService.get_transaction_history user (Some 1%nat) run.1).2
       = Returned [transaction receipt].
Proof.
  intros run. unfold run. rewrite deposit_funds_eq. cbn zeta. cbn [fst snd].
  eexists. split; [done|]. cbn [transaction transaction_type tx_amount].
  split; [done|]. split; [done|].
  eapply history_newest; simpl; [|done..].
  rewrite lookup_insert_eq. by eexists.
Qed.

(** X17: after a successful transfer the credit entry, of the amount, is
    the newest entry of the history of the receiver, and the debit entry, of
    the negated amount, is the newest entry of the history of the sender when
    the two are different users. *)
Theorem transfer_heads_histories from_user to_user a k r db db' receipt :
  WalletService.transfer_funds from_user to_user a k r db
  = (db', Returned (Success receipt)) ->
  tx_amount (from_transaction receipt) = - a
  /\ tx_amount (to_transaction receipt) = a
  /\ (WalletService.get_transaction_history to_user (Some 1%nat) db').2
     = Returned [to_transaction receipt]
  /\ (user_pk from_user <> user_pk to_user ->
      (WalletService.get_transaction_history from_user (Some 1%nat) db').2
      = Returned [from_transaction receipt]).
Proof.
  rewrite transfer_funds_eq. cbn zeta.
  destruct (wallets db !! user_pk from_user) as [b|] eqn:Hf; [|done].
  case_bool_decide; [|done]. intros [= <- <-].
  cbn [from_transaction to_transaction tx_amount].
  split; [done|]. split; [done|]. split.
  - eapply (history_newest _ _ _ (transactions db ++ [_])); simpl.
    + rewrite lookup_insert_eq. by eexists.
    + by rewrite <- app_assoc.
    + done.
  - intros Hne. rewrite get_transaction_history_eq. cbn [snd wallets].
    rewrite lookup_insert_ne by done. rewrite lookup_insert_eq.
    cbn [transactions]. rewrite filter_app.
    rewrite filter_cons_True by done. rewrite filter_cons_False by (simpl; congruence).
    rewrite filter_nil, length_app. simpl.
    replace (length (filter _ (transactions db)) + 1 - 1)%nat
      with (length (filter (fun t => tx_wallet t = user_pk from_user)
                      (transactions db))) by lia.
    by rewrite drop_app_length.
Qed.

Lemma transfer_heads_histories_witness :
  exists db' receipt,
    WalletService.transfer_funds alice bob 2500 LOAN_FUNDING None db_alice_bob
    = (db', Returned (Success receipt))
    /\ (WalletService.get_transaction_history bob (Some 1%nat) db').2
       = Returned [to_transaction receipt].
Proof.
  assert (exists db' receipt,
            WalletService.transfer_funds alice bob 2500 LOAN_FUNDING None
              db_alice_bob
            = (db', Returned (Success receipt))) as (db' & receipt & E).
  { eexists _, _. vm_compute. reflexivity. }
  exists db', receipt. split; [exact E|].
  destruct (transfer_heads_histories alice bob 2500 LOAN_FUNDING None
              db_alice_bob db' receipt E) as (_ & _ & K & _).
  exact K.
Defined.

(** ** Reading a wallet *)

(** X18: the view [balance] changes nothing and reports the balance of the
    wallet, 0 without a wallet. The view [get_wallet] reports the same
    balance but writes: afterwards the user has a wallet, created with
    balance 0 when it was missing; with a wallet it changes nothing; in
    both cases the other wallets and the ledger stay as they were. *)
Theorem wallet_read_views user db :
  WalletViews.balance user db
  = (db, Returned (mkResponse 200 (Success (balance_of db (user_pk user)))))
  /\ exists db',
       WalletViews.get_wallet user db
       = (db', Returned
                 (mkResponse 200
                    (Success (mkWallet (user_pk user)
                                (balance_of db (user_pk user))))))
       /\ wallets db' !! user_pk user = Some (balance_of db (user_pk user))
       /\ (forall u, u <> user_pk user -> wallets db' !! u = wallets db !! u)
       /\ (is_Some (wallets db !! user_pk user) -> db' = db)
       /\ transactions db' = transactions db.
Proof.
  split.
  - unfold WalletViews.balance, WalletService.get_wallet_balance,
      WalletRepository.get_wallet_by_user, balance_of.
    unfold bind, query, ret. by destruct (wallets db !! user_pk user).
  - unfold WalletViews.get_wallet. unfold bind.
    rewrite get_or_create_wallet_eq. unfold ret. eexists. split; [done|].
    unfold balance_of.
    destruct (wallets db !! user_pk user) as [b|] eqn:E; simpl.
    + rewrite E. done.
    + rewrite lookup_insert_eq. split; [done|].
      split; [intros u Hu; by rewrite lookup_insert_ne|].
      split; [by intros [? ?]|done].
Qed.

(** ** The total of a loan *)

Lemma sum_schedule_amounts today loan_id loan monthly :
  foldr Z.add 0 (payment_amount <$> schedule_rows today loan_id loan monthly)
  = Dec.rescale monthly (-2) * Z.of_nat (Z.to_nat (term_months loan)).
Proof.
  unfold schedule_rows, seqZ. rewrite <- !list_fmap_compose.
  generalize (Z.to_nat (term_months loan)) as n.
  generalize 0%nat as a. intros a n. revert a.
  induction n as [|n IH]; intros a; [simpl; lia|].
  cbn [seq fmap list_fmap foldr compose payment_amount].
  change (foldr Z.add 0 (list_fmap _ _ ?f (seq (S a) n)))
    with (foldr Z.add 0 (f <$> seq (S a) n)).
  rewrite IH. lia.
Qed.

(** X19: for a loan with a term above 0 and a monthly rate that is not
    zero, the monthly payment has two decimal places, and [total_amount] is
    exactly the sum of the installments of the schedule, as long as that
    product stays below 28 digits. *)
Theorem total_amount_is_schedule_sum today loan_id loan rate payment :
  monthly_rate loan = Some rate ->
  Dec.eqb rate (Dec.of_Z 0) = false ->
  0 < term_months loan ->
  monthly_payment loan = Some payment ->
  Z.abs (Dec.coeff payment) * term_months loan < 10 ^ 28 ->
  Dec.expo payment = -2
  /\ total_amount loan
     = Some (Dec.mk
               (foldr Z.add 0
                  (payment_amount
                   <$> schedule_rows today loan_id loan payment))
               (-2)).
Proof.
  intros Hr Hz Ht Hp Hbound.
  assert (Dec.expo payment = -2) as He.
  { unfold monthly_payment in Hp.
    destruct (Z.eqb_spec (term_months loan) 0); [lia|].
    rewrite Hr, Hz in Hp.
    destruct (unrounded_payment loan rate) as [u|]; [|done].
    unfold Dec.quantize in Hp.
    destruct (Dec.coeff u =? 0); [by injection Hp as <-|].
    destruct (Dec.prec <? _); [done|].
    destruct (Dec.prec <? _); [done|]. by injection Hp as <-. }
  split; [done|].
  unfold total_amount. rewrite Hp. f_equal.
  rewrite sum_schedule_amounts. rewrite Z2Nat.id by lia.
  unfold Dec.rescale. rewrite He. cbn [Z.leb Z.compare]. 
  change (-2 - -2) with 0. rewrite Z.pow_0_r, Z.mul_1_r.
  unfold Dec.mul, Dec.fix_, Dec.of_Z. cbn [Dec.coeff Dec.expo].
  rewrite He.
  assert (Dec.digits (Dec.coeff payment * term_months loan) <= Dec.prec) as Hd.
  { apply digits_bound; [done|]. rewrite Z.abs_mul.
    rewrite (Z.abs_eq (term_months loan)) by lia. done. }
  destruct (Z.leb_spec (Dec.digits (Dec.coeff payment * term_months loan))
              Dec.prec); [|lia].
  f_equal.
Qed.

Lemma total_amount_is_schedule_sum_witness :
  monthly_rate funded_loan = Some (Dec.mk 1 (-2))
  /\ monthly_payment funded_loan = Some (Dec.mk 50751 (-2))
  /\ total_amount funded_loan
     = Some (Dec.mk
               (foldr Z.add 0
                  (payment_amount
                   <$> schedule_rows (mkDate 2024 1 15) 1 funded_loan
                         (Dec.mk 50751 (-2))))
               (-2)).
Proof.
  assert (monthly_rate funded_loan = Some (Dec.mk 1 (-2))) as H1
    by (by vm_compute).
  assert (monthly_payment funded_loan = Some (Dec.mk 50751 (-2))) as H2
    by (by vm_compute).
  split; [exact H1|]. split; [exact H2|].
  destruct (total_amount_is_schedule_sum (mkDate 2024 1 15) 1 funded_loan
              (Dec.mk 1 (-2)) (Dec.mk 50751 (-2)) H1) as [_ K].
  - by vm_compute.
  - by vm_compute.
  - exact H2.
  - by vm_compute.
  - exact K.
Defined.

(** ** Sorted answers *)

Global Instance by_rate_trans : Transitive OfferRepository.by_rate.
Proof. intros a b c. unfold OfferRepository.by_rate. lia. Qed.

Global Instance by_rate_total : Total OfferRepository.by_rate.
Proof. intros a b. unfold OfferRepository.by_rate. lia. Qed.

Global Instance by_payment_number_trans :
  Transitive PaymentRepository.by_payment_number.
Proof. intros a b c. unfold PaymentRepository.by_payment_number. lia. Qed.

Global Instance by_payment_number_total :
  Total PaymentRepository.by_payment_number.
Proof. intros a b. unfold PaymentRepository.by_payment_number. lia. Qed.

Lemma elem_of_merge_sort {A} (R : relation A) `{!forall x y, Decision (R x y)}
    (l : list A) x :
  x ∈ merge_sort R l <-> x ∈ l.
Proof. by rewrite merge_sort_Permutation. Qed.

(** X20: [get_offers_for_loan] changes nothing; for a missing loan it
    answers with the empty list, for an existing loan with exactly the offers
    of that loan, each once, sorted by rate, lowest first. *)
Theorem get_offers_for_loan_sorted loan_id db :
  exists l,
    OfferService.get_offers_for_loan loan_id db = (db, Returned l)
    /\ (loans db !! loan_id = None -> l = [])
    /\ (is_Some (loans db !! loan_id) ->
        forall k o, (k, o) ∈ l <->
          offers db !! k = Some o /\ offer_loan o = loan_id)
    /\ NoDup l.*1
    /\ StronglySorted (fun a b => offer_rate a.2 <= offer_rate b.2) l.
Proof.
  unfold OfferService.get_offers_for_loan, LoanRepository.get_loan_by_id,
    OfferRepository.get_offers_for_loan.
  unfold bind, query, ret.
  destruct (loans db !! loan_id) as [loan|] eqn:Hl;
    cbn [fmap option_fmap option_map fst snd].
  - eexists. split; [done|]. split; [done|]. split; [|split].
    + intros _ k o. rewrite elem_of_merge_sort, elem_of_rows_where.
      by rewrite bool_decide_eq_true.
    + rewrite merge_sort_Permutation. unfold rows_where.
      eapply NoDup_fmap_fst.
      * intros k x y Hx Hy. apply list_elem_of_filter in Hx as [_ Hx].
        apply list_elem_of_filter in Hy as [_ Hy].
        apply elem_of_map_to_list in Hx, Hy. congruence.
      * apply NoDup_filter, NoDup_map_to_list.
    + apply (StronglySorted_merge_sort OfferRepository.by_rate).
  - exists []. split; [done|]. split; [done|].
    split; [by intros [? ?]|]. split; constructor.
Qed.

(** X21: [get_payment_schedule] changes nothing; for a missing loan and
    for a user who is neither the borrower nor the lender of the loan it
    answers with the empty list; for the borrower and for the lender it
    answers with exactly the payments of the loan; the answer is sorted by
    payment number. *)
Theorem get_payment_schedule_access loan_id user db :
  exists l,
    PaymentService.get_payment_schedule loan_id user db = (db, Returned l)
    /\ (loans db !! loan_id = None -> l = [])
    /\ (forall loan, loans db !! loan_id = Some loan ->
          user_pk user <> user_pk (borrower loan) ->
          (forall v, lender loan = Some v -> user_pk user <> user_pk v) ->
          l = [])
    /\ (forall loan, loans db !! loan_id = Some loan ->
          user_pk user = user_pk (borrower loan)
          \/ (exists v, lender loan = Some v /\ user_pk user = user_pk v) ->
          forall k p, (k, p) ∈ l <->
            payments db !! k = Some p /\ payment_loan p = loan_id)
    /\ StronglySorted (fun a b => payment_number a.2 <= payment_number b.2) l.
Proof.
  unfold PaymentService.get_payment_schedule, LoanRepository.get_loan_by_id,
    PaymentRepository.get_payments_for_loan.
  unfold bind at 1. unfold query at 1.
  destruct (loans db !! loan_id) as [loan|] eqn:Hl;
    cbn [fmap option_fmap option_map fst snd].
  2:{ exists []. repeat split; try done. constructor. }
  unfold user_eqb, is_lender, user_eqb.
  destruct (bool_decide (user_pk user = user_pk (borrower loan))
            || match lender loan with
               | Some v => bool_decide (user_pk v = user_pk user)
               | None => false
               end) eqn:Hacc; cbn [negb].
  - eexists. split; [done|]. split; [done|]. split; [|split].
    + intros loan' [= <-] Hb Hv. exfalso.
      apply orb_true_iff in Hacc as [Hacc|Hacc].
      * by apply bool_decide_eq_true in Hacc.
      * destruct (lender loan) as [v|]; [|done].
        apply bool_decide_eq_true in Hacc. by eapply Hv.
    + intros loan' _ _ k p. rewrite elem_of_merge_sort, elem_of_rows_where.
      by rewrite bool_decide_eq_true.
    + apply (StronglySorted_merge_sort PaymentRepository.by_payment_number).
  - exists []. split; [done|]. split; [done|]. split; [done|]. split.
    + intros loan' [= <-] Hu. exfalso.
      apply orb_false_iff in Hacc as [Hb Hv].
      apply bool_decide_eq_false in Hb.
      destruct Hu as [Hu|[v [Hv1 Hv2]]]; [done|].
      rewrite Hv1 in Hv. apply bool_decide_eq_false in Hv. done.
    + constructor.
Qed.

(** ** After the sweep *)

Global Instance by_due_date_total : Total PaymentRepository.by_due_date.
Proof.
  intros a b. unfold PaymentRepository.by_due_date, date_ltb.
  destruct (Z.ltb_spec (year (due_date a.2)) (year (due_date b.2)));
    destruct (Z.ltb_spec (year (due_date b.2)) (year (due_date a.2)));
    destruct (Z.eqb_spec (year (due_date a.2)) (year (due_date b.2)));
    destruct (Z.eqb_spec (year (due_date b.2)) (year (due_date a.2)));
    destruct (Z.ltb_spec (month (due_date a.2)) (month (due_date b.2)));
    destruct (Z.ltb_spec (month (due_date b.2)) (month (due_date a.2)));
    destruct (Z.eqb_spec (month (due_date a.2)) (month (due_date b.2)));
    destruct (Z.eqb_spec (month (due_date b.2)) (month (due_date a.2)));
    destruct (Z.ltb_spec (day (due_date a.2)) (day (due_date b.2)));
    destruct (Z.ltb_spec (day (due_date b.2)) (day (due_date a.2)));
    simpl; auto; lia.
Qed.

(** X22: after the sweep of a day no payment is overdue in the sense of
    [Payment.is_overdue] on that day, [get_overdue_payments] finds nothing,
    and the pending payments of any borrower are PENDING payments due on
    that day or later, sorted by due date. *)
Theorem sweep_clears_overdue today db borrower_ :
  let db' := (Tasks.check_overdue_payments today db).1 in
  (forall k p, payments db' !! k = Some p -> is_overdue today p = false)
  /\ PaymentRepository.get_overdue_payments today db' = (db', Returned [])
  /\ exists l,
       PaymentService.get_pending_payments borrower_ db' = (db', Returned l)
       /\ (forall k p, (k, p) ∈ l ->
             payment_status p = PENDING
             /\ date_ltb (due_date p) today = false)
       /\ Sorted (fun a b => date_ltb (due_date b.2) (due_date a.2) = false) l.
Proof.
  intros db'.
  assert (forall k p, payments db' !! k = Some p -> is_overdue today p = false)
    as Hclear.
  { intros k p Hp. unfold db' in Hp.
    destruct (check_overdue_payments_eq today db) as [summary [E _]].
    rewrite E in Hp. simpl in Hp. rewrite lookup_fmap in Hp.
    destruct (payments db !! k) as [p0|]; [|done]. injection Hp as <-.
    apply sweep_row_not_past_due. }
  split; [done|]. split.
  { unfold PaymentRepository.get_overdue_payments, query. do 2 f_equal.
    apply rows_where_none. intros k p Hp. by apply Hclear in Hp. }
  unfold PaymentService.get_pending_payments,
    PaymentRepository.get_pending_payments_by_borrower, query.
  eexists. split; [done|].
  split; [|apply (Sorted_merge_sort PaymentRepository.by_due_date)].
  intros k p Hin.
  apply elem_of_merge_sort, elem_of_rows_where in Hin as [Hp Hf].
  apply andb_true_iff in Hf as [_ Hs]. apply bool_decide_eq_true in Hs.
  split; [done|]. specialize (Hclear k p Hp). unfold is_overdue in Hclear.
  rewrite bool_decide_eq_true_2 in Hclear by done. done.
Qed.

(** ** The status report *)

Lemma loan_status_partition (l : list (nat * Loan)) :
  sum_list
    ((fun s => length (filter (fun r => bool_decide (status r.2 = s) = true) l))
     <$> [REQUESTED; PENDING_FUNDING; FUNDED; COMPLETED; CANCELLED])
  = length l.
Proof.
  induction l as [|[k x] l IH]; [done|].
  simpl in *. destruct (status x) eqn:E;
    repeat (first [ rewrite filter_cons_True by (simpl; rewrite E; done)
                  | rewrite filter_cons_False by (simpl; rewrite E; done) ]);
    simpl; lia.
Qed.

Lemma payment_status_partition (l : list (nat * Payment)) :
  sum_list
    ((fun s =>
        length (filter (fun r => bool_decide (payment_status r.2 = s) = true) l))
     <$> [PENDING; PAID; OVERDUE])
  = length l.
Proof.
  induction l as [|[k x] l IH]; [done|].
  simpl in *. destruct (payment_status x) eqn:E;
    repeat (first [ rewrite filter_cons_True by (simpl; rewrite E; done)
                  | rewrite filter_cons_False by (simpl; rewrite E; done) ]);
    simpl; lia.
Qed.

(** X23: the status report changes nothing; its total of loans is the
    number of loan rows and its total of payments the number of payment
    rows: the counts by status count every row once. *)
Theorem status_report_totals db :
  exists report,
    loan_status_summary_report db = (db, Returned report)
    /\ total_loans report = size (loans db)
    /\ total_payments report = size (payments db)
    /\ total_loans report = sum_list (loan_status_counts report).*2
    /\ total_payments report = sum_list (payment_status_counts report).*2.
Proof.
  unfold loan_status_summary_report, query. eexists. split; [done|].
  cbn [total_loans total_payments loan_status_counts payment_status_counts].
  split; [|split; [|done]].
  - rewrite <- list_fmap_compose. unfold compose. cbn [snd].
    unfold rows_where. rewrite loan_status_partition.
    apply length_map_to_list.
  - rewrite <- list_fmap_compose. unfold compose. cbn [snd].
    unfold rows_where. rewrite payment_status_partition.
    apply length_map_to_list.
Qed.

(** ** The due dates of a schedule *)

Lemma days_in_month_bounds y m : 28 <= days_in_month y m <= 31.
Proof.
  unfold days_in_month. destruct (m =? 2); [destruct (is_leap y); lia|].
  destruct (_ || _); lia.
Qed.

Lemma add_months_valid d k : 1 <= day d -> valid_date (add_months d k).
Proof.
  intros Hd. unfold valid_date, add_months. cbn [year month day].
  pose proof (Z.mod_pos_bound (month d - 1 + k) 12 ltac:(lia)).
  pose proof (days_in_month_bounds (year d + (month d - 1 + k) / 12)
                ((month d - 1 + k) mod 12 + 1)).
  lia.
Qed.

Lemma add_months_lt d j k :
  j < k -> date_ltb (add_months d j) (add_months d k) = true.
Proof.
  intros Hjk. unfold date_ltb, add_months. cbn [year month day].
  pose proof (Z.div_mod (month d - 1 + j) 12 ltac:(lia)).
  pose proof (Z.div_mod (month d - 1 + k) 12 ltac:(lia)).
  pose proof (Z.mod_pos_bound (month d - 1 + j) 12 ltac:(lia)).
  pose proof (Z.mod_pos_bound (month d - 1 + k) 12 ltac:(lia)).
  destruct (Z.ltb_spec (year d + (month d - 1 + j) / 12)
              (year d + (month d - 1 + k) / 12)); [done|].
  destruct (Z.eqb_spec (year d + (month d - 1 + j) / 12)
              (year d + (month d - 1 + k) / 12)); [|lia].
  destruct (Z.ltb_spec ((month d - 1 + j) mod 12 + 1)
              ((month d - 1 + k) mod 12 + 1)); [done|lia].
Qed.

Lemma add_months_zero d :
  valid_date d -> add_months d 0 = d.
Proof.
  intros [Hm Hd]. unfold add_months. destruct d as [y m dd]. cbn in *.
  rewrite Z.add_0_r.
  rewrite (Z.div_small (m - 1) 12) by lia.
  rewrite (Z.mod_small (m - 1) 12) by lia.
  rewrite Z.add_0_r. replace (m - 1 + 1) with m by lia.
  f_equal. lia.
Qed.

(** X24: for a calendar date of funding, every due date of the schedule is
    a calendar date after the date of funding whose day of the month is not
    after that of the funding, and the due dates grow strictly with the
    payment number. *)
Theorem schedule_due_dates today loan_id loan monthly :
  let funding_date :=
    match funded_at loan with Some t => dt_date t | None => today end in
  let rows := schedule_rows today loan_id loan monthly in
  valid_date funding_date ->
  (forall p, p ∈ rows ->
     valid_date (due_date p)
     /\ date_ltb funding_date (due_date p) = true
     /\ day (due_date p) <= day funding_date)
  /\ (forall p q, p ∈ rows -> q ∈ rows ->
        payment_number p < payment_number q ->
        date_ltb (due_date p) (due_date q) = true).
Proof.
  intros funding_date rows Hv. split.
  - intros p Hp. apply schedule_rows_spec in Hp as [n [Hn ->]].
    cbn [due_date]. fold funding_date. split; [|split].
    + apply add_months_valid. apply Hv.
    + rewrite <- (add_months_zero funding_date Hv) at 1.
      apply add_months_lt. lia.
    + unfold add_months. cbn [day]. lia.
  - intros p q Hp Hq. apply schedule_rows_spec in Hp as [n [Hn ->]].
    apply schedule_rows_spec in Hq as [n' [Hn' ->]]. cbn [payment_number due_date].
    apply add_months_lt.
Qed.

Lemma schedule_due_dates_witness :
  valid_date (mkDate 2024 1 15)
  /\ forall p q,
       p ∈ schedule_rows (mkDate 2024 1 15) 1 funded_loan (Dec.mk 50751 (-2)) ->
       q ∈ schedule_rows (mkDate 2024 1 15) 1 funded_loan (Dec.mk 50751 (-2)) ->
       payment_number p < payment_number q ->
       date_ltb (due_date p) (due_date q) = true.
Proof.
  assert (valid_date (mkDate 2024 1 15)) as H.
  { unfold valid_date. vm_compute. repeat split; discriminate. }
  split; [exact H|].
  destruct (schedule_due_dates (mkDate 2024 1 15) 1 funded_loan
              (Dec.mk 50751 (-2)) H) as [_ K].
  exact K.
Defined.

(** ** The schedule after a funding *)

Lemma insert_rows_to_list {A} (rows : list A) (m : gmap nat A) :
  exists ks,
    length ks = length rows
    /\ map_to_list (insert_rows rows m) ≡ₚ zip ks rows ++ map_to_list m.
Proof.
  revert m. induction rows as [|row rows IH]; intros m.
  - exists []. done.
  - change (insert_rows (row :: rows) m)
      with (insert_rows rows (<[next_pk m := row]> m)).
    destruct (IH (<[next_pk m := row]> m)) as [ks [Hlen Hperm]].
    exists (next_pk m :: ks). split; [simpl; by rewrite Hlen|].
    rewrite Hperm. rewrite map_to_list_insert by apply next_pk_fresh.
    simpl. by rewrite Permutation_middle.
Qed.

Lemma strongly_sorted_fmap_seq {A} (R : relation A) (f : nat -> A) n a :
  (forall i j, (i < j)%nat -> R (f i) (f j)) ->
  StronglySorted R (f <$> seq a n).
Proof.
  intros Hf. revert a. induction n as [|n IH]; intros a; simpl.
  - constructor.
  - constructor; [apply IH|]. apply Forall_fmap, Forall_forall.
    intros j Hj. apply elem_of_seq in Hj. apply Hf. lia.
Qed.

Lemma schedule_rows_sorted today loan_id loan monthly :
  StronglySorted (fun p q => payment_number p <= payment_number q)
    (schedule_rows today loan_id loan monthly).
Proof.
  unfold schedule_rows, seqZ. rewrite <- list_fmap_compose.
  apply strongly_sorted_fmap_seq. intros i j Hij. simpl. lia.
Qed.

Lemma filter_zip_snd {A} (f : A -> bool) (ks : list nat) (rows : list A) :
  length ks = length rows -> Forall (fun x => f x = true) rows ->
  (filter (fun r : nat * A => f r.2 = true) (zip ks rows)).*2 = rows.
Proof.
  revert ks. induction rows as [|row rows IH]; intros [|k ks] Hlen Hall;
    try done.
  apply Forall_cons in Hall as [Hrow Hall]. simpl.
  rewrite filter_cons_True by done. simpl. f_equal. apply IH; [|done].
  simpl in Hlen. lia.
Qed.

(** X25: on a database with consistent schedules, after [fund_loan] has
    succeeded the borrower and the lender see with [get_payment_schedule]
    exactly the installments 1 to [term_months], in this order, each
    PENDING, of the monthly payment of the loan rounded to cents, and due
    as many months after the day of funding as its number says. *)
Theorem funded_schedule now fee loan_id lender_ user db db' funded :
  schedules_consistent db ->
  LoanFundingService.fund_loan now fee loan_id lender_ db
  = (db', Returned (Success funded)) ->
  user_pk user = user_pk lender_
  \/ user_pk user = user_pk (borrower funded.2) ->
  exists monthly l,
    monthly_payment funded.2 = Some monthly
    /\ PaymentService.get_payment_schedule loan_id user db'
       = (db', Returned l)
    /\ l.*2
       = (fun n =>
            mkPayment loan_id n (add_months (dt_date now) n)
              (Dec.rescale monthly (-2)) PENDING None)
         <$> seqZ 1 (term_months funded.2).
Proof.
  intros (P & L & C) Hfund Huser.
  destruct (fund_loan_cases now fee loan_id lender_ db)
    as [[e [E _]]|[H|H]]; [congruence| |].
  { destruct H as (loan & e & _ & _ & E). congruence. }
  destruct H as (loan & monthly & db1 & db2 & r1 & r2 & H).
  destruct H as (Hl & Hil & Hs & Ht & Hf & Hm & Hc & E).
  rewrite E in Hfund. injection Hfund as <- <-. cbn [snd] in *.
  exists monthly.
  set (rows := schedule_rows (dt_date now) loan_id (set_funded now loan) monthly).
  assert (forall k p, payments db !! k = Some p -> payment_loan p <> loan_id)
    as Hno.
  { intros k p Hp <-. destruct (P k p Hp) as [l0 [Hl' [Hs'|Hs']]];
      rewrite Hl in Hl'; injection Hl' as <-; congruence. }
  unfold PaymentService.get_payment_schedule, LoanRepository.get_loan_by_id,
    PaymentRepository.get_payments_for_loan.
  unfold bind at 1. unfold query at 1. cbn [loans].
  rewrite lookup_insert_eq. cbn [fmap option_fmap option_map fst snd].
  assert (user_eqb user (borrower (set_funded now loan))
          || is_lender (set_funded now loan) user = true) as ->.
  { apply orb_true_iff. unfold user_eqb. cbn [borrower set_funded].
    destruct Huser as [Hu|Hu]; [right|left; by apply bool_decide_eq_true_2].
    apply is_lender_pk in Hil as [v [Hv Hvu]].
    unfold is_lender, user_eqb, set_funded. cbn [lender]. rewrite Hv.
    apply bool_decide_eq_true_2. congruence. }
  cbn [negb]. unfold query. cbn [payments]. eexists. split; [done|].
  split; [done|].
  fold rows.
  assert ((fun n => mkPayment loan_id n (add_months (dt_date now) n)
                      (Dec.rescale monthly (-2)) PENDING None)
          <$> seqZ 1 (term_months (set_funded now loan)) = rows) as -> by done.
  destruct (insert_rows_to_list rows (payments db)) as [ks [Hlen Hperm]].
  assert (Forall (fun p => bool_decide (payment_loan p = loan_id) = true) rows)
    as Hrows.
  { apply Forall_forall. intros p Hp.
    apply schedule_rows_spec in Hp as [n [_ ->]].
    by apply bool_decide_eq_true_2. }
  set (l := merge_sort PaymentRepository.by_payment_number
              (rows_where (fun p => bool_decide (payment_loan p = loan_id))
                 (insert_rows rows (payments db)))).
  assert (l.*2 ≡ₚ rows) as Hp2.
  { unfold l. rewrite merge_sort_Permutation. unfold rows_where.
    rewrite Hperm. rewrite filter_app, fmap_app.
    pose proof (filter_zip_snd
                  (fun p => bool_decide (payment_loan p = loan_id))
                  ks rows Hlen Hrows) as Hz.
    cbn beta in Hz. rewrite Hz.
    change (filter (fun r : nat * Payment =>
                      bool_decide (payment_loan r.2 = loan_id) = true)
              (map_to_list (payments db)))
      with (rows_where (fun p => bool_decide (payment_loan p = loan_id))
              (payments db)).
    rewrite rows_where_none; [by rewrite app_nil_r|].
    intros k p Hp. apply bool_decide_eq_false_2. by eapply Hno. }
  apply (StronglySorted_unique_strong
           (fun p q => payment_number p <= payment_number q)).
  - intros x1 x2 Hx1 Hx2 H12 H21. rewrite Hp2 in Hx1.
    apply schedule_rows_spec in Hx1 as [n1 [_ ->]].
    apply schedule_rows_spec in Hx2 as [n2 [_ ->]].
    cbn [payment_number] in *. assert (n1 = n2) as -> by lia. done.
  - apply (StronglySorted_fmap snd PaymentRepository.by_payment_number).
    + by intros [] [].
    + apply (StronglySorted_merge_sort PaymentRepository.by_payment_number).
  - apply schedule_rows_sorted.
  - done.
Qed.

Lemma schedules_consistent_pending_loan : schedules_consistent db_pending_loan.
Proof.
  unfold schedules_consistent, db_pending_loan. cbn [payments loans].
  split; [|split].
  - intros k p Hp. rows_solve.
  - intros k l Hl Hs. rows_solve; by destruct Hs.
  - intros k l Hl Hs. rows_solve.
Qed.

Lemma funded_schedule_witness :
  schedules_consistent db_pending_loan
  /\ exists db' funded monthly l,
       LoanFundingService.fund_loan noon 375 1 alice db_pending_loan
       = (db', Returned (Success funded))
       /\ monthly_payment funded.2 = Some monthly
       /\ PaymentService.get_payment_schedule 1 bob db' = (db', Returned l)
       /\ l.*2
          = (fun n =>
               mkPayment 1 n (add_months (dt_date noon) n)
                 (Dec.rescale monthly (-2)) PENDING None)
            <$> seqZ 1 (term_months funded.2).
Proof.
  split; [exact schedules_consistent_pending_loan|].
  assert (exists db' funded,
            LoanFundingService.fund_loan noon 375 1 alice db_pending_loan
            = (db', Returned (Success funded))
            /\ user_pk bob = user_pk (borrower funded.2))
    as (db' & funded & E & Hb).
  { eexists _, _. split; [vm_compute; reflexivity|reflexivity]. }
  destruct (funded_schedule noon 375 1 alice bob db_pending_loan db' funded
              schedules_consistent_pending_loan E (or_intror Hb))
    as (monthly & l & K1 & K2 & K3).
  exists db', funded, monthly, l.
  split; [exact E|]. split; [exact K1|]. split; [exact K2|exact K3].
Defined.

(** ** Loan requests *)

Lemma create_loan_eq borrower_ amount_ term rate db :
  LoanService.create_loan borrower_ amount_ term rate db =
  if negb (bool_decide (role borrower_ = BORROWER))
  then (db, Returned RolePermissionError)
  else
    let loan := mkLoan borrower_ None amount_ term rate REQUESTED None in
    (set_loans (fun m => <[next_pk m := loan]> m) db,
     Returned (RolePermitted (next_pk (loans db), loan))).
Proof.
  unfold LoanService.create_loan, LoanRepository.create_loan.
  by destruct (negb _).
Qed.

(** X26: the view [create_loan] raises [RolePermissionError] for a user
    who is not a borrower and changes nothing. For a borrower it creates the
    loan exactly when the amount is above 0 and at most 1,000,000.00, the
    term is 1 to 360 months and the rate is 0 to 50 percent: the loan is
    inserted under a fresh key, REQUESTED, without lender, and nothing else
    changes; otherwise it answers with a non-empty list of errors and
    changes nothing. *)
Theorem create_loan_view user amount_ term rate db :
  let run := LoanViews.create_loan user amount_ term rate db in
  (role user <> BORROWER -> run = (db, Returned RolePermissionError))
  /\ (role user = BORROWER ->
      (0 < amount_ <= 100000000 /\ 1 <= term <= 360 /\ 0 <= rate <= 5000 ->
       let loan := mkLoan user None amount_ term rate REQUESTED None in
       run.2 = Returned (RolePermitted (Created (next_pk (loans db), loan)))
       /\ loans db !! next_pk (loans db) = None
       /\ loans run.1 = <[next_pk (loans db) := loan]> (loans db)
       /\ wallets run.1 = wallets db
       /\ transactions run.1 = transactions db
       /\ offers run.1 = offers db
       /\ payments run.1 = payments db)
      /\ (~ (0 < amount_ <= 100000000 /\ 1 <= term <= 360
             /\ 0 <= rate <= 5000) ->
          exists errors,
            errors <> []
            /\ run = (db, Returned (RolePermitted (BadRequest errors))))).
Proof.
  intros run. unfold run, LoanViews.create_loan. split.
  - intros Hr. by rewrite bool_decide_eq_false_2.
  - intros Hr. rewrite bool_decide_eq_true_2 by done. cbn [negb].
    unfold CreateLoanSerializer.errors, CreateLoanSerializer.validate_amount,
      CreateLoanSerializer.validate_term_months,
      CreateLoanSerializer.validate_annual_interest_rate,
      CreateLoanSerializer.field_errors.
    split.
    + intros (Ha & Ht & Hrate).
      destruct (Z.leb_spec amount_ 0); [lia|].
      destruct (Z.ltb_spec 100000000 amount_); [lia|].
      destruct (Z.ltb_spec term 1); [lia|].
      destruct (Z.ltb_spec 360 term); [lia|].
      destruct (Z.ltb_spec rate 0); [lia|].
      destruct (Z.ltb_spec 5000 rate); [lia|].
      cbn [app]. unfold bind. rewrite create_loan_eq.
      rewrite bool_decide_eq_true_2 by done. cbn [negb]. cbn zeta.
      unfold ret. cbn [fst snd loans wallets transactions offers payments
                       set_loans].
      split; [done|]. split; [apply next_pk_fresh|done].
    + intros Hbad.
      destruct (Z.leb_spec amount_ 0);
        [eexists; split; [|reflexivity]; done|].
      destruct (Z.ltb_spec 100000000 amount_);
        [eexists; split; [|reflexivity]; done|].
      destruct (Z.ltb_spec term 1);
        [eexists; split; [|reflexivity]; done|].
      destruct (Z.ltb_spec 360 term);
        [eexists; split; [|reflexivity]; done|].
      destruct (Z.ltb_spec rate 0);
        [eexists; split; [|reflexivity]; done|].
      destruct (Z.ltb_spec 5000 rate);
        [eexists; split; [|reflexivity]; done|].
      lia.
Qed.

(** ** From the request to the funding *)

(** X27: a request, an offer on it, its acceptance and the funding, one
    after the other, all succeed for a borrower and a different lender whose
    wallet covers the amount and a fee that is not negative, on any database
    whose offers and payments belong to existing loans, when the monthly
    payment of the loan is defined. The loan ends FUNDED with the lender and
    the rate of the offer, the lender has paid the amount and the fee, the
    borrower has received the amount, and the payments of the loan are
    exactly its schedule. *)
Theorem loan_life_to_funding borrower_ lender_ amount_ term rate offered now
    fee bal monthly db :
  role borrower_ = BORROWER -> role lender_ = LENDER ->
  user_pk borrower_ <> user_pk lender_ ->
  foreign_keys_valid db ->
  wallets db !! user_pk lender_ = Some bal ->
  0 <= fee -> amount_ + fee <= bal ->
  monthly_payment
    (mkLoan borrower_ (Some lender_) amount_ term offered FUNDED (Some now))
  = Some monthly ->
  let loan_id := next_pk (loans db) in
  let offer_id := next_pk (offers db) in
  let requested := mkLoan borrower_ None amount_ term rate REQUESTED None in
  let offer := mkOffer loan_id lender_ offered false in
  let pending :=
    mkLoan borrower_ (Some lender_) amount_ term offered PENDING_FUNDING None in
  let funded :=
    mkLoan borrower_ (Some lender_) amount_ term offered FUNDED (Some now) in
  exists db1 db2 db3 db4,
    LoanService.create_loan borrower_ amount_ term rate db
    = (db1, Returned (RolePermitted (loan_id, requested)))
    /\ OfferService.create_offer loan_id lender_ offered db1
       = (db2, Returned (Success (offer_id, offer)))
    /\ OfferService.accept_offer loan_id offer_id borrower_ db2
       = (db3, Returned (Success (loan_id, pending)))
    /\ LoanFundingService.fund_loan now fee loan_id lender_ db3
       = (db4, Returned (Success (loan_id, funded)))
    /\ loans db4 !! loan_id = Some funded
    /\ balance_of db4 (user_pk lender_) = bal - amount_ - fee
    /\ balance_of db4 (user_pk borrower_)
       = balance_of db (user_pk borrower_) + amount_
    /\ (forall p,
          (exists k, payments db4 !! k = Some p /\ payment_loan p = loan_id)
          <-> p ∈ schedule_rows (dt_date now) loan_id funded monthly).
Proof.
  intros Hrb Hrl Hne [FKo FKp] Hbal Hfee Hsum Hm
    loan_id offer_id requested offer pending funded.
  subst requested offer pending funded.
  pose proof (next_pk_fresh (loans db)) as Hfresh. fold loan_id in Hfresh.
  assert (forall k o, offers db !! k = Some o -> offer_loan o <> loan_id)
    as Hno_offer.
  { intros k o Ho E. destruct (FKo k o Ho) as [l Hl]. congruence. }
  assert (forall k p, payments db !! k = Some p -> payment_loan p <> loan_id)
    as Hno_payment.
  { intros k p Hp E. destruct (FKp k p Hp) as [l Hl]. congruence. }
  (* the request *)
  eexists _, _, _, _. split.
  { rewrite create_loan_eq. rewrite bool_decide_eq_true_2 by done. done. }
  (* the offer *)
  split.
  { rewrite create_offer_eq. rewrite bool_decide_eq_true_2 by done.
    cbn [negb loans set_loans]. fold loan_id. rewrite lookup_insert_eq.
    cbn [status]. rewrite bool_decide_eq_true_2 by done. cbn [negb borrower].
    rewrite bool_decide_eq_false_2 by done.
    rewrite bool_decide_eq_false_2.
    2:{ intros (k & o & Ho & Hol & _). simpl in Ho. by eapply Hno_offer. }
    done. }
  (* the acceptance *)
  split.
  { rewrite accept_offer_eq, accept_offer_checks_eq.
    cbn [snd loans offers set_offers set_loans]. fold loan_id offer_id.
    rewrite !lookup_insert_eq. cbn [borrower status offer_loan accepted].
    rewrite !bool_decide_eq_true_2 by done. cbn [negb].
    rewrite accept_offer_writes_eq. done. }
  (* the funding *)
  assert (is_lender
            (mkLoan borrower_ (Some lender_) amount_ term offered
               PENDING_FUNDING None) lender_ = true) as Hil.
  { unfold is_lender, user_eqb. simpl. by apply bool_decide_eq_true_2. }
  assert (existsb (payment_conflict (payments db))
            (schedule_rows (dt_date now) loan_id
               (mkLoan borrower_ (Some lender_) amount_ term offered FUNDED
                  (Some now)) monthly) = false)
    as Hclash.
  { destruct (existsb _ _) eqn:E; [|done]. exfalso.
    apply existsb_exists in E as [row [Hrow Hc]].
    apply list_elem_of_In, schedule_rows_spec in Hrow as [n [_ ->]].
    unfold payment_conflict in Hc. apply bool_decide_eq_true in Hc.
    apply rows_where_nonempty in Hc as [k [q [Hq Hc]]].
    apply bool_decide_eq_true in Hc as [Hc _]. simpl in Hc.
    by eapply Hno_payment. }
  rewrite fund_loan_eq.
  cbn [fst snd loans offers wallets transactions payments set_offers set_loans].
  rewrite lookup_insert_eq.
  unfold set_accepted_terms.
  cbn [borrower amount term_months funded_at offer_lender offer_rate].
  rewrite Hil. cbn [negb status]. rewrite bool_decide_eq_true_2 by done.
  cbn [negb]. rewrite Hbal. cbn [amount].
  rewrite bool_decide_eq_true_2 by lia. cbn [negb].
  rewrite transfer_funds_eq. cbn zeta. cbn [wallets borrower].
  rewrite Hbal. rewrite bool_decide_eq_true_2 by lia.
  rewrite deduct_platform_fee_eq. cbn [wallets].
  rewrite lookup_insert_ne by done. rewrite lookup_insert_eq.
  rewrite bool_decide_eq_true_2 by lia.
  unfold set_funded.
  cbn [borrower lender amount term_months annual_interest_rate]. rewrite Hm.
  cbn [payments loans offers wallets transactions]. rewrite Hclash.
  split; [done|]. cbn [fst loans].
  split; [by rewrite lookup_insert_eq|].
  split.
  { unfold balance_of. cbn [wallets]. rewrite lookup_insert_eq. simpl. lia. }
  split.
  { unfold balance_of. cbn [wallets]. rewrite lookup_insert_ne by done.
    rewrite lookup_insert_eq. done. }
  intros p. cbn [payments].
  destruct (insert_rows_spec
              (schedule_rows (dt_date now) loan_id
                 (mkLoan borrower_ (Some lender_) amount_ term offered FUNDED
                    (Some now)) monthly)
              (payments db)) as (I1 & I2 & I3 & I4).
  split.
  - intros (k & Hk & Hp). apply I2 in Hk as [Hk|[_ Hk]]; [|done].
    exfalso. by eapply Hno_payment.
  - intros Hp. destruct (I3 p Hp) as [k [_ Hk]]. exists k. split; [done|].
    apply schedule_rows_spec in Hp as [n [_ ->]]. done.
Qed.

Lemma foreign_keys_valid_alice_100 : foreign_keys_valid db_alice_100.
Proof.
  unfold foreign_keys_valid, db_alice_100. cbn [offers payments].
  split; intros k x H; rows_solve.
Qed.

Lemma loan_life_to_funding_witness :
  foreign_keys_valid db_alice_100
  /\ monthly_payment (mkLoan bob (Some alice) 5000 3 1000 FUNDED (Some noon))
     = Some (Dec.mk 1695 (-2))
  /\ exists db1 db2 db3 db4,
       LoanService.create_loan bob 5000 3 1200 db_alice_100
       = (db1, Returned
                 (RolePermitted
                    (1%nat, mkLoan bob None 5000 3 1200 REQUESTED None)))
       /\ OfferService.create_offer 1 alice 1000 db1
          = (db2, Returned (Success (1%nat, mkOffer 1 alice 1000 false)))
       /\ OfferService.accept_offer 1 1 bob db2
          = (db3, Returned
                    (Success
                       (1%nat,
                        mkLoan bob (Some alice) 5000 3 1000 PENDING_FUNDING
                          None)))
       /\ LoanFundingService.fund_loan noon 375 1 alice db3
          = (db4, Returned
                    (Success
                       (1%nat,
                        mkLoan bob (Some alice) 5000 3 1000 FUNDED
                          (Some noon))))
       /\ balance_of db4 (user_pk alice) = 10000 - 5000 - 375
       /\ balance_of db4 (user_pk bob) = 5000.
Proof.
  assert (monthly_payment
            (mkLoan bob (Some alice) 5000 3 1000 FUNDED (Some noon))
          = Some (Dec.mk 1695 (-2))) as Hm by (by vm_compute).
  split; [exact foreign_keys_valid_alice_100|]. split; [exact Hm|].
  assert (user_pk bob <> user_pk alice) as Hne by (by vm_compute).
  assert (wallets db_alice_100 !! user_pk alice = Some 10000) as Hw
    by (by vm_compute).
  destruct (loan_life_to_funding bob alice 5000 3 1200 1000 noon 375 10000
              (Dec.mk 1695 (-2)) db_alice_100 eq_refl eq_refl Hne
              foreign_keys_valid_alice_100 Hw ltac:(lia) ltac:(lia) Hm)
    as (db1 & db2 & db3 & db4 & E1 & E2 & E3 & E4 & _ & B1 & B2 & _).
  exists db1, db2, db3, db4.
  split; [exact E1|]. split; [exact E2|]. split; [exact E3|].
  split; [exact E4|]. split; [exact B1|exact B2].
Defined.

(** ** Paying a loan off *)

Lemma rows_where_paid loan_id (m : gmap nat Payment) pk p now :
  m !! pk = Some p -> pending_of loan_id p = true ->
  rows_where (pending_of loan_id) m
  ≡ₚ (pk, p) :: rows_where (pending_of loan_id) (<[pk := mark_as_paid now p]> m).
Proof.
  intros Hp Hf. unfold rows_where.
  rewrite <- (map_to_list_delete m pk p Hp).
  rewrite <- (insert_delete_eq m).
  rewrite map_to_list_insert by apply lookup_delete_eq.
  rewrite filter_cons_True by done.
  rewrite (filter_cons_False _ (pk, mark_as_paid now p)); [done|].
  simpl. unfold pending_of, mark_as_paid. simpl.
  by rewrite andb_false_r.
Qed.

Lemma sum_amounts_perm (l1 l2 : list (nat * Payment)) :
  l1 ≡ₚ l2 ->
  foldr Z.add 0 ((fun r : nat * Payment => payment_amount r.2) <$> l1)
  = foldr Z.add 0 ((fun r : nat * Payment => payment_amount r.2) <$> l2).
Proof.
  induction 1 as [|x l l' _ IH|x y l|l l' l'' _ IH1 _ IH2];
    rewrite ?fmap_cons; cbn [foldr]; lia.
Qed.

Lemma sum_amounts_nonneg (l : list (nat * Payment)) :
  (forall y, y ∈ l -> 0 <= payment_amount y.2) ->
  0 <= foldr Z.add 0 ((fun r : nat * Payment => payment_amount r.2) <$> l).
Proof.
  induction l as [|y l IH]; intros Hall; [simpl; lia|].
  rewrite fmap_cons. cbn [foldr].
  pose proof (Hall y ltac:(apply list_elem_of_here)).
  assert (0 <= foldr Z.add 0
                 ((fun r : nat * Payment => payment_amount r.2) <$> l));
    [|lia].
  apply IH. intros w Hw. apply Hall. by apply list_elem_of_further.
Qed.

Lemma sum_amounts_elem (l : list (nat * Payment)) x :
  (forall y, y ∈ l -> 0 <= payment_amount y.2) -> x ∈ l ->
  payment_amount x.2
  <= foldr Z.add 0 ((fun r : nat * Payment => payment_amount r.2) <$> l).
Proof.
  induction l as [|y l IH]; intros Hall Hx; [by apply elem_of_nil in Hx|].
  rewrite fmap_cons. cbn [foldr].
  assert (forall w, w ∈ l -> 0 <= payment_amount w.2) as Hall'
    by (intros w Hw; apply Hall; by apply list_elem_of_further).
  pose proof (sum_amounts_nonneg l Hall').
  pose proof (Hall y ltac:(apply list_elem_of_here)).
  apply elem_of_cons in Hx as [->|Hx]; [lia|].
  specialize (IH Hall' Hx). lia.
Qed.

Section Repay.

Variables (now : datetime) (loan_id : nat) (loan : Loan)
  (borrower_ lender_ : User).
Hypothesis Hfunded : status loan = FUNDED.
Hypothesis Hborrower : user_pk (borrower loan) = user_pk borrower_.
Hypothesis Hlender : lender loan = Some lender_.
Hypothesis Hne : user_pk lender_ <> user_pk borrower_.

Lemma repay_all n :
  forall db B,
    loans db !! loan_id = Some loan ->
    (forall k p, payments db !! k = Some p -> payment_loan p = loan_id ->
       payment_status p <> OVERDUE) ->
    (forall k p, payments db !! k = Some p -> pending_of loan_id p = true ->
       0 <= payment_amount p) ->
    length (rows_where (pending_of loan_id) (payments db)) = S n ->
    wallets db !! user_pk borrower_ = Some B ->
    pending_total loan_id db <= B ->
    let db' :=
      run_ops (replicate (S n) (OpMakePayment now loan_id borrower_)) db in
    loans db' !! loan_id = Some (set_status COMPLETED loan)
    /\ (forall k p, payments db' !! k = Some p -> payment_loan p = loan_id ->
          payment_status p = PAID)
    /\ balance_of db' (user_pk borrower_) = B - pending_total loan_id db
    /\ balance_of db' (user_pk lender_)
       = balance_of db (user_pk lender_) + pending_total loan_id db.
Proof.
  induction n as [|n IH]; intros db B Hl Hover Hamt Hlen Hw Htot db'.
  all: unfold db'; clear db'.
  all: change (run_ops (replicate (S ?k) ?op) db)
         with (run_ops (replicate k op) (run_op op db)).
  all: cbn [run_op].
  all: rewrite (make_payment_eq now db loan_id borrower_ loan Hl Hborrower
                  Hfunded).
  all: destruct (PaymentRepository.first_by_payment_number
                   (rows_where (pending_of loan_id) (payments db)))
         as [[pk p]|] eqn:Hnext;
         [|apply first_by_payment_number_None in Hnext;
           rewrite Hnext in Hlen; done].
  all: apply first_by_payment_number_Some in Hnext as [Hin _].
  all: pose proof Hin as Hin'.
  all: apply elem_of_rows_where in Hin' as [Hp Hpend].
  all: pose proof (rows_where_paid loan_id (payments db) pk p now Hp Hpend)
         as Hperm.
  all: assert (payment_amount p <= pending_total loan_id db) as Hle
         by (apply (sum_amounts_elem _ (pk, p));
             [intros [k q] Hq; apply elem_of_rows_where in Hq as [? ?];
              by eapply Hamt|done]).
  all: assert (pending_total loan_id db
               = payment_amount p
                 + foldr Z.add 0
                     ((fun r : nat * Payment => payment_amount r.2)
                      <$> rows_where (pending_of loan_id)
                            (<[pk := mark_as_paid now p]> (payments db))))
         as Hsum
         by (unfold pending_total; by rewrite (sum_amounts_perm _ _ Hperm)).
  all: assert (length (rows_where (pending_of loan_id)
                         (<[pk := mark_as_paid now p]> (payments db)))
               = length (rows_where (pending_of loan_id) (payments db)) - 1)%nat
         as Hlen'
         by (rewrite (Permutation_length Hperm); simpl; lia).
  all: cbn [fst snd]; rewrite Hw, bool_decide_eq_true_2 by lia.
  all: rewrite Hlender; cbn zeta.
  all: rewrite transfer_funds_eq; cbn zeta; rewrite Hw.
  all: rewrite bool_decide_eq_true_2 by lia; cbn [fst wallets transactions].
  all: apply pending_of_true in Hpend as [Hpl Hps].
  - (* the last installment *)
    assert (all_paid_in loan_id (<[pk := mark_as_paid now p]> (payments db))
            = true) as Hall.
    { apply all_paid_in_spec. split.
      - exists pk, (mark_as_paid now p). by rewrite lookup_insert_eq.
      - intros k q Hq Hql.
        apply lookup_insert_Some in Hq as [[<- <-]|[ne Hq]]; [done|].
        destruct (payment_status q) eqn:Es; [|done|by (exfalso; eapply Hover)].
        exfalso.
        assert ((k, q) ∈ rows_where (pending_of loan_id)
                           (<[pk := mark_as_paid now p]> (payments db))) as Hk.
        { apply elem_of_rows_where. rewrite lookup_insert_ne by done.
          split; [done|]. by apply pending_of_true. }
        rewrite Hlen in Hlen'. simpl in Hlen'.
        destruct (rows_where _ (<[pk := _]> _)); [|done].
        by apply elem_of_nil in Hk. }
    rewrite Hall. cbn [replicate]. unfold run_ops. cbn [foldl loans payments].
    split; [by rewrite lookup_insert_eq|]. split.
    { intros k q Hq Hql. apply all_paid_in_spec in Hall as [_ Hall].
      by eapply Hall. }
    assert (foldr Z.add 0
              ((fun r : nat * Payment => payment_amount r.2)
               <$> rows_where (pending_of loan_id)
                     (<[pk := mark_as_paid now p]> (payments db))) = 0) as Hz.
    { rewrite Hlen in Hlen'. simpl in Hlen'.
      by destruct (rows_where _ (<[pk := _]> _)). }
    unfold balance_of. cbn [wallets]. split.
    + rewrite lookup_insert_ne by done. rewrite lookup_insert_eq. simpl. lia.
    + rewrite lookup_insert_eq. simpl. lia.
  - (* an installment before the last *)
    assert (all_paid_in loan_id (<[pk := mark_as_paid now p]> (payments db))
            = false) as Hall.
    { destruct (all_paid_in _ _) eqn:E; [|done]. exfalso.
      apply all_paid_in_spec in E as [_ E].
      rewrite Hlen in Hlen'. simpl in Hlen'.
      destruct (rows_where (pending_of loan_id)
                  (<[pk := mark_as_paid now p]> (payments db)))
        as [|[k q] rest] eqn:Er; [done|].
      assert ((k, q) ∈ rows_where (pending_of loan_id)
                         (<[pk := mark_as_paid now p]> (payments db))) as Hk
        by (rewrite Er; apply list_elem_of_here).
      apply elem_of_rows_where in Hk as [Hq Hqp].
      apply pending_of_true in Hqp as [Hql Hqs].
      specialize (E k q Hq Hql). congruence. }
    rewrite Hall.
    match goal with
    | |- context [run_ops _ ?d] => set (db1 := d)
    end.
    assert (pending_total loan_id db1
            = pending_total loan_id db - payment_amount p) as Htot1.
    { unfold pending_total at 1. unfold db1. cbn [payments]. lia. }
    destruct (IH db1 (B - payment_amount p)) as (C1 & C2 & C3 & C4).
    + done.
    + unfold db1. cbn [payments]. intros k q Hq Hql.
      apply lookup_insert_Some in Hq as [[<- <-]|[ne Hq]]; [done|].
      by eapply Hover.
    + unfold db1. cbn [payments]. intros k q Hq Hqp.
      apply lookup_insert_Some in Hq as [[<- <-]|[ne Hq]]; [|by eapply Hamt].
      apply pending_of_true in Hqp as [_ Hqs]. done.
    + unfold db1. cbn [payments]. rewrite Hlen'. rewrite Hlen. simpl. lia.
    + unfold db1. cbn [wallets]. rewrite lookup_insert_ne by done.
      by rewrite lookup_insert_eq.
    + lia.
    + split; [done|]. split; [done|]. split; [rewrite C3; lia|].
      rewrite C4, Htot1. unfold balance_of at 1. unfold db1. cbn [wallets].
      rewrite lookup_insert_eq. simpl. lia.
Qed.

End Repay.

(** X28: a FUNDED loan of a borrower and a different lender, without
    OVERDUE payments and with at least one PENDING installment, whose
    PENDING installments are not negative and are covered in sum by the
    wallet of the borrower, is paid off by as many calls of [make_payment]
    as it has PENDING installments: the row of the loan then has the status
    COMPLETED and its other fields as before, all its payments are PAID, the
    borrower has paid their sum and the lender has received it. *)
Theorem repay_loan now loan_id loan borrower_ lender_ db B :
  loans db !! loan_id = Some loan ->
  status loan = FUNDED ->
  user_pk (borrower loan) = user_pk borrower_ ->
  lender loan = Some lender_ ->
  user_pk lender_ <> user_pk borrower_ ->
  (forall k p, payments db !! k = Some p -> payment_loan p = loan_id ->
     payment_status p <> OVERDUE) ->
  (forall k p, payments db !! k = Some p -> pending_of loan_id p = true ->
     0 <= payment_amount p) ->
  rows_where (pending_of loan_id) (payments db) <> [] ->
  wallets db !! user_pk borrower_ = Some B ->
  pending_total loan_id db <= B ->
  let n := length (rows_where (pending_of loan_id) (payments db)) in
  let db' := run_ops (replicate n (OpMakePayment now loan_id borrower_)) db in
  loans db' !! loan_id
  = Some (mkLoan (borrower loan) (Some lender_) (amount loan)
            (term_months loan) (annual_interest_rate loan) COMPLETED
            (funded_at loan))
  /\ (exists l, loans db' !! loan_id = Some l /\ status l = COMPLETED)
  /\ (forall k p, payments db' !! k = Some p -> payment_loan p = loan_id ->
        payment_status p = PAID)
  /\ balance_of db' (user_pk borrower_) = B - pending_total loan_id db
  /\ balance_of db' (user_pk lender_)
     = balance_of db (user_pk lender_) + pending_total loan_id db.
Proof.
  intros Hl Hs Hb Hlender Hne Hover Hamt Hrows Hw Htot n.
  destruct n as [|n'] eqn:En.
  { unfold n in En. by destruct (rows_where _ _). }
  intros db'.
  destruct (repay_all now loan_id loan borrower_ lender_ Hs Hb Hlender Hne n'
              db B Hl Hover Hamt En Hw Htot) as (K1 & K2 & K3 & K4).
  fold db' in K1, K2, K3, K4. unfold set_status in K1. rewrite Hlender in K1.
  split; [exact K1|]. split; [eexists; split; [exact K1|done]|].
  split; [exact K2|]. split; [exact K3|exact K4].
Qed.

Lemma repay_loan_witness :
  loans db_funded_loan !! 1%nat = Some funded_loan
  /\ pending_total 1 db_funded_loan = 101502
  /\ length (rows_where (pending_of 1) (payments db_funded_loan)) = 2%nat
  /\ (exists l,
        loans (run_ops (replicate 2 (OpMakePayment noon 1 bob)) db_funded_loan)
          !! 1%nat
        = Some l
        /\ status l = COMPLETED)
  /\ balance_of
       (run_ops (replicate 2 (OpMakePayment noon 1 bob)) db_funded_loan)
       (user_pk alice)
     = 101502.
Proof.
  assert (loans db_funded_loan !! 1%nat = Some funded_loan) as Hl
    by reflexivity.
  assert (pending_total 1 db_funded_loan = 101502) as Ht by (by vm_compute).
  assert (length (rows_where (pending_of 1) (payments db_funded_loan)) = 2%nat)
    as Hn by (by vm_compute).
  split; [exact Hl|]. split; [exact Ht|]. split; [exact Hn|].
  destruct (repay_loan noon 1 funded_loan bob alice db_funded_loan 200000 Hl)
    as (_ & K1 & _ & _ & K4).
  - reflexivity.
  - reflexivity.
  - reflexivity.
  - simpl. lia.
  - intros k p Hp _. unfold db_funded_loan in Hp. cbn [payments] in Hp.
    rows_solve.
  - intros k p Hp _. unfold db_funded_loan in Hp. cbn [payments] in Hp.
    rows_solve; lia.
  - intros E. rewrite E in Hn. done.
  - reflexivity.
  - rewrite Ht. lia.
  - rewrite Hn in K1, K4. rewrite Ht in K4. split; [exact K1|exact K4].
Defined.
